(** * prime-service: the parameter pool, its persistence, the gRPC facade
      and the client stub

    A shallow embedding of the Go sources

      - internal/generator  (the bundle generator),
      - internal/pool       (the pool manager: take, refill, save, load),
      - internal/server     (the gRPC facade),
      - client              (the client wrapper),
      - cmd/server/main.go  (the launcher's configuration defaults),

    followed by the properties of the specification that concern them.

    Conventions.
      - Go's [int] and [int64] are 64-bit two's complement integers: values
        are [Z] and every addition or subtraction the code performs goes
        through [Int64.wrap].  [uint32] request counts are [N].
      - [*big.Int] and the other pointers that may be nil are [option].
      - A slice is a [list]; [s[:k]] is [take k s] and [s[k:]] is [drop k s].
        Module [slices] models the pool once more as a window on a backing
        array, for the properties that depend on which slices share an
        array.
      - A goroutine started with [go f()] is recorded as a [spawned] event
        of the call that starts it; its body is a function of its own.
      - The code is modelled sequentially: every function runs from its
        entry to its return without interleaving with another goroutine.
        Where the code makes concurrency explicit (the workers and the
        collector of a refill round), the model keeps the pieces that run
        under [m.mu] as functions of their own, and the traces of the
        properties interleave them freely.  What the code does outside its
        locks has models of its own: the appends to the result of a
        request among the deposits of the collector (module [slices]), and
        the increments of [totalGenerated] (module [race]). *)

From Stdlib Require Import ZArith Lia.
From stdpp Require Import base option list strings gmap.

Local Open Scope Z_scope.

(** ** Machine integers *)

Module Int64.
Definition min_int : Z := - 2 ^ 63.
Definition max_int : Z := 2 ^ 63 - 1.

Definition in_range (z : Z) : Prop := min_int <= z <= max_int.

(** Two's complement wrap-around of a mathematical integer. *)
Definition wrap (z : Z) : Z := (z + 2 ^ 63) mod 2 ^ 64 - 2 ^ 63.

Definition add (a b : Z) : Z := wrap (a + b).
Definition sub (a b : Z) : Z := wrap (a - b).
Definition mul (a b : Z) : Z := wrap (a * b).
End Int64.

(** ** Time *)

(** [time.Time]: a wall-clock instant in nanoseconds since the Unix epoch
  (the monotonic reading and the location are not modelled).
  [time.Duration]: an [int64] count of nanoseconds. *)
Definition Time : Type := Z.
Definition Duration : Type := Z.

Module time.
Definition Millisecond : Duration := 1000000.
Definition Second : Duration := 1000000000.
(** [t.Sub(u)], also [time.Since] when [t] is the current instant. *)
Definition Sub (t u : Time) : Duration := Int64.sub t u.
(** [t.Unix()]: whole seconds since the epoch. *)
Definition Unix_of (t : Time) : Z := t `div` Second.
(** [time.Unix(sec, 0)]. *)
Definition Unix (sec : Z) : Time := sec * Second.
(** [d.Milliseconds()]. *)
Definition Milliseconds (d : Duration) : Z := Z.quot d Millisecond.
(** The zero [time.Time] (January 1, year 1, 00:00 UTC). *)
Definition zero : Time := -62135596800 * Second.
End time.

(** ** math/big: the byte encodings used on the wire *)

Module big.
Definition byte_of_Z (z : Z) : Byte.byte :=
  default Byte.x00 (Byte.of_N (Z.to_N (z mod 256))).
Definition Z_of_byte (b : Byte.byte) : Z := Z.of_N (Byte.to_N b).

(** Little-endian base-256 digits of a non-negative integer. *)
Fixpoint digits (fuel : nat) (n : Z) : list Byte.byte :=
  match fuel with
  | O => []
  | S fuel' =>
      if n <=? 0 then [] else byte_of_Z n :: digits fuel' (n / 256)
  end.

(** [x.Bytes()]: the absolute value of [x] as a big-endian byte slice
    without leading zero bytes (the sign is dropped). *)
Definition Bytes (x : Z) : list Byte.byte :=
  rev (digits (Z.to_nat (Z.log2 (Z.abs x)) + 1) (Z.abs x)).

(** [new(big.Int).SetBytes(buf)]: [buf] read as a big-endian unsigned
    integer. *)
Definition SetBytes (buf : list Byte.byte) : Z :=
  fold_left (fun acc b => acc * 256 + Z_of_byte b) buf 0.
End big.

(** ** tss-lib's Paillier private key

  [paillier.PrivateKey] embeds [PublicKey {N}] and adds [LambdaN], [PhiN],
  [P] and [Q]; all five are [*big.Int]. *)

Module paillier.
Record PrivateKey : Type := {
  N : option Z;
  LambdaN : option Z;
  PhiN : option Z;
  P : option Z;
  Q : option Z;
}.
End paillier.

(** Go's [error] values are modelled by their message. *)
Definition error : Type := string.

(** [fmt.Errorf("<prefix>: %w", err)]. *)
Definition wrapf (prefix : string) (err : error) : error :=
(prefix +:+ ": " +:+ err)%string.

(** ** internal/generator *)

Module generator.

Record PreParamsData : Type := {
  PaillierKey : option paillier.PrivateKey;
  NTildei : option Z;
  H1i : option Z;
  H2i : option Z;
  Alpha : option Z;
  Beta : option Z;
  P : option Z;
  Q : option Z;
  GeneratedAt : Time;
}.

(** What one run of the cryptographic library amounts to.  The library
    (Paillier key generation, the search for two safe primes, the random
    draws) is the generator's only source of errors:
    [GeneratePreParams] returns an error exactly when
    [paillier.GenerateKeyPair] or [common.GetRandomSafePrimesConcurrent]
    does, and otherwise returns the assembled parameters. *)
Inductive run : Type :=
| PaillierFailed (err : error)
| SafePrimesFailed (err : error)
| Completed (params : PreParamsData).

(** The generator together with the library it drives: [library k] is the
    outcome of the [k]-th run, [runs] the number of runs made so far, and
    [generationCount] the statistics counter of the Go struct. *)
Record Generator : Type := {
  library : nat -> run;
  runs : nat;
  generationCount : Z;
}.

Definition NewGenerator (lib : nat -> run) : Generator :=
  {| library := lib; runs := 0; generationCount := 0 |}.

(** [GeneratePreParams]: the deferred function counts the call whatever
    its outcome. *)
Definition GeneratePreParams (g : Generator) (primeBitSize paillierBitSize : Z)
  : (PreParamsData + error) * Generator :=
  let g' := {| library := library g;
               runs := S (runs g);
               generationCount := Int64.add (generationCount g) 1 |} in
  match library g (runs g) with
  | PaillierFailed err => (inr (wrapf "failed to generate Paillier key" err), g')
  | SafePrimesFailed err => (inr (wrapf "failed to generate safe primes" err), g')
  | Completed params => (inl params, g')
  end.

End generator.

(** ** encoding/json, as far as the pool file needs it

  A pool file is modelled by the JSON document it holds.  An object is a
  finite map from keys to values (documents binding a key twice are not
  represented, and keys are matched exactly: Go would also accept a key
  that differs from the field's tag by letter case only).  Number
  literals are split into plain integers ([Int]) and literals with a
  fraction or an exponent ([Frac]); string literals into those that are
  the RFC 3339 rendering of an instant ([Timestamp], what
  [time.Time.MarshalJSON] prints and [time.Time.UnmarshalJSON] accepts)
  and all the others ([Str]). *)

Module json.

Set Warnings "-register-all".
Inductive value : Type :=
| Null
| Bool (b : bool)
| Int (z : Z)
| Frac
| Str (s : string)
| Timestamp (t : Time)
| Arr (elems : list value)
| Obj (fields : gmap string value).

(** *** The member that a struct field is decoded from

    [encoding/json] matches the keys of an object with the names of the
    struct fields, preferring an exact match but also accepting a
    case-insensitive match, which is that of [bytes.EqualFold].  For a
    name in ASCII the runes that fold to one of its letters are the two
    cases of the letter, the Kelvin sign (U+212A, bytes E2 84 AA) for k
    and the long s (U+017F, bytes C5 BF) for s.  [foldName] brings a key
    to lower case (byte 107 is k, byte 115 is s). *)

Definition lower (c : Ascii.ascii) : Ascii.ascii :=
  let n := Ascii.N_of_ascii c in
  if ((65 <=? n) && (n <=? 90))%N then Ascii.ascii_of_N (n + 32) else c.

Fixpoint foldName (s : string) : string :=
  match s with
  | EmptyString => EmptyString
  | String c rest =>
      let plain := String (lower c) (foldName rest) in
      match rest with
      | String c1 rest1 =>
          if ((Ascii.N_of_ascii c =? 197) && (Ascii.N_of_ascii c1 =? 191))%N
          then String (Ascii.ascii_of_N 115) (foldName rest1)
          else
            match rest1 with
            | String c2 rest2 =>
                if ((Ascii.N_of_ascii c =? 226) && (Ascii.N_of_ascii c1 =? 132)
                    && (Ascii.N_of_ascii c2 =? 170))%N
                then String (Ascii.ascii_of_N 107) (foldName rest2)
                else plain
            | EmptyString => plain
            end
      | EmptyString => plain
      end
  end.

(** The member of object [o] that the field named [name] is decoded
    from: the one with that key, else one whose key matches up to case.
    (The decoder assigns the members in the order of the text; an object
    in which several keys match one name up to case is decoded by Go
    member after member, which a map from keys to values does not
    record: for such an object [field] prefers the exact key.) *)
Definition field (o : gmap string value) (name : string) : option value :=
  match o !! name with
  | Some v => Some v
  | None =>
      snd <$> head (filter (fun kv => foldName kv.1 = foldName name) (map_to_list o))
  end.

(** Decoding into a [*big.Int] field of a freshly allocated struct: an
    absent key leaves the pointer nil, [null] sets it to nil, an integer
    literal allocates the number, and anything else makes
    [big.Int.UnmarshalJSON] fail.  The outer [None] is the error. *)
Definition bigInt (v : option value) : option (option Z) :=
  match v with
  | None | Some Null => Some None
  | Some (Int z) => Some (Some z)
  | Some _ => None
  end.

(** Decoding into an [int], [int64] or [time.Duration] field. *)
Definition int (v : option value) : option Z :=
  match v with
  | None | Some Null => Some 0
  | Some (Int z) =>
      if (Int64.min_int <=? z) && (z <=? Int64.max_int) then Some z else None
  | Some _ => None
  end.

(** Decoding into a [string] field. *)
Definition str (v : option value) : option unit :=
  match v with
  | None | Some Null | Some (Str _) | Some (Timestamp _) => Some ()
  | Some _ => None
  end.

(** Decoding into a [bool] field. *)
Definition boolean (v : option value) : option bool :=
  match v with
  | None | Some Null => Some false
  | Some (Bool b) => Some b
  | Some _ => None
  end.

(** Decoding into a [time.Time] field. *)
Definition timestamp (v : option value) : option Time :=
  match v with
  | None | Some Null => Some time.zero
  | Some (Timestamp t) => Some t
  | Some _ => None
  end.

(** Encoding of a [*big.Int]: [null] for nil, the decimal digits
    otherwise. *)
Definition of_bigInt (x : option Z) : value :=
  match x with
  | None => Null
  | Some z => Int z
  end.

End json.

(** ** The file system seen by the pool *)

Module fs.

(** What a path holds: a file that cannot be read, a file whose bytes are
    not a JSON document, or a JSON document. *)
Inductive file : Type :=
| Unreadable
| Malformed
| Document (doc : json.value).

(** How a call of [ioutil.WriteFile] ends on a disk.  The function opens
    the file with [O_WRONLY|O_CREATE|O_TRUNC], writes the data and closes
    the file; it fails when the open fails (nothing is changed: a
    read-only file system, a directory that refuses the access), when the
    write fails after the file was truncated (the file is left with a
    strict prefix of the data: a full disk), or when the close fails after
    all the data was written. *)
Inductive write : Type :=
| Completes
| FailsAtOpen
| FailsAfterOpen (all_written : bool).

(** [files] maps the existing paths to what they hold; [on_write] says
    how a call of [ioutil.WriteFile] ends. *)
Record Disk : Type := {
  files : gmap string file;
  on_write : write;
}.

(** Whether every [ioutil.WriteFile] returns an error. *)
Definition read_only (d : Disk) : bool :=
  match on_write d with
  | Completes => false
  | FailsAtOpen | FailsAfterOpen _ => true
  end.

(** [ioutil.WriteFile(path, data, 0600)] where [data] is the text of
    [doc], an object: the disk it leaves and whether it returns an error.
    A strict prefix of the text of an object is not a JSON document. *)
Definition WriteFile (d : Disk) (path : string) (doc : json.value) : Disk * bool :=
  match on_write d with
  | Completes =>
      ({| files := <[path := Document doc]> (files d); on_write := on_write d |},
       false)
  | FailsAtOpen => (d, true)
  | FailsAfterOpen all_written =>
      ({| files := <[path := if all_written then Document doc else Malformed]> (files d);
          on_write := on_write d |},
       true)
  end.

(** [filepath.Join(dir, name)].  The lexical cleaning of the result
    (dropping a leading "./", collapsing separators) is not modelled: it
    does not change the file that the path names. *)
Definition Join (dir name : string) : string := (dir +:+ "/" +:+ name)%string.

End fs.

(** ** Values of type [interface{}]

    The dynamic types that occur in the status map of the pool. *)

Module dyn.

Inductive any : Type :=
| OfInt (v : Z)
| OfInt64 (v : Z)
| OfBool (v : bool)
| OfTime (v : Time)
| OfString (v : string).

(** The type assertions [x.(int)], [x.(int64)] and [x.(bool)] on the result
    of a map lookup ([None]: absent key or another dynamic type, the
    [ok = false] case). *)
Definition as_int (x : option any) : option Z :=
  match x with
  | Some (OfInt v) => Some v
  | _ => None
  end.

Definition as_int64 (x : option any) : option Z :=
  match x with
  | Some (OfInt64 v) => Some v
  | _ => None
  end.

Definition as_bool (x : option any) : option bool :=
  match x with
  | Some (OfBool v) => Some v
  | _ => None
  end.

(** The conversion [uint32(v)] of an [int]. *)
Definition uint32 (v : Z) : Z := v mod 2 ^ 32.

End dyn.

(** Go's [len] of a slice, an [int]. *)
Definition len {A : Type} (s : list A) : Z := Z.of_nat (length s).

(** ** internal/pool: data *)

Module pool.

(** [PreParamsData]: one bundle of pre-computed parameters. *)
Record PreParamsData : Type := {
  PaillierKey : option paillier.PrivateKey;
  NTildei : option Z;
  H1i : option Z;
  H2i : option Z;
  Alpha : option Z;
  Beta : option Z;
  P : option Z;
  Q : option Z;
  GeneratedAt : Time;
}.

Record SimpleConfig : Type := {
  MinPoolSize : Z;
  MaxPoolSize : Z;
  RefillThreshold : Z;
  PrimeBitSize : Z;
  PaillierBitSize : Z;
  MaxConcurrent : Z;
  PoolDir : string;
  AutoSave : bool;
  BackgroundGen : bool;
  RefillInterval : Duration;
}.

(** The goroutines a call starts: [go m.refillPool()],
    [go m.saveToDisk()] and [go m.backgroundGeneration()]. *)
Inductive spawned : Type :=
| GoRefillPool
| GoSaveToDisk
| GoBackgroundGeneration.

#[export] Instance spawned_eq_dec : EqDecision spawned.
Proof. solve_decision. Defined.

(** [Manager].  The locks are not state of the model; [stopCh] is [true]
    once the channel is closed.  The pool never holds a nil entry (entries
    come from [generateSinglePreParams], which allocates, or from
    [loadFromDisk], which filters nil out), so [preParams] is a list of
    bundles rather than of pointers. *)
Record Manager : Type := {
  config : SimpleConfig;
  generator : generator.Generator;
  preParams : list PreParamsData;
  stopCh : bool;
  isGenerating : bool;
  isSaving : bool;
  poolFilePath : string;
  startTime : Time;
  totalGenerated : Z;
  totalServed : Z;
}.

Definition with_generator (g : generator.Generator) (m : Manager) : Manager :=
  {| config := config m; generator := g; preParams := preParams m;
     stopCh := stopCh m; isGenerating := isGenerating m; isSaving := isSaving m;
     poolFilePath := poolFilePath m; startTime := startTime m;
     totalGenerated := totalGenerated m; totalServed := totalServed m |}.

Definition with_preParams (s : list PreParamsData) (m : Manager) : Manager :=
  {| config := config m; generator := generator m; preParams := s;
     stopCh := stopCh m; isGenerating := isGenerating m; isSaving := isSaving m;
     poolFilePath := poolFilePath m; startTime := startTime m;
     totalGenerated := totalGenerated m; totalServed := totalServed m |}.

Definition with_isGenerating (b : bool) (m : Manager) : Manager :=
  {| config := config m; generator := generator m; preParams := preParams m;
     stopCh := stopCh m; isGenerating := b; isSaving := isSaving m;
     poolFilePath := poolFilePath m; startTime := startTime m;
     totalGenerated := totalGenerated m; totalServed := totalServed m |}.

Definition with_isSaving (b : bool) (m : Manager) : Manager :=
  {| config := config m; generator := generator m; preParams := preParams m;
     stopCh := stopCh m; isGenerating := isGenerating m; isSaving := b;
     poolFilePath := poolFilePath m; startTime := startTime m;
     totalGenerated := totalGenerated m; totalServed := totalServed m |}.

Definition with_stopCh (b : bool) (m : Manager) : Manager :=
  {| config := config m; generator := generator m; preParams := preParams m;
     stopCh := b; isGenerating := isGenerating m; isSaving := isSaving m;
     poolFilePath := poolFilePath m; startTime := startTime m;
     totalGenerated := totalGenerated m; totalServed := totalServed m |}.

Definition with_totalGenerated (n : Z) (m : Manager) : Manager :=
  {| config := config m; generator := generator m; preParams := preParams m;
     stopCh := stopCh m; isGenerating := isGenerating m; isSaving := isSaving m;
     poolFilePath := poolFilePath m; startTime := startTime m;
     totalGenerated := n; totalServed := totalServed m |}.

Definition with_totalServed (n : Z) (m : Manager) : Manager :=
  {| config := config m; generator := generator m; preParams := preParams m;
     stopCh := stopCh m; isGenerating := isGenerating m; isSaving := isSaving m;
     poolFilePath := poolFilePath m; startTime := startTime m;
     totalGenerated := totalGenerated m; totalServed := n |}.

(** *** The pool file

    The struct tags of the source give the keys.  [json.MarshalIndent]
    cannot fail on these types (a nil pointer is written as [null]). *)

Definition marshal_PrivateKey (k : option paillier.PrivateKey) : json.value :=
  match k with
  | None => json.Null
  | Some k =>
      json.Obj (list_to_map
        [ ("N"%string, json.of_bigInt (paillier.N k));
          ("LambdaN"%string, json.of_bigInt (paillier.LambdaN k));
          ("PhiN"%string, json.of_bigInt (paillier.PhiN k));
          ("P"%string, json.of_bigInt (paillier.P k));
          ("Q"%string, json.of_bigInt (paillier.Q k)) ])
  end.

Definition marshal_PreParamsData (p : PreParamsData) : json.value :=
  json.Obj (list_to_map
    [ ("paillier_key"%string, marshal_PrivateKey (PaillierKey p));
      ("n_tildei"%string, json.of_bigInt (NTildei p));
      ("h1i"%string, json.of_bigInt (H1i p));
      ("h2i"%string, json.of_bigInt (H2i p));
      ("alpha"%string, json.of_bigInt (Alpha p));
      ("beta"%string, json.of_bigInt (Beta p));
      ("p"%string, json.of_bigInt (P p));
      ("q"%string, json.of_bigInt (Q p));
      ("generated_at"%string, json.Timestamp (GeneratedAt p)) ]).

Definition marshal_SimpleConfig (c : SimpleConfig) : json.value :=
  json.Obj (list_to_map
    [ ("min_pool_size"%string, json.Int (MinPoolSize c));
      ("max_pool_size"%string, json.Int (MaxPoolSize c));
      ("refill_threshold"%string, json.Int (RefillThreshold c));
      ("prime_bit_size"%string, json.Int (PrimeBitSize c));
      ("paillier_bit_size"%string, json.Int (PaillierBitSize c));
      ("max_concurrent"%string, json.Int (MaxConcurrent c));
      ("pool_dir"%string, json.Str (PoolDir c));
      ("auto_save"%string, json.Bool (AutoSave c));
      ("background_gen"%string, json.Bool (BackgroundGen c));
      ("refill_interval"%string, json.Int (RefillInterval c)) ]).

(** The anonymous struct that [saveToDisk] writes and [loadFromDisk]
    reads.  The decoded [Config] is never read by the code, so decoding
    only checks it. *)
Record poolData : Type := {
  PreParams : list (option PreParamsData);
  SavedAt : Time;
}.

Definition marshal_poolData (s : list PreParamsData) (savedAt : Time)
    (c : SimpleConfig) : json.value :=
  json.Obj (list_to_map
    [ ("pre_params"%string, json.Arr (marshal_PreParamsData <$> s));
      ("saved_at"%string, json.Timestamp savedAt);
      ("config"%string, marshal_SimpleConfig c) ]).

(** Decoding into a [*paillier.PrivateKey] field: the outer [None] is a
    decoding error, the inner one a nil pointer. *)
Definition unmarshal_PrivateKey (v : option json.value)
    : option (option paillier.PrivateKey) :=
  match v with
  | None | Some json.Null => Some None
  | Some (json.Obj o) =>
      n ← json.bigInt (json.field o "N"%string);
      lambdaN ← json.bigInt (json.field o "LambdaN"%string);
      phiN ← json.bigInt (json.field o "PhiN"%string);
      p ← json.bigInt (json.field o "P"%string);
      q ← json.bigInt (json.field o "Q"%string);
      Some (Some {| paillier.N := n; paillier.LambdaN := lambdaN;
                    paillier.PhiN := phiN; paillier.P := p; paillier.Q := q |})
  | Some _ => None
  end.

(** Decoding one element of the [pre_params] array into a
    [*PreParamsData]. *)
Definition unmarshal_PreParamsData (v : json.value) : option (option PreParamsData) :=
  match v with
  | json.Null => Some None
  | json.Obj o =>
      key ← unmarshal_PrivateKey (json.field o "paillier_key"%string);
      nTildei ← json.bigInt (json.field o "n_tildei"%string);
      h1i ← json.bigInt (json.field o "h1i"%string);
      h2i ← json.bigInt (json.field o "h2i"%string);
      alpha ← json.bigInt (json.field o "alpha"%string);
      beta ← json.bigInt (json.field o "beta"%string);
      p ← json.bigInt (json.field o "p"%string);
      q ← json.bigInt (json.field o "q"%string);
      generatedAt ← json.timestamp (json.field o "generated_at"%string);
      Some (Some {| PaillierKey := key; NTildei := nTildei; H1i := h1i;
                    H2i := h2i; Alpha := alpha; Beta := beta; P := p; Q := q;
                    GeneratedAt := generatedAt |})
  | _ => None
  end.

Definition unmarshal_SimpleConfig (v : option json.value) : option unit :=
  match v with
  | None | Some json.Null => Some ()
  | Some (json.Obj o) =>
      _ ← json.int (json.field o "min_pool_size"%string);
      _ ← json.int (json.field o "max_pool_size"%string);
      _ ← json.int (json.field o "refill_threshold"%string);
      _ ← json.int (json.field o "prime_bit_size"%string);
      _ ← json.int (json.field o "paillier_bit_size"%string);
      _ ← json.int (json.field o "max_concurrent"%string);
      _ ← json.str (json.field o "pool_dir"%string);
      _ ← json.boolean (json.field o "auto_save"%string);
      _ ← json.boolean (json.field o "background_gen"%string);
      _ ← json.int (json.field o "refill_interval"%string);
      Some ()
  | Some _ => None
  end.

Definition unmarshal_PreParams (v : option json.value)
    : option (list (option PreParamsData)) :=
  match v with
  | None | Some json.Null => Some []
  | Some (json.Arr elems) => mapM unmarshal_PreParamsData elems
  | Some _ => None
  end.

(** [json.Unmarshal(data, &poolData)]; [None] when it returns an error. *)
Definition unmarshal_poolData (doc : json.value) : option poolData :=
  match doc with
  | json.Null => Some {| PreParams := []; SavedAt := time.zero |}
  | json.Obj o =>
      params ← unmarshal_PreParams (json.field o "pre_params"%string);
      savedAt ← json.timestamp (json.field o "saved_at"%string);
      _ ← unmarshal_SimpleConfig (json.field o "config"%string);
      Some {| PreParams := params; SavedAt := savedAt |}
  | _ => None
  end.

(** *** Construction and load *)

(** The defaults that [NewManager] fills in for zero-valued fields. *)
Definition withDefaults (config : SimpleConfig) : SimpleConfig :=
  {| MinPoolSize := if MinPoolSize config =? 0 then 10 else MinPoolSize config;
     MaxPoolSize := if MaxPoolSize config =? 0 then 20 else MaxPoolSize config;
     RefillThreshold :=
       if RefillThreshold config =? 0 then 5 else RefillThreshold config;
     PrimeBitSize := if PrimeBitSize config =? 0 then 1024 else PrimeBitSize config;
     PaillierBitSize :=
       if PaillierBitSize config =? 0 then 2048 else PaillierBitSize config;
     MaxConcurrent := if MaxConcurrent config =? 0 then 4 else MaxConcurrent config;
     PoolDir := if String.eqb (PoolDir config) "" then "./prime_pool"%string
                else PoolDir config;
     AutoSave := AutoSave config;
     BackgroundGen := BackgroundGen config;
     RefillInterval :=
       if RefillInterval config =? 0 then 30 * time.Second
       else RefillInterval config |}.

(** The loop of [loadFromDisk] that keeps the entries that are not nil and
    have a Paillier key. *)
Fixpoint validParams (params : list (option PreParamsData)) : list PreParamsData :=
  match params with
  | [] => []
  | param :: rest =>
      match param with
      | Some p =>
          match PaillierKey p with
          | Some _ => p :: validParams rest
          | None => validParams rest
          end
      | None => validParams rest
      end
  end.

(** [loadFromDisk]: every failure (no file, unreadable file, undecodable
    content) is logged and leaves the manager as it is. *)
Definition loadFromDisk (m : Manager) (disk : fs.Disk) : Manager :=
  match fs.files disk !! poolFilePath m with
  | None => m
  | Some fs.Unreadable => m
  | Some fs.Malformed => m
  | Some (fs.Document doc) =>
      match unmarshal_poolData doc with
      | None => m
      | Some data => with_preParams (validParams (PreParams data)) m
      end
  end.

(** [NewManager] at instant [now] ([os.MkdirAll] only concerns the
    directory, which the model of the disk does not represent). *)
Definition NewManager (gen : generator.Generator) (config : SimpleConfig)
    (disk : fs.Disk) (now : Time) : Manager :=
  let config := withDefaults config in
  let pool :=
    {| config := config;
       generator := gen;
       preParams := [];
       stopCh := false;
       isGenerating := false;
       isSaving := false;
       poolFilePath := fs.Join (PoolDir config) "prime_pool.json";
       startTime := now;
       totalGenerated := 0;
       totalServed := 0 |} in
  loadFromDisk pool disk.

(** *** Save *)

(** [saveToDisk] at instant [now].  A call that finds a save in flight
    returns at once; otherwise the flag is raised, the pool written, and the
    deferred function lowers the flag, whether the write failed or not (a
    failure is logged and changes nothing else in what the function
    does). *)
Definition saveToDisk (m : Manager) (disk : fs.Disk) (now : Time)
    : Manager * fs.Disk :=
  if isSaving m then (m, disk)
  else
    let m1 := with_isSaving true m in
    let jsonData := marshal_poolData (preParams m1) now (config m1) in
    let '(disk', failed) := fs.WriteFile disk (poolFilePath m1) jsonData in
    (with_isSaving false m1, disk').

(** *** Generation *)

(** [generateSinglePreParams]: a successful generation is counted in
    [totalGenerated] and copied field by field. *)
Definition generateSinglePreParams (m : Manager) : (PreParamsData + error) * Manager :=
  match generator.GeneratePreParams (generator m)
          (PrimeBitSize (config m)) (PaillierBitSize (config m)) with
  | (inr err, g) =>
      (inr (wrapf "failed to generate parameters" err), with_generator g m)
  | (inl params, g) =>
      let m1 := with_generator g m in
      let m2 := with_totalGenerated (Int64.add (totalGenerated m1) 1) m1 in
      (inl {| PaillierKey := generator.PaillierKey params;
              NTildei := generator.NTildei params;
              H1i := generator.H1i params;
              H2i := generator.H2i params;
              Alpha := generator.Alpha params;
              Beta := generator.Beta params;
              P := generator.P params;
              Q := generator.Q params;
              GeneratedAt := generator.GeneratedAt params |}, m2)
  end.

(** *** GetPreParams *)

(** The first critical section of [GetPreParams] (from [m.mu.Lock()] to
    [m.mu.Unlock()]): the refill check, the default for [count], the take
    from the front of the pool, and the first update of [totalServed].
    Returns the goroutines started, [int(count)] after the default, the
    bundles taken, and the manager. *)
Definition GetPreParams_take (m : Manager) (count : N)
    : list spawned * Z * list PreParamsData * Manager :=
  let started :=
    if len (preParams m) <=? RefillThreshold (config m) then [GoRefillPool]
    else [] in
  let count := if (count =? 0)%N then 1%N else count in
  let available := len (preParams m) in
  let '(result, rest) :=
    if 0 <? available then
      let take_ := Z.of_N count in
      let take_ := if available <? take_ then available else take_ in
      (take (Z.to_nat take_) (preParams m), drop (Z.to_nat take_) (preParams m))
    else ([], preParams m) in
  let m1 := with_preParams rest m in
  let m2 := with_totalServed (Int64.add (totalServed m1) (len result)) m1 in
  (started, Z.of_N count, result, m2).

(** The loop [for i := 0; i < remaining; i++] of [GetPreParams], with
    [n] iterations left: the first failure ends the call with the wrapped
    error and drops [result]. *)
Fixpoint GetPreParams_generate (n : nat) (m : Manager) (result : list PreParamsData)
    : (list PreParamsData + error) * Manager :=
  match n with
  | O => (inl result, m)
  | S n' =>
      match generateSinglePreParams m with
      | (inr err, m') => (inr (wrapf "failed to generate params" err), m')
      | (inl params, m') => GetPreParams_generate n' m' (result ++ [params])
      end
  end.

(** [GetPreParams].  The Go function returns a slice and an error; the
    model returns both as well, [None] standing for nil, together with the
    manager and the goroutines started along the way.

    This is the call run from its entry to its return with no other
    goroutine in between.  In Go the generation loop runs outside [m.mu],
    and the slice returned may share its array with the pool: what the
    collector of a refill round does between the iterations of the loop is
    the subject of [slices.GetPreParams_loop]. *)
Definition GetPreParams (m : Manager) (count : N)
    : (option (list PreParamsData) * option error) * Manager * list spawned :=
  let '(started, count, result, m1) := GetPreParams_take m count in
  let remaining := Int64.sub count (len result) in
  let save m := if AutoSave (config m) then [GoSaveToDisk] else [] in
  if 0 <? remaining then
    match GetPreParams_generate (Z.to_nat remaining) m1 result with
    | (inr err, m2) => ((None, Some err), m2, started)
    | (inl result, m2) =>
        let m3 := with_totalServed (Int64.add (totalServed m2) remaining) m2 in
        ((Some result, None), m3, started ++ save m3)
    end
  else ((Some result, None), m1, started ++ save m1).

(** *** Refill

    [refillPool] runs workers and a collector concurrently; the model keeps
    its sequential pieces, each of which the code runs as a unit. *)

(** How a refill round starts: either it returns before starting any
    worker, or it starts [maxConcurrent] workers to produce [needed]
    bundles. *)
Inductive admission : Type :=
| Skipped
| Started (needed maxConcurrent : Z).

(** [refillPool] from its entry to the start of the workers, at instant
    [now] on a host with [numCPU] cores. *)
Definition refillPool_begin (m : Manager) (now : Time) (numCPU : Z)
    : admission * Manager :=
  if time.Sub now (startTime m) <? 10 * time.Second then (Skipped, m)
  else if isGenerating m then (Skipped, m)
  else
    let m1 := with_isGenerating true m in
    let currentSize := len (preParams m1) in
    if MinPoolSize (config m1) <=? currentSize then
      (Skipped, with_isGenerating false m1)
    else
      let needed := Int64.sub (MinPoolSize (config m1)) currentSize in
      let maxConcurrent := MaxConcurrent (config m1) in
      let maxConcurrent := if maxConcurrent <=? 0 then 1 else maxConcurrent in
      let maxConcurrent :=
        if (1 <? maxConcurrent) && (numCPU <=? 3) then 1 else maxConcurrent in
      let maxConcurrent :=
        if needed <? maxConcurrent then needed else maxConcurrent in
      (Started needed maxConcurrent, m1).

(** One iteration of a worker's loop.  A bundle that was generated is
    sent to the collector (the case where [stopCh] is closed while the
    worker waits to send is not modelled). *)
Inductive iteration : Type :=
| WorkerReturns
| WorkerFails (err : error)
| WorkerSends (params : PreParamsData).

Definition worker_iteration (m : Manager) : iteration * Manager :=
  if stopCh m then (WorkerReturns, m)
  else
    let currentSize := len (preParams m) in
    if MinPoolSize (config m) <=? currentSize then (WorkerReturns, m)
    else
      match generateSinglePreParams m with
      | (inr err, m') => (WorkerFails err, m')
      | (inl params, m') => (WorkerSends params, m')
      end.

(** The collector's critical section for one bundle received from
    [paramsCh]: the bundle is appended unless the pool has reached
    [MaxPoolSize], in which case it is discarded. *)
Definition collect (m : Manager) (preParamsData : PreParamsData)
    : Manager * list spawned :=
  if len (preParams m) <? MaxPoolSize (config m) then
    (with_preParams (preParams m ++ [preParamsData]) m,
     if AutoSave (config m) then [GoSaveToDisk] else [])
  else (m, []).

(** The deferred function of [refillPool]. *)
Definition refillPool_end (m : Manager) : Manager := with_isGenerating false m.

(** One tick of [backgroundGeneration]: whether [refillPool] is called. *)
Definition tick_refills (m : Manager) : bool :=
  len (preParams m) <=? RefillThreshold (config m).

(** *** Start and stop *)

(** [Start] only starts goroutines: the periodic refill when it is
    enabled, and an initial refill when the pool is below the threshold. *)
Definition Start (m : Manager) : list spawned :=
  (if BackgroundGen (config m) then [GoBackgroundGeneration] else [])
  ++ (if len (preParams m) <? RefillThreshold (config m) then [GoRefillPool]
      else []).

(** [Stop]: closes [stopCh] and saves the pool. *)
Definition Stop (m : Manager) (disk : fs.Disk) (now : Time) : Manager * fs.Disk :=
  saveToDisk (with_stopCh true m) disk now.

(** *** Status *)

(** [GetPoolStatus]: the statistics as a map from names to values of
    dynamic type.  The oldest and newest instants are those of the first
    and the last bundle of the pool, the zero instant when it is empty. *)
Definition GetPoolStatus (m : Manager) : gmap string dyn.any :=
  let oldestGenTime := from_option GeneratedAt time.zero (head (preParams m)) in
  let newestGenTime := from_option GeneratedAt time.zero (last (preParams m)) in
  list_to_map
    [ ("pool_size"%string, dyn.OfInt (len (preParams m)));
      ("min_size"%string, dyn.OfInt (MinPoolSize (config m)));
      ("max_size"%string, dyn.OfInt (MaxPoolSize (config m)));
      ("refill_threshold"%string, dyn.OfInt (RefillThreshold (config m)));
      ("is_generating"%string, dyn.OfBool (isGenerating m));
      ("oldest_item"%string, dyn.OfTime oldestGenTime);
      ("newest_item"%string, dyn.OfTime newestGenTime);
      ("pool_file"%string, dyn.OfString (poolFilePath m));
      ("total_generated"%string, dyn.OfInt64 (totalGenerated m));
      ("total_served"%string, dyn.OfInt64 (totalServed m)) ].

(** *** The collector of a refill round

    The loop [for { select { ... } }] of [refillPool] receives from three
    channels; which case fires at each turn is the scheduler's choice and
    is given to the model as the list of what the loop receives. *)
Inductive received : Type :=
| StopClosed
| FromErrorCh (err : option error)
| FromParamsCh (params : option PreParamsData).

(** How the round ends.  [Running]: the loop is still waiting when the
    list of receptions is exhausted. *)
Inductive round_end : Type :=
| Stopped
| Failed (err : error)
| Finished (generated : Z)
| DivisionByZero
| Running (generated : Z).

(** The label [done] of [refillPool]: the log line computes the average
    duration [elapsed / time.Duration(generated)], an integer division that
    panics when nothing was appended; then the pool is saved if [AutoSave]
    is set. *)
Definition refillPool_done (m : Manager) (generated : Z) (disk : fs.Disk)
    (now : Time) : round_end * Manager * fs.Disk :=
  if generated =? 0 then (DivisionByZero, m, disk)
  else
    let '(m', disk') :=
      if AutoSave (config m) then saveToDisk m disk now else (m, disk) in
    (Finished generated, m', disk').

(** The collecting loop, with [generated] bundles appended so far.  The
    goroutines it starts are returned last. *)
Fixpoint collector (events : list received) (m : Manager) (generated : Z)
    (disk : fs.Disk) (now : Time)
    : round_end * Manager * fs.Disk * list spawned :=
  match events with
  | [] => (Running generated, m, disk, [])
  | StopClosed :: _ => (Stopped, m, disk, [])
  | FromErrorCh (Some err) :: _ => (Failed err, m, disk, [])
  | FromErrorCh None :: events' => collector events' m generated disk now
  | FromParamsCh None :: _ => (refillPool_done m generated disk now, [])
  | FromParamsCh (Some preParamsData) :: events' =>
      if len (preParams m) <? MaxPoolSize (config m) then
        let m1 := with_preParams (preParams m ++ [preParamsData]) m in
        let generated := Int64.add generated 1 in
        let started := if AutoSave (config m1) then [GoSaveToDisk] else [] in
        let '(e, m2, disk2, started2) := collector events' m1 generated disk now in
        (e, m2, disk2, started ++ started2)
      else collector events' m generated disk now
  end.

(** [refillPool] once its workers are started: the collector runs, and the
    deferred function lowers [isGenerating] however the loop ends, unless
    it is still running. *)
Definition refillPool_collect (events : list received) (m : Manager)
    (disk : fs.Disk) (now : Time)
    : round_end * Manager * fs.Disk * list spawned :=
  let '(e, m', disk', started) := collector events m 0 disk now in
  match e with
  | Running _ => (e, m', disk', started)
  | _ => (e, refillPool_end m', disk', started)
  end.

End pool.

(** ** The pool as a Go slice

    [m.preParams] is a slice: a window on a backing array, given by the
    array, the offset of its first element, its length and its capacity.
    [s[:k]] and [s[k:]] are windows on the same array, and [append] writes
    in place when the capacity allows.  This module models the places of
    the code that slice or append to the pool at that level: the take of
    [GetPreParams], the append of each synchronously generated bundle to
    the result, the append of the collector, and the filter of
    [loadFromDisk]. *)

Module slices.

(** An element of a [[]*PreParamsData]: nil or a bundle. *)
Abbreviation cell := (option pool.PreParamsData).

(** The backing arrays, in the order of their allocation. *)
Abbreviation heap := (list (list cell)).

Record slice : Type := {
  arr : nat;
  off : nat;
  slen : nat;
  scap : nat;
}.

(** The elements that a slice shows. *)
Definition contents (h : heap) (s : slice) : list cell :=
  take (slen s) (drop (off s) (default [] (h !! arr s))).

(** [s[:k]]: the capacity still reaches the end of the array. *)
Definition upto (s : slice) (k : nat) : slice :=
  {| arr := arr s; off := off s; slen := k; scap := scap s |}.

(** [s[k:]]. *)
Definition from (s : slice) (k : nat) : slice :=
  {| arr := arr s; off := (off s + k)%nat; slen := (slen s - k)%nat;
     scap := (scap s - k)%nat |}.

(** [make([]*PreParamsData, 0, n)]. *)
Definition make (h : heap) (n : nat) : heap * slice :=
  (h ++ [replicate n None],
   {| arr := length h; off := 0%nat; slen := 0%nat; scap := n |}).

(** [append(s, x)].  With room left the element is written into the
    array of [s], just after its last element; otherwise a larger array is
    allocated and the elements are copied.  [grow] is the capacity that the
    runtime chooses for the new array, from the old one (at least one
    more than the length in any case). *)
Definition append (grow : nat -> nat) (h : heap) (s : slice) (x : cell)
    : heap * slice :=
  if (slen s <? scap s)%nat then
    (alter (fun a => <[(off s + slen s)%nat := x]> a) (arr s) h,
     {| arr := arr s; off := off s; slen := S (slen s); scap := scap s |})
  else
    let newcap := Nat.max (S (slen s)) (grow (scap s)) in
    (h ++ [contents h s ++ x :: replicate (newcap - S (slen s)) None],
     {| arr := length h; off := 0%nat; slen := S (slen s); scap := newcap |}).

(** The part of the manager that the slice operations read and write. *)
Record manager : Type := {
  store : heap;
  preParams : slice;
  config : pool.SimpleConfig;
  totalServed : Z;
}.

(** The first critical section of [GetPreParams], as
    [pool.GetPreParams_take] but on the slice: the result is a window on
    the array of the pool. *)
Definition GetPreParams_take (m : manager) (count : N)
    : list pool.spawned * Z * slice * manager :=
  let started :=
    if Z.of_nat (slen (preParams m)) <=? pool.RefillThreshold (config m)
    then [pool.GoRefillPool] else [] in
  let count := if (count =? 0)%N then 1%N else count in
  let '(h, result) := make (store m) (N.to_nat count) in
  let available := Z.of_nat (slen (preParams m)) in
  let '(result, rest) :=
    if 0 <? available then
      let take_ := Z.of_N count in
      let take_ := if available <? take_ then available else take_ in
      (upto (preParams m) (Z.to_nat take_), from (preParams m) (Z.to_nat take_))
    else (result, preParams m) in
  (started, Z.of_N count, result,
   {| store := h; preParams := rest; config := config m;
      totalServed := Int64.add (totalServed m) (Z.of_nat (slen result)) |}).

(** [result = append(result, params)] in the loop of [GetPreParams]. *)
Definition GetPreParams_append (grow : nat -> nat) (m : manager) (result : slice)
    (params : pool.PreParamsData) : slice * manager :=
  let '(h, result') := append grow (store m) result (Some params) in
  (result',
   {| store := h; preParams := preParams m; config := config m;
      totalServed := totalServed m |}).

(** The collector's critical section, as [pool.collect] but on the
    slice. *)
Definition collect (grow : nat -> nat) (m : manager)
    (preParamsData : pool.PreParamsData) : manager :=
  if Z.of_nat (slen (preParams m)) <? pool.MaxPoolSize (config m) then
    let '(h, s) := append grow (store m) (preParams m) (Some preParamsData) in
    {| store := h; preParams := s; config := config m;
       totalServed := totalServed m |}
  else m.


(** The body of the loop of [loadFromDisk]:
    [if param != nil && param.PaillierKey != nil] the entry is appended to
    [validParams]. *)
Definition keep (grow : nat -> nat) (st : heap * slice) (param : cell)
    : heap * slice :=
  match param with
  | Some p =>
      match pool.PaillierKey p with
      | Some _ => append grow st.1 st.2 (Some p)
      | None => st
      end
  | None => st
  end.

(** The filter of [loadFromDisk] on the decoded entries:
    [validParams := make([]*PreParamsData, 0, len(m.preParams))] and the
    loop over the entries. *)
Definition validParams (grow : nat -> nat) (h : heap) (params : list cell)
    : heap * slice :=
  foldl (keep grow) (make h (length params)) params.

(** A slice that lies within its array. *)
Definition within (h : heap) (s : slice) : Prop :=
  exists a, h !! arr s = Some a /\
            (off s + scap s <= length a)%nat /\ (slen s <= scap s)%nat.

End slices.

(** ** [m.totalGenerated++] among goroutines

    [generateSinglePreParams] increments [totalGenerated] without holding
    a lock, and it runs at once in the workers of a refill round and in
    the requests that generate.  The increment is a load of the field
    followed by a store of the value loaded plus one; the loads and the
    stores of the goroutines interleave. *)

Module race.

(** An access of goroutine [g] to the field. *)
Inductive access : Type :=
| Loads (g : nat)
| Stores (g : nat).

(** The field, the value that each goroutine holds between its load and
    its store, and the number of increments that were completed (the
    number of generations that the field is meant to count). *)
Record state : Type := {
  totalGenerated : Z;
  loaded : gmap nat Z;
  increments : nat;
}.

Definition init (start : Z) : state :=
  {| totalGenerated := start; loaded := ∅; increments := 0%nat |}.

(** A store of a goroutine that holds no value is not an access of the
    program and does nothing. *)
Definition step (s : state) (a : access) : state :=
  match a with
  | Loads g =>
      {| totalGenerated := totalGenerated s;
         loaded := <[g := totalGenerated s]> (loaded s);
         increments := increments s |}
  | Stores g =>
      match loaded s !! g with
      | Some v =>
          {| totalGenerated := Int64.add v 1;
             loaded := delete g (loaded s);
             increments := S (increments s) |}
      | None => s
      end
  end.

Definition exec (s : state) (schedule : list access) : state :=
  foldl step s schedule.

End race.

(** ** proto: the messages on the wire *)

Module pb.

Record PreParamsData : Type := {
  PaillierP : list Byte.byte;
  PaillierQ : list Byte.byte;
  PaillierN : list Byte.byte;
  PaillierPhiN : list Byte.byte;
  PaillierLambdaN : list Byte.byte;
  NTildei : list Byte.byte;
  H1I : list Byte.byte;
  H2I : list Byte.byte;
  Alpha : list Byte.byte;
  Beta : list Byte.byte;
  P : list Byte.byte;
  Q : list Byte.byte;
  GeneratedAt : Z;
}.

Record GetPreParamsResponse : Type := {
  Params : list PreParamsData;
  GenerationTimeMs : Z;
}.

Record PoolInfo : Type := {
  Bits : Z;
  SafePrime : bool;
  Available : Z;
  TargetSize : Z;
  Generating : Z;
  LastRefillTime : Z;
}.

(** [GenerationRate], a floating-point field that the server always sets
    to zero, is left out. *)
Record PoolStatus : Type := {
  Pools : gmap string PoolInfo;
  TotalGenerated : Z;
  TotalServed : Z;
}.

End pb.

(** ** internal/server *)

Module server.

(** The gRPC status codes the server uses. *)
Inductive code : Type :=
| InvalidArgument
| Internal.

Record Status : Type := {
  Code : code;
  Message : string;
}.

Record Server : Type := {
  poolManager : pool.Manager;
  startTime : Time;
}.

(** The conversion of one bundle to its wire form.  Every field is
    dereferenced ([x.Bytes()]), so a nil pointer anywhere makes the
    conversion panic: that is [None]. *)
Definition toWire (params : pool.PreParamsData) : option pb.PreParamsData :=
  key ← pool.PaillierKey params;
  paillierP ← paillier.P key;
  paillierQ ← paillier.Q key;
  paillierN ← paillier.N key;
  paillierPhiN ← paillier.PhiN key;
  paillierLambdaN ← paillier.LambdaN key;
  nTildei ← pool.NTildei params;
  h1i ← pool.H1i params;
  h2i ← pool.H2i params;
  alpha ← pool.Alpha params;
  beta ← pool.Beta params;
  p ← pool.P params;
  q ← pool.Q params;
  Some {| pb.PaillierP := big.Bytes paillierP;
          pb.PaillierQ := big.Bytes paillierQ;
          pb.PaillierN := big.Bytes paillierN;
          pb.PaillierPhiN := big.Bytes paillierPhiN;
          pb.PaillierLambdaN := big.Bytes paillierLambdaN;
          pb.NTildei := big.Bytes nTildei;
          pb.H1I := big.Bytes h1i;
          pb.H2I := big.Bytes h2i;
          pb.Alpha := big.Bytes alpha;
          pb.Beta := big.Bytes beta;
          pb.P := big.Bytes p;
          pb.Q := big.Bytes q;
          pb.GeneratedAt := time.Unix_of (pool.GeneratedAt params) |}.

(** How a handler ends: it returns a response and an error (one of them
    nil), or it panics. *)
Inductive outcome : Type :=
| Returned (resp : option pb.GetPreParamsResponse) (err : option Status)
| Panicked.

(** [GetPreParams] for a request carrying [reqCount]; [elapsed] is what
    [time.Since(start)] reads when the response is built. *)
Definition GetPreParams (s : Server) (reqCount : N) (elapsed : Duration)
    : outcome * Server * list pool.spawned :=
  let count := reqCount in
  let count := if (count =? 0)%N then 1%N else count in
  if (100 <? count)%N then
    (Returned None
       (Some {| Code := InvalidArgument;
                Message := "count must be between 1 and 100" |}),
     s, [])
  else
    let '((paramsList, err), m, started) :=
      pool.GetPreParams (poolManager s) count in
    let s' := {| poolManager := m; startTime := startTime s |} in
    match err with
    | Some err =>
        (Returned None
           (Some {| Code := Internal;
                    Message := ("failed to get pre-params: " +:+ err)%string |}),
         s', started)
    | None =>
        match mapM toWire (default [] paramsList) with
        | None => (Panicked, s', started)
        | Some pbParams =>
            (Returned
               (Some {| pb.Params := pbParams;
                        pb.GenerationTimeMs := time.Milliseconds elapsed |})
               None,
             s', started)
        end
    end.

(** [NewServer] at instant [now]. *)
Definition NewServer (poolManager : pool.Manager) (now : Time) : Server :=
  {| poolManager := poolManager; startTime := now |}.

(** [GetPoolStatus]: every value is read from the manager's status map
    through a type assertion, with a default when the assertion fails. *)
Definition GetPoolStatus (s : Server) : pb.PoolStatus :=
  let status := pool.GetPoolStatus (poolManager s) in
  let poolSize :=
    match dyn.as_int (status !! "pool_size"%string) with
    | Some v => dyn.uint32 v
    | None => 0
    end in
  let minSize :=
    match dyn.as_int (status !! "min_size"%string) with
    | Some v => dyn.uint32 v
    | None => 10
    end in
  let isGenerating :=
    match dyn.as_bool (status !! "is_generating"%string) with
    | Some v => v
    | None => false
    end in
  let generatingCount := if isGenerating then 1 else 0 in
  let pools : gmap string pb.PoolInfo :=
    <["1024_true"%string :=
        {| pb.Bits := 1024;
           pb.SafePrime := true;
           pb.Available := poolSize;
           pb.TargetSize := minSize;
           pb.Generating := generatingCount;
           pb.LastRefillTime := 0 |}]> ∅ in
  let totalGenerated :=
    match dyn.as_int64 (status !! "total_generated"%string) with
    | Some v => v
    | None => 0
    end in
  let totalServed :=
    match dyn.as_int64 (status !! "total_served"%string) with
    | Some v => v
    | None => 0
    end in
  {| pb.Pools := pools;
     pb.TotalGenerated := totalGenerated;
     pb.TotalServed := totalServed |}.

End server.

(** ** client *)

Module client.

Record PreParamsData : Type := {
  PaillierKey : option paillier.PrivateKey;
  NTildei : option Z;
  H1i : option Z;
  H2i : option Z;
  Alpha : option Z;
  Beta : option Z;
  P : option Z;
  Q : option Z;
  GeneratedAt : Time;
}.

(** The conversion of one wire bundle: every pointer is freshly allocated. *)
Definition fromWire (params : pb.PreParamsData) : PreParamsData :=
  {| PaillierKey :=
       Some {| paillier.N := Some (big.SetBytes (pb.PaillierN params));
               paillier.LambdaN := Some (big.SetBytes (pb.PaillierLambdaN params));
               paillier.PhiN := Some (big.SetBytes (pb.PaillierPhiN params));
               paillier.P := Some (big.SetBytes (pb.PaillierP params));
               paillier.Q := Some (big.SetBytes (pb.PaillierQ params)) |};
     NTildei := Some (big.SetBytes (pb.NTildei params));
     H1i := Some (big.SetBytes (pb.H1I params));
     H2i := Some (big.SetBytes (pb.H2I params));
     Alpha := Some (big.SetBytes (pb.Alpha params));
     Beta := Some (big.SetBytes (pb.Beta params));
     P := Some (big.SetBytes (pb.P params));
     Q := Some (big.SetBytes (pb.Q params));
     GeneratedAt := time.Unix (pb.GeneratedAt params) |}.

(** [GetPreParams]: [rpc] is the remote call [c.client.GetPreParams], which
    yields a response or an error. *)
Definition GetPreParams (rpc : N -> pb.GetPreParamsResponse + error) (count : N)
    : option (list PreParamsData) * option error :=
  let count := if (count =? 0)%N then 1%N else count in
  match rpc count with
  | inr err => (None, Some (wrapf "failed to get pre-params" err))
  | inl resp =>
      if len (pb.Params resp) =? 0 then
        (None, Some "no parameters returned from service"%string)
      else (Some (fromWire <$> pb.Params resp), None)
  end.

End client.

(** ** cmd/server/main.go: the configuration of the launcher *)

Module main.

(** The [Pool] part of [Config], with the server address;
    [RefillInterval] is in seconds. *)
Record Config : Type := {
  Address : string;
  MinPoolSize : Z;
  MaxPoolSize : Z;
  RefillThreshold : Z;
  PrimeBitSize : Z;
  MaxConcurrent : Z;
  PoolDir : string;
  AutoSave : bool;
  BackgroundGen : bool;
  RefillInterval : Z;
}.

(** [loadConfig] after the file has been decoded into [config]: defaults
    for the fields the file left at their zero value. *)
Definition loadConfig_defaults (config : Config) : Config :=
  {| Address := if String.eqb (Address config) "" then ":50055"%string
                else Address config;
     MinPoolSize := if MinPoolSize config =? 0 then 10 else MinPoolSize config;
     MaxPoolSize := if MaxPoolSize config =? 0 then 20 else MaxPoolSize config;
     RefillThreshold :=
       if RefillThreshold config =? 0 then 5 else RefillThreshold config;
     PrimeBitSize := if PrimeBitSize config =? 0 then 1024 else PrimeBitSize config;
     MaxConcurrent := if MaxConcurrent config =? 0 then 2 else MaxConcurrent config;
     PoolDir := if String.eqb (PoolDir config) "" then "./prime_pool"%string
                else PoolDir config;
     AutoSave := AutoSave config;
     BackgroundGen := BackgroundGen config;
     RefillInterval := if RefillInterval config =? 0 then 30 else RefillInterval config |}.

(** [loadConfig]: [decoded] is the configuration file decoded into a
    zero-valued [Config], or [None] when the file cannot be opened or
    decoded. *)
Definition loadConfig (decoded : option Config) : option Config :=
  loadConfig_defaults <$> decoded.

(** The configuration [main] falls back to when [loadConfig] fails. *)
Definition fallback : Config :=
  {| Address := ":50055";
     MinPoolSize := 10;
     MaxPoolSize := 20;
     RefillThreshold := 5;
     PrimeBitSize := 1024;
     MaxConcurrent := 2;
     PoolDir := "./prime_pool";
     AutoSave := true;
     BackgroundGen := true;
     RefillInterval := 30 |}.

(** The [pool.SimpleConfig] that [main] builds; [PaillierBitSize] is not
    set and keeps its zero value. *)
Definition simpleConfig (config : Config) : pool.SimpleConfig :=
  {| pool.MinPoolSize := MinPoolSize config;
     pool.MaxPoolSize := MaxPoolSize config;
     pool.RefillThreshold := RefillThreshold config;
     pool.PrimeBitSize := PrimeBitSize config;
     pool.PaillierBitSize := 0;
     pool.MaxConcurrent := MaxConcurrent config;
     pool.PoolDir := PoolDir config;
     pool.AutoSave := AutoSave config;
     pool.BackgroundGen := BackgroundGen config;
     pool.RefillInterval := Int64.mul (RefillInterval config) time.Second |}.

(** The manager that [main] constructs. *)
Definition poolManager (decoded : option Config) (gen : generator.Generator)
    (disk : fs.Disk) (now : Time) : pool.Manager :=
  let config := default fallback (loadConfig decoded) in
  pool.NewManager gen (simpleConfig config) disk now.

End main.

(** ** Concrete bundles, generators and pools used as test data *)

Module sample.

Definition key (i : Z) : paillier.PrivateKey :=
  {| paillier.N := Some i; paillier.LambdaN := Some 30;
     paillier.PhiN := Some 60; paillier.P := Some 7; paillier.Q := Some 11 |}.

(** The [i]-th deterministic bundle of a stubbed library. *)
Definition generated (i : Z) : generator.PreParamsData :=
  {| generator.PaillierKey := Some (key i);
     generator.NTildei := Some i;
     generator.H1i := Some 4;
     generator.H2i := Some 16;
     generator.Alpha := Some 2;
     generator.Beta := Some 3;
     generator.P := Some 5;
     generator.Q := Some 23;
     generator.GeneratedAt := i |}.

(** The same bundle as the pool holds it. *)
Definition B (i : Z) : pool.PreParamsData :=
  {| pool.PaillierKey := Some (key i);
     pool.NTildei := Some i;
     pool.H1i := Some 4;
     pool.H2i := Some 16;
     pool.Alpha := Some 2;
     pool.Beta := Some 3;
     pool.P := Some 5;
     pool.Q := Some 23;
     pool.GeneratedAt := i |}.

(** A library whose [k]-th run yields bundle [first + k]. *)
Definition working (first : Z) : nat -> generator.run :=
  fun k => generator.Completed (generated (first + Z.of_nat k)).

(** A library that always fails to produce a Paillier key. *)
Definition broken : nat -> generator.run :=
  fun _ => generator.PaillierFailed "timeout".

(** A library that completes [n] runs and fails from then on. *)
Definition failing_after (n : nat) (first : Z) : nat -> generator.run :=
  fun k => if (k <? n)%nat then working first k else broken k.

Definition cfg (min max threshold : Z) : pool.SimpleConfig :=
  {| pool.MinPoolSize := min; pool.MaxPoolSize := max;
     pool.RefillThreshold := threshold;
     pool.PrimeBitSize := 1024; pool.PaillierBitSize := 2048;
     pool.MaxConcurrent := 2; pool.PoolDir := "./prime_pool";
     pool.AutoSave := true; pool.BackgroundGen := true;
     pool.RefillInterval := 30 * time.Second |}.

(** The zero value of [pool.SimpleConfig]. *)
Definition zeroConfig : pool.SimpleConfig :=
  {| pool.MinPoolSize := 0; pool.MaxPoolSize := 0; pool.RefillThreshold := 0;
     pool.PrimeBitSize := 0; pool.PaillierBitSize := 0; pool.MaxConcurrent := 0;
     pool.PoolDir := ""; pool.AutoSave := false; pool.BackgroundGen := false;
     pool.RefillInterval := 0 |}.

(** The zero value of [main.Config]: a configuration file that sets
    nothing. *)
Definition emptyFile : main.Config :=
  {| main.Address := ""; main.MinPoolSize := 0; main.MaxPoolSize := 0;
     main.RefillThreshold := 0; main.PrimeBitSize := 0; main.MaxConcurrent := 0;
     main.PoolDir := ""; main.AutoSave := false; main.BackgroundGen := false;
     main.RefillInterval := 0 |}.

(** A manager over configuration [c] holding [items], with fresh counters,
    driving library [lib]. *)
Definition manager (c : pool.SimpleConfig) (lib : nat -> generator.run)
    (items : list pool.PreParamsData) : pool.Manager :=
  {| pool.config := c;
     pool.generator := generator.NewGenerator lib;
     pool.preParams := items;
     pool.stopCh := false;
     pool.isGenerating := false;
     pool.isSaving := false;
     pool.poolFilePath := fs.Join (pool.PoolDir c) "prime_pool.json";
     pool.startTime := 0;
     pool.totalGenerated := 0;
     pool.totalServed := 0 |}.

Definition emptyDisk : fs.Disk := {| fs.files := ∅; fs.on_write := fs.Completes |}.

(** A disk whose pool file is document [doc]. *)
Definition diskWith (doc : json.value) : fs.Disk :=
  {| fs.files := {[ "./prime_pool/prime_pool.json"%string := fs.Document doc ]};
     fs.on_write := fs.Completes |}.

(** Bundle [i] as [saveToDisk] writes it, without its [n_tildei] key. *)
Definition entryWithoutNTildei (i : Z) : json.value :=
  json.Obj (list_to_map
    [ ("paillier_key"%string, pool.marshal_PrivateKey (Some (key i)));
      ("h1i"%string, json.Int 4);
      ("h2i"%string, json.Int 16);
      ("alpha"%string, json.Int 2);
      ("beta"%string, json.Int 3);
      ("p"%string, json.Int 5);
      ("q"%string, json.Int 23);
      ("generated_at"%string, json.Timestamp i) ]).

(** Bundle [i] as [saveToDisk] writes it, without its [paillier_key]. *)
Definition entryWithoutPaillierKey (i : Z) : json.value :=
  json.Obj (list_to_map
    [ ("n_tildei"%string, json.Int i);
      ("h1i"%string, json.Int 4);
      ("h2i"%string, json.Int 16);
      ("alpha"%string, json.Int 2);
      ("beta"%string, json.Int 3);
      ("p"%string, json.Int 5);
      ("q"%string, json.Int 23);
      ("generated_at"%string, json.Timestamp i) ]).

(** Bundle [i] with a string where the number [n_tildei] should be. *)
Definition entryWithBadNTildei (i : Z) : json.value :=
  json.Obj (list_to_map
    [ ("paillier_key"%string, pool.marshal_PrivateKey (Some (key i)));
      ("n_tildei"%string, json.Str "not a number");
      ("generated_at"%string, json.Timestamp i) ]).

(** A pool file with the given entries. *)
Definition poolFile (entries : list json.value) : json.value :=
  json.Obj (list_to_map
    [ ("pre_params"%string, json.Arr entries);
      ("saved_at"%string, json.Timestamp 100);
      ("config"%string, pool.marshal_SimpleConfig (cfg 10 20 5)) ]).

End sample.

(** ** Vocabulary of the specification *)

(** [count] after the default that both the server and the manager apply. *)
Definition normalized (count : N) : N := if (count =? 0)%N then 1%N else count.

(** Whether run [k] of the library completes. *)
Definition completes (lib : nat -> generator.run) (k : nat) : bool :=
  match lib k with
  | generator.Completed _ => true
  | _ => false
  end.

(** Number of runs among [lib from], ..., [lib (from + n - 1)] that
    completed: the successful returns of the generator over these runs. *)
Fixpoint completed (lib : nat -> generator.run) (from n : nat) : nat :=
  match n with
  | O => O
  | S n' => ((if completes lib from then 1 else 0) + completed lib (S from) n')%nat
  end.

(** What a call leaves alone when it only drives the generator. *)
Definition only_generates (m m' : pool.Manager) : Prop :=
  pool.config m' = pool.config m /\
  pool.preParams m' = pool.preParams m /\
  pool.totalServed m' = pool.totalServed m /\
  generator.library (pool.generator m') = generator.library (pool.generator m).

(** The bundles a caller received: the length of the returned slice when
    the call returned no error, nothing otherwise. *)
Definition returned_to_caller (r : option (list pool.PreParamsData) * option error) : Z :=
  match r with
  | (Some result, None) => len result
  | _ => 0
  end.

(** An entry of a decoded pool file that is not nil and has a Paillier
    key. *)
Definition with_key (entry : option pool.PreParamsData) : option pool.PreParamsData :=
  p ← entry; _ ← pool.PaillierKey p; Some p.

(** The configuration's integer fields are values of Go's [int] and
    [int64]. *)
Definition representable (c : pool.SimpleConfig) : Prop :=
  Int64.in_range (pool.MinPoolSize c) /\
  Int64.in_range (pool.MaxPoolSize c) /\
  Int64.in_range (pool.RefillThreshold c) /\
  Int64.in_range (pool.PrimeBitSize c) /\
  Int64.in_range (pool.PaillierBitSize c) /\
  Int64.in_range (pool.MaxConcurrent c) /\
  Int64.in_range (pool.RefillInterval c).

(** *** Traces

    The steps of the pool that can interleave: a request served by
    [GetPreParams], one iteration of a refill worker (which may put a bundle
    on the channel [paramsCh]), and the collector's handling of the next
    bundle on the channel.

    A step runs as a unit.  That is how the code treats the pool and
    [totalServed], which it reads and writes under [m.mu], and the
    generator's counter, which it updates under [g.mu]: what a trace says
    of them holds however the goroutines interleave.  It is not how the
    code treats [totalGenerated], which [generateSinglePreParams]
    increments outside any lock (increments that overlap may be lost, see
    [race]), nor the array behind the result of a request (see
    [slices]): what a trace says of those holds for steps that do not
    overlap. *)
Inductive step : Type :=
| Request (count : N)
| Produce
| Deposit.

Record system : Type := {
  manager : pool.Manager;
  paramsCh : list pool.PreParamsData;
}.

(** What a request shows: what the caller got, and how many bundles the
    call removed from the pool. *)
Record answer : Type := {
  reply : option (list pool.PreParamsData) * option error;
  taken : Z;
}.

Definition exec_step (st : system) (s : step) : system * list answer :=
  match s with
  | Request count =>
      let '(r, m', _) := pool.GetPreParams (manager st) count in
      ({| manager := m'; paramsCh := paramsCh st |},
       [{| reply := r;
           taken := len (pool.preParams (manager st)) - len (pool.preParams m') |}])
  | Produce =>
      match pool.worker_iteration (manager st) with
      | (pool.WorkerSends params, m') =>
          ({| manager := m'; paramsCh := paramsCh st ++ [params] |}, [])
      | (_, m') => ({| manager := m'; paramsCh := paramsCh st |}, [])
      end
  | Deposit =>
      match paramsCh st with
      | [] => (st, [])
      | params :: rest =>
          ({| manager := (pool.collect (manager st) params).1; paramsCh := rest |}, [])
      end
  end.

Fixpoint exec (st : system) (steps : list step) : system * list answer :=
  match steps with
  | [] => (st, [])
  | s :: steps' =>
      let '(st1, answers1) := exec_step st s in
      let '(st2, answers2) := exec st1 steps' in
      (st2, answers1 ++ answers2)
  end.

(** The requests of a trace carry counts of type [uint32]. *)
Definition well_typed (s : step) : Prop :=
  match s with
  | Request count => (count < 2 ^ 32)%N
  | _ => True
  end.

(** What [totalServed] accounts for in one answer: the bundles returned
    when the call succeeded, the bundles taken from the pool (and dropped)
    when it failed. *)
Definition accounted (a : answer) : Z :=
  match reply a with
  | (Some result, None) => len result
  | _ => taken a
  end.

Definition total (l : list Z) : Z := foldr Z.add 0 l.



(** *** Vocabulary of the further properties *)

(** The value of a little-endian sequence of base-256 digits. *)
Definition value_le (ds : list Byte.byte) : Z :=
  foldr (fun b acc => big.Z_of_byte b + 256 * acc) 0 ds.

(** A bundle of the generator as the pool holds it (the field-by-field copy
    of [generateSinglePreParams]). *)
Definition pooled (params : generator.PreParamsData) : pool.PreParamsData :=
  {| pool.PaillierKey := generator.PaillierKey params;
     pool.NTildei := generator.NTildei params;
     pool.H1i := generator.H1i params;
     pool.H2i := generator.H2i params;
     pool.Alpha := generator.Alpha params;
     pool.Beta := generator.Beta params;
     pool.P := generator.P params;
     pool.Q := generator.Q params;
     pool.GeneratedAt := generator.GeneratedAt params |}.

(** The bundles of the completed runs among [lib from], ...,
    [lib (from + n - 1)], in order. *)
Fixpoint drawn (lib : nat -> generator.run) (from n : nat) : list pool.PreParamsData :=
  match n with
  | O => []
  | S n' =>
      match lib from with
      | generator.Completed params => pooled params :: drawn lib (S from) n'
      | _ => drawn lib (S from) n'
      end
  end.

(** A bundle with no nil pointer: its Paillier key and all its numbers are
    present. *)
Definition complete_key (k : paillier.PrivateKey) : Prop :=
  is_Some (paillier.N k) /\ is_Some (paillier.LambdaN k) /\
  is_Some (paillier.PhiN k) /\ is_Some (paillier.P k) /\ is_Some (paillier.Q k).

Definition complete (p : pool.PreParamsData) : Prop :=
  (exists k, pool.PaillierKey p = Some k /\ complete_key k) /\
  is_Some (pool.NTildei p) /\ is_Some (pool.H1i p) /\ is_Some (pool.H2i p) /\
  is_Some (pool.Alpha p) /\ is_Some (pool.Beta p) /\
  is_Some (pool.P p) /\ is_Some (pool.Q p).

(** [n] rounds of a worker iteration followed by the collector's
    handling of what the worker sent. *)
Fixpoint produce_and_deposit (n : nat) : list step :=
  match n with
  | O => []
  | S n' => Produce :: Deposit :: produce_and_deposit n'
  end.

(** The error that [GeneratePreParams] returns for a failed run of the
    library (the empty message stands for a run that completed). *)
Definition run_error (r : generator.run) : error :=
  match r with
  | generator.PaillierFailed err => wrapf "failed to generate Paillier key" err
  | generator.SafePrimesFailed err => wrapf "failed to generate safe primes" err
  | generator.Completed _ => ""%string
  end.

(** A pool file that cannot be used: absent, unreadable, not JSON, or JSON
    that does not decode into the expected structure. *)
Definition unusable (f : option fs.file) : Prop :=
  match f with
  | None | Some fs.Unreadable | Some fs.Malformed => True
  | Some (fs.Document doc) => pool.unmarshal_poolData doc = None
  end.

(** The bundles that a list of receptions delivers on [paramsCh]. *)
Definition delivered (events : list pool.received) : list pool.PreParamsData :=
  omap (fun e => match e with
                 | pool.FromParamsCh (Some p) => Some p
                 | _ => None
                 end) events.


(** The generator's statistics counter against the number of runs made. *)
Definition drift (m : pool.Manager) : Z :=
  Int64.wrap (generator.generationCount (pool.generator m)
              - Z.of_nat (generator.runs (pool.generator m))).

(** *** Schedules of a request with a shortfall and a deposit

    After its take, a request appends the bundle [G] that it generated to
    its result, while the collector deposits the bundle [R] of a refill
    worker; the two appends happen in one order or the other.  Both
    schedules return the result slice and the manager. *)
Definition deposit_then_append (grow : nat -> nat) (m : slices.manager)
    (count : N) (R G : pool.PreParamsData) : slices.slice * slices.manager :=
  let '(_, _, result, m1) := slices.GetPreParams_take m count in
  slices.GetPreParams_append grow (slices.collect grow m1 R) result G.

Definition append_then_deposit (grow : nat -> nat) (m : slices.manager)
    (count : N) (R G : pool.PreParamsData) : slices.slice * slices.manager :=
  let '(_, _, result, m1) := slices.GetPreParams_take m count in
  let '(result', m2) := slices.GetPreParams_append grow m1 result G in
  (result', slices.collect grow m2 R).

(** A slice-level manager and a list-level manager that hold the same
    pool, configuration and counter. *)
Definition represents (m : slices.manager) (lm : pool.Manager) : Prop :=
  slices.within (slices.store m) (slices.preParams m) /\
  slices.contents (slices.store m) (slices.preParams m) = Some <$> pool.preParams lm /\
  slices.config m = pool.config lm /\
  slices.totalServed m = pool.totalServed lm.


(** * Properties *)

(** ** Machine integers *)

Lemma wrap_in_range (z : Z) : Int64.in_range z -> Int64.wrap z = z.
Proof.
  unfold Int64.in_range, Int64.wrap, Int64.min_int, Int64.max_int.
  intros H. rewrite Z.mod_small; lia.
Qed.

Lemma wrap_is_in_range (z : Z) : Int64.in_range (Int64.wrap z).
Proof.
  unfold Int64.in_range, Int64.wrap, Int64.min_int, Int64.max_int.
  pose proof (Z.mod_pos_bound (z + 2 ^ 63) (2 ^ 64)). lia.
Qed.

Lemma add_in_range (a b : Z) : Int64.in_range (a + b) -> Int64.add a b = a + b.
Proof. apply wrap_in_range. Qed.

Lemma sub_in_range (a b : Z) : Int64.in_range (a - b) -> Int64.sub a b = a - b.
Proof. apply wrap_in_range. Qed.

Lemma len_nonneg {A : Type} (s : list A) : 0 <= len s.
Proof. unfold len. lia. Qed.

Lemma len_app {A : Type} (s t : list A) : len (s ++ t) = len s + len t.
Proof. unfold len. rewrite length_app. lia. Qed.

(** ** The take of [GetPreParams] *)

Lemma normalized_pos (count : N) : (1 <= normalized count)%N.
Proof. unfold normalized. destruct (N.eqb_spec count 0); lia. Qed.

Lemma normalized_idem (count : N) : normalized (normalized count) = normalized count.
Proof. unfold normalized. destruct (N.eqb_spec count 0); [reflexivity|]. 
  destruct (N.eqb_spec count 0); [lia|reflexivity]. Qed.

(** The critical section in closed form: with [k] the smaller of the
    normalized count and the depth, it takes the first [k] bundles. *)
Lemma GetPreParams_take_eq (m : pool.Manager) (count : N) :
  let k := Nat.min (N.to_nat (normalized count)) (length (pool.preParams m)) in
  pool.GetPreParams_take m count =
    (if len (pool.preParams m) <=? pool.RefillThreshold (pool.config m)
     then [pool.GoRefillPool] else [],
     Z.of_N (normalized count),
     take k (pool.preParams m),
     pool.with_totalServed (Int64.add (pool.totalServed m) (Z.of_nat k))
       (pool.with_preParams (drop k (pool.preParams m)) m)).
Proof.
  intros k. unfold pool.GetPreParams_take. fold (normalized count).
  pose proof (normalized_pos count) as Hpos.
  set (c := normalized count) in *.
  set (items := pool.preParams m) in *.
  assert (Hk : k = Nat.min (N.to_nat c) (length items)) by reflexivity.
  clearbody k. unfold len.
  destruct (Z.ltb_spec 0 (Z.of_nat (length items))) as [Hne | He].
  - destruct (Z.ltb_spec (Z.of_nat (length items)) (Z.of_N c)) as [Hlt | Hge].
    + rewrite Nat2Z.id. assert (k = length items) as -> by lia.
      rewrite length_take. cbn. repeat f_equal; lia.
    + rewrite <- Z_N_nat, N2Z.id. assert (k = N.to_nat c) as -> by lia.
      rewrite length_take. cbn. repeat f_equal; lia.
  - assert (length items = 0%nat) as Hz by lia.
    assert (k = 0%nat) as -> by lia.
    destruct items; [|discriminate]. reflexivity.
Qed.

(** C2.  For every pool state and every [n >= 1], the pool portion of
    [GetPreParams] removes exactly [min n depth] bundles from the front of
    the pool and returns them in pool order, oldest first (the pool before
    the call is the returned bundles followed by the pool after it), and
    [totalServed] grows by that number: by [int64] addition in general,
    exactly when the sum is representable. *)
Theorem take_is_fifo (m m' : pool.Manager) (n : N) (started : list pool.spawned)
    (count : Z) (result : list pool.PreParamsData) :
  (1 <= n)%N ->
  pool.GetPreParams_take m n = (started, count, result, m') ->
  let k := Nat.min (N.to_nat n) (length (pool.preParams m)) in
  length result = k /\
  result = take k (pool.preParams m) /\
  pool.preParams m' = drop k (pool.preParams m) /\
  pool.preParams m = result ++ pool.preParams m' /\
  pool.totalServed m' = Int64.add (pool.totalServed m) (Z.of_nat k) /\
  (Int64.in_range (pool.totalServed m + Z.of_nat k) ->
   pool.totalServed m' = pool.totalServed m + Z.of_nat k).
Proof.
  intros Hn Hrun k.
  rewrite GetPreParams_take_eq in Hrun.
  assert (normalized n = n) as Hnorm.
  { unfold normalized. destruct (N.eqb_spec n 0); [lia | reflexivity]. }
  rewrite Hnorm in Hrun. fold k in Hrun.
  injection Hrun as _ _ <- <-. cbn.
  split; [rewrite length_take; lia|].
  split; [reflexivity|].
  split; [reflexivity|].
  split; [symmetry; apply take_drop|].
  split; [reflexivity|].
  apply add_in_range.
Qed.

(** C2 at a pool of three bundles and a request for two. *)
Lemma take_is_fifo_witness :
  exists started count result m',
    pool.GetPreParams_take
      (sample.manager (sample.cfg 2 4 1) (sample.working 10)
         [sample.B 1; sample.B 2; sample.B 3]) 2
    = (started, count, result, m') /\
    result = [sample.B 1; sample.B 2] /\
    pool.preParams m' = [sample.B 3] /\
    pool.totalServed m' = 2.
Proof.
  do 4 eexists. split; [reflexivity|].
  edestruct (take_is_fifo
               (sample.manager (sample.cfg 2 4 1) (sample.working 10)
                  [sample.B 1; sample.B 2; sample.B 3]))
    as (_ & Hres & Hrest & _ & _ & Hserved); [| reflexivity |].
  - instantiate (1 := 2%N). lia.
  - split; [exact Hres|]. split; [exact Hrest|].
    apply Hserved. vm_compute. split; discriminate.
Defined.

(** ** Synchronous generation *)

Lemma wrap_wrap_add (a b : Z) : Int64.wrap (Int64.wrap a + b) = Int64.wrap (a + b).
Proof.
  unfold Int64.wrap. f_equal.
  replace ((a + 2 ^ 63) mod 2 ^ 64 - 2 ^ 63 + b + 2 ^ 63)
    with ((a + 2 ^ 63) mod 2 ^ 64 + b) by lia.
  rewrite Zplus_mod_idemp_l. f_equal. lia.
Qed.

Lemma only_generates_refl (m : pool.Manager) : only_generates m m.
Proof. repeat split. Qed.

Lemma only_generates_trans (m1 m2 m3 : pool.Manager) :
  only_generates m1 m2 -> only_generates m2 m3 -> only_generates m1 m3.
Proof.
  unfold only_generates. intros (? & ? & ? & ?) (? & ? & ? & ?).
  repeat split; congruence.
Qed.

(** One generation: it consumes one run of the library; a completed run
    yields a bundle and is counted, a failed one is not. *)
Lemma generateSinglePreParams_inv (m m' : pool.Manager)
    (r : pool.PreParamsData + error) :
  pool.generateSinglePreParams m = (r, m') ->
  only_generates m m' /\
  generator.runs (pool.generator m') = S (generator.runs (pool.generator m)) /\
  match r with
  | inl _ =>
      completes (generator.library (pool.generator m))
        (generator.runs (pool.generator m)) = true /\
      pool.totalGenerated m' = Int64.add (pool.totalGenerated m) 1
  | inr _ =>
      completes (generator.library (pool.generator m))
        (generator.runs (pool.generator m)) = false /\
      pool.totalGenerated m' = pool.totalGenerated m
  end.
Proof.
  unfold pool.generateSinglePreParams, generator.GeneratePreParams, completes.
  destruct (generator.library (pool.generator m) (generator.runs (pool.generator m)));
    intros [= <- <-]; cbn; repeat split.
Qed.

(** The loop of [GetPreParams]: it stops at the first run that fails.
    [j] is the number of runs it consumed. *)
Lemma GetPreParams_generate_inv (n : nat) :
  forall (m m' : pool.Manager) (result : list pool.PreParamsData)
         (r : list pool.PreParamsData + error),
  pool.GetPreParams_generate n m result = (r, m') ->
  let lib := generator.library (pool.generator m) in
  let from := generator.runs (pool.generator m) in
  only_generates m m' /\
  exists j : nat,
    generator.runs (pool.generator m') = (from + j)%nat /\
    Int64.wrap (pool.totalGenerated m')
      = Int64.wrap (pool.totalGenerated m + Z.of_nat (completed lib from j)) /\
    match r with
    | inl result' =>
        j = n /\ completed lib from n = n /\
        exists new, result' = result ++ new /\ length new = n
    | inr _ =>
        (j <= n)%nat /\ completed lib from j = Nat.pred j /\ (0 < j)%nat /\
        completes lib (from + Nat.pred j) = false
    end.
Proof.
  induction n as [|n IH]; intros m m' result r; cbn [pool.GetPreParams_generate].
  - intros [= <- <-]. split; [apply only_generates_refl|].
    exists 0%nat. cbn. rewrite Nat.add_0_r, Z.add_0_r.
    repeat split. exists []. by rewrite app_nil_r.
  - destruct (pool.generateSinglePreParams m) as [[params|err] m1] eqn:Hone;
      apply generateSinglePreParams_inv in Hone as (Hfr & Hruns & Hc & Htot).
    + intros Hloop. apply IH in Hloop as (Hfr' & j & Hj & Hgen & Hr).
      split; [eapply only_generates_trans; eassumption|].
      destruct Hfr as (_ & _ & _ & Hlib). rewrite Hlib, Hruns in *.
      exists (S j). cbn [completed]. rewrite Hc.
      split; [lia|]. split.
      { rewrite Hgen, Htot. unfold Int64.add. rewrite wrap_wrap_add. f_equal. lia. }
      destruct r as [result'|err].
      * destruct Hr as (-> & Hall & new & -> & Hlen).
        split; [reflexivity|]. split; [lia|].
        exists (params :: new). rewrite <- app_assoc. cbn. split; [reflexivity | lia].
      * destruct Hr as (Hle & Hcnt & Hpos & Hfail).
        split; [lia|]. split; [lia|]. split; [lia|].
        replace (generator.runs (pool.generator m) + Nat.pred (S j))%nat
          with (S (generator.runs (pool.generator m)) + Nat.pred j)%nat by lia.
        exact Hfail.
    + intros [= <- <-]. split; [exact Hfr|].
      exists 1%nat. cbn [completed Nat.pred]. rewrite Hc, Htot, Nat.add_0_r.
      cbn. rewrite Z.add_0_r.
      split; [lia|]. split; [reflexivity|].
      split; [lia|]. split; [reflexivity|]. split; [lia|].
      by rewrite Nat.add_0_r.
Qed.

Lemma completed_le (lib : nat -> generator.run) (n from : nat) :
  (completed lib from n <= n)%nat.
Proof.
  revert from. induction n as [|n IH]; intros from; cbn; [lia|].
  specialize (IH (S from)). destruct (completes lib from); lia.
Qed.

(** All of [n] runs complete exactly when none of them fails. *)
Lemma completed_all (lib : nat -> generator.run) (n from : nat) :
  completed lib from n = n <->
  forall i, (i < n)%nat -> completes lib (from + i) = true.
Proof.
  revert from. induction n as [|n IH]; intros from; cbn.
  - split; [intros _ i; lia | reflexivity].
  - pose proof (completed_le lib n (S from)) as Hle.
    destruct (completes lib from) eqn:Hc.
    + split.
      * intros H i Hi. destruct i as [|i].
        -- by rewrite Nat.add_0_r.
        -- replace (from + S i)%nat with (S from + i)%nat by lia.
           apply IH; lia.
      * intros H. f_equal. apply IH. intros i Hi.
        replace (S from + i)%nat with (from + S i)%nat by lia. apply H. lia.
    + split; [lia|]. intros H. specialize (H 0%nat ltac:(lia)).
      rewrite Nat.add_0_r in H. congruence.
Qed.

(** If one of the runs that the loop would make fails, the loop fails. *)
Lemma GetPreParams_generate_fails (n i : nat) (m : pool.Manager)
    (result : list pool.PreParamsData) :
  (i < n)%nat ->
  completes (generator.library (pool.generator m))
    (generator.runs (pool.generator m) + i) = false ->
  exists err m',
    pool.GetPreParams_generate n m result = (inr err, m') /\ only_generates m m'.
Proof.
  intros Hi Hfail.
  destruct (pool.GetPreParams_generate n m result) as [[result'|err] m'] eqn:Hloop;
    apply GetPreParams_generate_inv in Hloop as (Hfr & j & _ & _ & Hr).
  - destruct Hr as (_ & Hall & _).
    rewrite completed_all in Hall. specialize (Hall i Hi). congruence.
  - eauto.
Qed.

(** If every run that the loop makes completes, the loop succeeds. *)
Lemma GetPreParams_generate_succeeds (n : nat) (m : pool.Manager)
    (result : list pool.PreParamsData) :
  (forall i, (i < n)%nat ->
     completes (generator.library (pool.generator m))
       (generator.runs (pool.generator m) + i) = true) ->
  exists new m',
    pool.GetPreParams_generate n m result = (inl (result ++ new), m') /\
    length new = n /\ only_generates m m'.
Proof.
  intros Hall.
  destruct (pool.GetPreParams_generate n m result) as [[result'|err] m'] eqn:Hloop;
    pose proof Hloop as Hinv;
    apply GetPreParams_generate_inv in Hinv as (Hfr & j & _ & _ & Hr).
  - destruct Hr as (_ & _ & new & -> & Hlen). eauto.
  - destruct Hr as (Hle & _ & Hpos & Hfail).
    rewrite Hall in Hfail by lia. discriminate.
Qed.

(** ** [GetPreParams] as a whole *)

(** [GetPreParams] in closed form, for a count that fits [uint32]: with
    [k] bundles taken from the pool, the loop runs for the [c - k] missing
    ones. *)
Lemma GetPreParams_eq (m : pool.Manager) (count : N) :
  (normalized count < 2 ^ 32)%N ->
  let c := N.to_nat (normalized count) in
  let items := pool.preParams m in
  let k := Nat.min c (length items) in
  let started :=
    if len items <=? pool.RefillThreshold (pool.config m)
    then [pool.GoRefillPool] else [] in
  let save := if pool.AutoSave (pool.config m) then [pool.GoSaveToDisk] else [] in
  let m1 :=
    pool.with_totalServed (Int64.add (pool.totalServed m) (Z.of_nat k))
      (pool.with_preParams (drop k items) m) in
  pool.GetPreParams m count =
    if (k <? c)%nat then
      match pool.GetPreParams_generate (c - k) m1 (take k items) with
      | (inr err, m2) => ((None, Some err), m2, started)
      | (inl result, m2) =>
          ((Some result, None),
           pool.with_totalServed
             (Int64.add (pool.totalServed m2) (Z.of_nat (c - k))) m2,
           started ++ save)
      end
    else ((Some (take k items), None), m1, started ++ save).
Proof.
  intros Hc c items k started save m1.
  unfold pool.GetPreParams. rewrite GetPreParams_take_eq.
  fold c items k started m1.
  assert (Hlen : len (take k items) = Z.of_nat k).
  { unfold len. rewrite length_take. lia. }
  assert (Hrem : Int64.sub (Z.of_N (normalized count)) (len (take k items))
                 = Z.of_nat (c - k)).
  { rewrite Hlen, sub_in_range.
    - subst c k. lia.
    - unfold Int64.in_range, Int64.min_int, Int64.max_int. subst c k. lia. }
  rewrite Hrem.
  destruct (Z.ltb_spec 0 (Z.of_nat (c - k))) as [Hlt | Hge].
  - assert ((k <? c)%nat = true) as -> by (apply Nat.ltb_lt; lia).
    rewrite Nat2Z.id.
    destruct (pool.GetPreParams_generate (c - k) m1 (take k items))
      as [[result|err] m2] eqn:Hloop; [|reflexivity].
    apply GetPreParams_generate_inv in Hloop as ((Hcfg & _) & _).
    cbn [pool.config pool.with_totalServed]. rewrite Hcfg. reflexivity.
  - assert ((k <? c)%nat = false) as -> by (apply Nat.ltb_ge; lia).
    reflexivity.
Qed.

(** The default for [count]: a request for zero bundles is a request for
    one. *)
Lemma GetPreParams_zero (m : pool.Manager) :
  pool.GetPreParams m 0 = pool.GetPreParams m 1.
Proof. reflexivity. Qed.

(** A successful call returns as many bundles as were asked for. *)
Lemma GetPreParams_length (m m' : pool.Manager) (count : N)
    (result : list pool.PreParamsData) (started : list pool.spawned) :
  (normalized count < 2 ^ 32)%N ->
  pool.GetPreParams m count = ((Some result, None), m', started) ->
  length result = N.to_nat (normalized count).
Proof.
  intros Hc. rewrite GetPreParams_eq by exact Hc. cbv zeta.
  set (c := N.to_nat (normalized count)).
  set (k := Nat.min c (length (pool.preParams m))).
  destruct (Nat.ltb_spec k c) as [Hlt | Hge].
  - match goal with
    | |- context [pool.GetPreParams_generate ?n ?a ?b] =>
        destruct (pool.GetPreParams_generate n a b) as [[res|err] m2] eqn:Hloop
    end; [|discriminate].
    apply GetPreParams_generate_inv in Hloop as (_ & j & _ & _ & _ & _ & new & -> & Hnew).
    intros [= <- _ _]. rewrite length_app, length_take, Hnew. lia.
  - intros [= <- _ _]. rewrite length_take. lia.
Qed.

(** ** The server's handler *)

Lemma mapM_length {A B : Type} (f : A -> option B) (l : list A) (k : list B) :
  mapM f l = Some k -> length k = length l.
Proof. intros H. symmetry. eapply length_mapM. exact H. Qed.

(** C1.  When the pool holds fewer bundles than an accepted request asks
    for and one of the synchronous generations for the missing bundles
    fails, the manager returns no slice, only an error; the server turns it
    into an [Internal] status with no response; and the bundles that the
    call took from the pool (all of them, since the pool was short) are not
    put back: the pool is empty afterwards. *)
Theorem shortfall_failure_fails_whole_call (s : server.Server) (n : N)
    (elapsed : Duration) (i : nat) :
  let m := server.poolManager s in
  (normalized n <= 100)%N ->
  (length (pool.preParams m) < N.to_nat (normalized n))%nat ->
  (i < N.to_nat (normalized n) - length (pool.preParams m))%nat ->
  completes (generator.library (pool.generator m))
    (generator.runs (pool.generator m) + i) = false ->
  exists (err : error) (m' : pool.Manager) (started : list pool.spawned),
    pool.GetPreParams m (normalized n) = ((None, Some err), m', started) /\
    server.GetPreParams s n elapsed
      = (server.Returned None
           (Some {| server.Code := server.Internal;
                    server.Message := ("failed to get pre-params: " +:+ err)%string |}),
         {| server.poolManager := m'; server.startTime := server.startTime s |},
         started) /\
    pool.preParams m' = [].
Proof.
  intros m Hacc Hshort Hi Hfail.
  assert (Hc : (normalized (normalized n) < 2 ^ 32)%N).
  { rewrite normalized_idem. change (2 ^ 32)%N with 4294967296%N. lia. }
  pose proof (GetPreParams_eq m (normalized n) Hc) as Heq. cbv zeta in Heq.
  rewrite normalized_idem in Heq.
  set (c := N.to_nat (normalized n)) in *.
  assert (Hk : Nat.min c (length (pool.preParams m)) = length (pool.preParams m))
    by lia.
  rewrite Hk in Heq.
  assert ((length (pool.preParams m) <? c)%nat = true) as Hlt
    by (apply Nat.ltb_lt; lia).
  rewrite Hlt in Heq.
  match type of Heq with
  | context [pool.GetPreParams_generate ?k ?a ?b] =>
      destruct (GetPreParams_generate_fails k i a b) as (err & m' & Hloop & Hfr)
  end; [exact Hi | exact Hfail |].
  rewrite Hloop in Heq.
  exists err, m'. eexists. split; [exact Heq|]. split.
  - unfold server.GetPreParams. fold (normalized n).
    assert ((100 <? normalized n)%N = false) as -> by (apply N.ltb_ge; lia).
    fold m. rewrite Heq. reflexivity.
  - destruct Hfr as (_ & -> & _). cbn. apply drop_all.
Qed.

(** C1 at a pool of one bundle, a request for three, and a library whose
    second run fails. *)
Lemma shortfall_failure_fails_whole_call_witness :
  let s := {| server.poolManager :=
                sample.manager (sample.cfg 2 4 1)
                  (sample.failing_after 1 10) [sample.B 1];
              server.startTime := 0 |} in
  exists (err : error) (m' : pool.Manager) (started : list pool.spawned),
    pool.GetPreParams (server.poolManager s) 3 = ((None, Some err), m', started) /\
    server.GetPreParams s 3 (5 * time.Millisecond)
      = (server.Returned None
           (Some {| server.Code := server.Internal;
                    server.Message := ("failed to get pre-params: " +:+ err)%string |}),
         {| server.poolManager := m'; server.startTime := 0 |},
         started) /\
    pool.preParams m' = [].
Proof.
  intros s.
  apply (shortfall_failure_fails_whole_call s 3 (5 * time.Millisecond) 1).
  - vm_compute. discriminate.
  - vm_compute. lia.
  - vm_compute. lia.
  - reflexivity.
Defined.

(** C5.  The server rejects a count above 100 with [InvalidArgument]
    before it reaches the manager (the server, hence the pool, is unchanged
    and no goroutine is started); a count of zero is served exactly as a
    count of one; and every call that returns a response returns exactly
    as many bundles as the count asked for (one for a count of zero). *)
Theorem count_is_validated_and_honoured (s : server.Server) (n : N)
    (elapsed : Duration) :
  ((100 < n)%N ->
   server.GetPreParams s n elapsed
     = (server.Returned None
          (Some {| server.Code := server.InvalidArgument;
                   server.Message := "count must be between 1 and 100" |}),
        s, [])) /\
  server.GetPreParams s 0 elapsed = server.GetPreParams s 1 elapsed /\
  (forall (resp : pb.GetPreParamsResponse) (s' : server.Server)
          (started : list pool.spawned),
     server.GetPreParams s n elapsed = (server.Returned (Some resp) None, s', started) ->
     (normalized n <= 100)%N /\
     length (pb.Params resp) = N.to_nat (normalized n)).
Proof.
  split; [|split].
  - intros Hbig. unfold server.GetPreParams.
    assert ((n =? 0)%N = false) as -> by (apply N.eqb_neq; lia).
    assert ((100 <? n)%N = true) as -> by (apply N.ltb_lt; lia).
    reflexivity.
  - reflexivity.
  - intros resp s' started. unfold server.GetPreParams. fold (normalized n).
    destruct (N.ltb_spec 100 (normalized n)) as [Hbig | Hok]; [discriminate|].
    destruct (pool.GetPreParams (server.poolManager s) (normalized n))
      as [[[paramsList err] m'] st] eqn:Hget.
    destruct err as [err|]; [discriminate|].
    destruct (mapM server.toWire (default [] paramsList)) as [pbParams|] eqn:Hconv;
      [|discriminate].
    intros [= <- _ _]. split; [exact Hok|]. cbn.
    apply mapM_length in Hconv. rewrite Hconv.
    assert (Hc : (normalized (normalized n) < 2 ^ 32)%N).
    { rewrite normalized_idem. change (2 ^ 32)%N with 4294967296%N. lia. }
    destruct paramsList as [result|].
    + apply GetPreParams_length in Hget; [|exact Hc].
      rewrite normalized_idem in Hget. exact Hget.
    + exfalso. revert Hget. rewrite GetPreParams_eq by exact Hc. cbv zeta.
      destruct (_ <? _)%nat; [|discriminate].
      match goal with
      | |- context [pool.GetPreParams_generate ?k ?a ?b] =>
          destruct (pool.GetPreParams_generate k a b) as [[? | ?] ?]
      end; discriminate.
Qed.

(** C5 at a pool of two bundles: a request for 101 is rejected, a request
    for three returns three bundles. *)
Lemma count_is_validated_and_honoured_witness :
  let s := {| server.poolManager :=
                sample.manager (sample.cfg 2 4 1) (sample.working 10)
                  [sample.B 1; sample.B 2];
              server.startTime := 0 |} in
  server.GetPreParams s 101 0
    = (server.Returned None
         (Some {| server.Code := server.InvalidArgument;
                  server.Message := "count must be between 1 and 100" |}),
       s, []) /\
  exists resp s' started,
    server.GetPreParams s 3 0 = (server.Returned (Some resp) None, s', started) /\
    length (pb.Params resp) = 3%nat.
Proof.
  intros s. split.
  - apply (count_is_validated_and_honoured s 101 0). reflexivity.
  - do 3 eexists. split; [vm_compute; reflexivity|].
    eapply (count_is_validated_and_honoured s 3 0). vm_compute. reflexivity.
Defined.

(** ** The refill signal *)

(** C7, as the code has it.  [GetPreParams] starts [refillPool] if and
    only if the depth of the pool on entry, before anything is taken, is
    at most [RefillThreshold]. *)
Theorem refill_signal_on_entry_depth (m : pool.Manager) (count : N) :
  pool.GoRefillPool ∈ (pool.GetPreParams m count).2
  <-> len (pool.preParams m) <= pool.RefillThreshold (pool.config m).
Proof.
  unfold pool.GetPreParams. rewrite GetPreParams_take_eq. cbv beta iota zeta.
  set (started := if len (pool.preParams m) <=? pool.RefillThreshold (pool.config m)
                  then [pool.GoRefillPool] else []).
  assert (Hstarted : pool.GoRefillPool ∈ started
                     <-> len (pool.preParams m) <= pool.RefillThreshold (pool.config m)).
  { subst started.
    destruct (Z.leb_spec (len (pool.preParams m)) (pool.RefillThreshold (pool.config m))).
    - split; [done | intros _; apply list_elem_of_singleton; done].
    - split; [intros H'; by apply elem_of_nil in H' | lia]. }
  assert (Hsave : forall m0 : pool.Manager,
            pool.GoRefillPool ∈
              started ++ (if pool.AutoSave (pool.config m0) then [pool.GoSaveToDisk] else [])
            <-> pool.GoRefillPool ∈ started).
  { intros m0. rewrite elem_of_app. split; [|tauto].
    intros [H | H]; [exact H|].
    destruct (pool.AutoSave (pool.config m0)).
    - apply list_elem_of_singleton in H. discriminate.
    - by apply elem_of_nil in H. }
  rewrite <- Hstarted.
  destruct (0 <? _); [|apply Hsave].
  destruct (pool.GetPreParams_generate _ _ _) as [[res|err] m2];
    cbn [snd]; [apply Hsave | reflexivity].
Qed.

(** C7 fails as stated: with two bundles in the pool and a threshold of
    one, a request for one bundle leaves one bundle, which is at the
    threshold, and yet the call starts no refill. *)
Lemma refill_signal_after_take_counterexample :
  let m := sample.manager (sample.cfg 2 4 1) (sample.working 10)
             [sample.B 1; sample.B 2] in
  exists r m' started,
    pool.GetPreParams m 1 = (r, m', started) /\
    len (pool.preParams m') <= pool.RefillThreshold (pool.config m') /\
    pool.GoRefillPool ∉ started.
Proof.
  intros m. do 3 eexists. split; [vm_compute; reflexivity|].
  split; [vm_compute; discriminate|].
  intros H. apply list_elem_of_singleton in H. discriminate.
Qed.

(** ** The counters *)

(** C6 fails on the code: with one bundle in the pool and a library that
    fails, a request for two bundles returns no bundle, only an error, and
    [totalServed] has nevertheless been raised from 0 to 1, for the bundle
    that was taken from the pool and then dropped. *)
Theorem failed_call_is_counted_as_served :
  let m := sample.manager (sample.cfg 2 4 1) sample.broken [sample.B 1] in
  exists err m' started,
    pool.GetPreParams m 2 = ((None, Some err), m', started) /\
    returned_to_caller (None, Some err) = 0 /\
    pool.totalServed m = 0 /\
    pool.totalServed m' = 1 /\
    pool.preParams m' = [].
Proof.
  intros m. do 3 eexists. split; [vm_compute; reflexivity|].
  repeat split.
Qed.

(** The refill signal of a call, for use in later proofs. *)
Lemma refill_signal_entry_depth_iff (m : pool.Manager) (count : N) :
  pool.GoRefillPool ∈ (pool.GetPreParams m count).2
  <-> len (pool.preParams m) <= pool.RefillThreshold (pool.config m).
Proof.
  unfold pool.GetPreParams. rewrite GetPreParams_take_eq. cbv beta iota zeta.
  set (started := if len (pool.preParams m) <=? pool.RefillThreshold (pool.config m)
                  then [pool.GoRefillPool] else []).
  assert (Hstarted : pool.GoRefillPool ∈ started
                     <-> len (pool.preParams m) <= pool.RefillThreshold (pool.config m)).
  { subst started.
    destruct (Z.leb_spec (len (pool.preParams m)) (pool.RefillThreshold (pool.config m))).
    - split; [done | intros _; apply list_elem_of_singleton; done].
    - split; [intros H'; by apply elem_of_nil in H' | lia]. }
  assert (Hsave : forall m0 : pool.Manager,
            pool.GoRefillPool ∈
              started ++ (if pool.AutoSave (pool.config m0) then [pool.GoSaveToDisk] else [])
            <-> pool.GoRefillPool ∈ started).
  { intros m0. rewrite elem_of_app. split; [|tauto].
    intros [H | H]; [exact H|].
    destruct (pool.AutoSave (pool.config m0)).
    - apply list_elem_of_singleton in H. discriminate.
    - by apply elem_of_nil in H. }
  rewrite <- Hstarted.
  destruct (0 <? _); [|apply Hsave].
  destruct (pool.GetPreParams_generate _ _ _) as [[res|err] m2];
    cbn [snd]; [apply Hsave | reflexivity].
Qed.

(** ** Construction *)

(** [loadFromDisk] only ever changes the pool. *)
Lemma loadFromDisk_config (m : pool.Manager) (disk : fs.Disk) :
  pool.config (pool.loadFromDisk m disk) = pool.config m.
Proof.
  unfold pool.loadFromDisk.
  destruct (fs.files disk !! pool.poolFilePath m) as [[| |doc]|]; try reflexivity.
  destruct (pool.unmarshal_poolData doc); reflexivity.
Qed.

Lemma NewManager_config (gen : generator.Generator) (config : pool.SimpleConfig)
    (disk : fs.Disk) (now : Time) :
  pool.config (pool.NewManager gen config disk now) = pool.withDefaults config.
Proof. unfold pool.NewManager. apply loadFromDisk_config. Qed.

(** C9 fails as stated: constructed from the zero configuration, the
    manager does not have [MaxConcurrent = 2]. *)
Lemma NewManager_max_concurrent_counterexample :
  pool.MaxConcurrent
    (pool.config
       (pool.NewManager (generator.NewGenerator (sample.working 1))
          sample.zeroConfig sample.emptyDisk 0))
  <> 2.
Proof. vm_compute. discriminate. Qed.

(** C9, as the code has it.  [NewManager] replaces every zero-valued field
    of the configuration it is given by a built-in default: min_size 10,
    max_size 20, refill_threshold 5, prime_bits 1024, paillier_bits 2048,
    max_concurrent 4, pool_dir ./prime_pool, refill_interval 30 s; the
    other fields are kept.  The value 2 for max_concurrent is the default
    of the launcher, which fills it in before it calls [NewManager]: the
    manager that [main] constructs from a configuration file that sets
    nothing, or from no file at all, has max_concurrent 2 and otherwise
    the same defaults. *)
Theorem NewManager_applies_defaults (gen : generator.Generator)
    (config : pool.SimpleConfig) (disk : fs.Disk) (now : Time) :
  let c := pool.config (pool.NewManager gen config disk now) in
  let launched decoded := pool.config (main.poolManager decoded gen disk now) in
  pool.MinPoolSize c
    = (if pool.MinPoolSize config =? 0 then 10 else pool.MinPoolSize config) /\
  pool.MaxPoolSize c
    = (if pool.MaxPoolSize config =? 0 then 20 else pool.MaxPoolSize config) /\
  pool.RefillThreshold c
    = (if pool.RefillThreshold config =? 0 then 5 else pool.RefillThreshold config) /\
  pool.PrimeBitSize c
    = (if pool.PrimeBitSize config =? 0 then 1024 else pool.PrimeBitSize config) /\
  pool.PaillierBitSize c
    = (if pool.PaillierBitSize config =? 0 then 2048 else pool.PaillierBitSize config) /\
  pool.MaxConcurrent c
    = (if pool.MaxConcurrent config =? 0 then 4 else pool.MaxConcurrent config) /\
  pool.PoolDir c
    = (if String.eqb (pool.PoolDir config) "" then "./prime_pool"%string
       else pool.PoolDir config) /\
  pool.RefillInterval c
    = (if pool.RefillInterval config =? 0 then 30 * time.Second
       else pool.RefillInterval config) /\
  pool.AutoSave c = pool.AutoSave config /\
  pool.BackgroundGen c = pool.BackgroundGen config /\
  launched (Some sample.emptyFile)
    = {| pool.MinPoolSize := 10; pool.MaxPoolSize := 20;
         pool.RefillThreshold := 5; pool.PrimeBitSize := 1024;
         pool.PaillierBitSize := 2048; pool.MaxConcurrent := 2;
         pool.PoolDir := "./prime_pool"; pool.AutoSave := false;
         pool.BackgroundGen := false;
         pool.RefillInterval := 30 * time.Second |} /\
  launched None
    = {| pool.MinPoolSize := 10; pool.MaxPoolSize := 20;
         pool.RefillThreshold := 5; pool.PrimeBitSize := 1024;
         pool.PaillierBitSize := 2048; pool.MaxConcurrent := 2;
         pool.PoolDir := "./prime_pool"; pool.AutoSave := true;
         pool.BackgroundGen := true;
         pool.RefillInterval := 30 * time.Second |}.
Proof.
  intros c launched. subst c launched. cbv beta.
  unfold main.poolManager. rewrite !NewManager_config.
  repeat split.
Qed.

(** The defaults at the zero configuration, spelled out. *)
Lemma NewManager_zeroConfig (gen : generator.Generator) (disk : fs.Disk)
    (now : Time) :
  pool.config (pool.NewManager gen sample.zeroConfig disk now)
  = {| pool.MinPoolSize := 10; pool.MaxPoolSize := 20;
       pool.RefillThreshold := 5; pool.PrimeBitSize := 1024;
       pool.PaillierBitSize := 2048; pool.MaxConcurrent := 4;
       pool.PoolDir := "./prime_pool"; pool.AutoSave := false;
       pool.BackgroundGen := false;
       pool.RefillInterval := 30 * time.Second |}.
Proof. rewrite NewManager_config. reflexivity. Qed.

(** ** The client *)

(** C10.  When the service answers with an empty parameter list the client
    returns an error and no list; a return without error carries a list of
    at least one bundle, as long as the response's. *)
Theorem client_rejects_empty_response
    (rpc : N -> pb.GetPreParamsResponse + error) (count : N) :
  (forall resp : pb.GetPreParamsResponse,
     rpc (normalized count) = inl resp ->
     pb.Params resp = [] ->
     client.GetPreParams rpc count
       = (None, Some "no parameters returned from service"%string)) /\
  (forall (result : option (list client.PreParamsData)),
     client.GetPreParams rpc count = (result, None) ->
     exists (l : list client.PreParamsData) (resp : pb.GetPreParamsResponse),
       result = Some l /\ (1 <= length l)%nat /\
       rpc (normalized count) = inl resp /\
       length l = length (pb.Params resp)).
Proof.
  unfold client.GetPreParams. fold (normalized count).
  split.
  - intros resp -> ->. reflexivity.
  - intros result.
    destruct (rpc (normalized count)) as [resp|err]; [|discriminate].
    unfold len.
    destruct (Z.eqb_spec (Z.of_nat (length (pb.Params resp))) 0) as [He | Hne];
      [discriminate|].
    intros [= <-]. exists (client.fromWire <$> pb.Params resp), resp.
    rewrite length_fmap. repeat split. lia.
Qed.

(** C10 at a service that answers every request with an empty list. *)
Lemma client_rejects_empty_response_witness :
  let rpc : N -> pb.GetPreParamsResponse + error :=
    fun _ => inl {| pb.Params := []; pb.GenerationTimeMs := 0 |} in
  client.GetPreParams rpc 1 = (None, Some "no parameters returned from service"%string).
Proof.
  intros rpc.
  apply (proj1 (client_rejects_empty_response rpc 1)
           {| pb.Params := []; pb.GenerationTimeMs := 0 |});
    reflexivity.
Defined.

(** ** The pool file *)

Lemma bigInt_of_bigInt (x : option Z) : json.bigInt (Some (json.of_bigInt x)) = Some x.
Proof. destruct x; reflexivity. Qed.

Lemma int_of_Int (z : Z) : Int64.in_range z -> json.int (Some (json.Int z)) = Some z.
Proof.
  unfold Int64.in_range. intros [Hlo Hhi]. cbn.
  destruct (Z.leb_spec Int64.min_int z); [|lia].
  destruct (Z.leb_spec z Int64.max_int); [|lia]. reflexivity.
Qed.

(** Reading back the keys of the objects that the encoder builds. *)
Lemma lookup_PrivateKey_object (n lambdaN phiN p q : json.value) :
  let o : gmap string json.value :=
    list_to_map [ ("N"%string, n); ("LambdaN"%string, lambdaN);
                  ("PhiN"%string, phiN); ("P"%string, p); ("Q"%string, q) ] in
  json.field o "N"%string = Some n /\ json.field o "LambdaN"%string = Some lambdaN /\
  json.field o "PhiN"%string = Some phiN /\ json.field o "P"%string = Some p /\
  json.field o "Q"%string = Some q.
Proof. repeat split. Qed.

Lemma lookup_PreParamsData_object (key nTildei h1i h2i alpha beta p q at_ : json.value) :
  let o : gmap string json.value :=
    list_to_map [ ("paillier_key"%string, key); ("n_tildei"%string, nTildei);
                  ("h1i"%string, h1i); ("h2i"%string, h2i);
                  ("alpha"%string, alpha); ("beta"%string, beta);
                  ("p"%string, p); ("q"%string, q);
                  ("generated_at"%string, at_) ] in
  json.field o "paillier_key"%string = Some key /\ json.field o "n_tildei"%string = Some nTildei /\
  json.field o "h1i"%string = Some h1i /\ json.field o "h2i"%string = Some h2i /\
  json.field o "alpha"%string = Some alpha /\ json.field o "beta"%string = Some beta /\
  json.field o "p"%string = Some p /\ json.field o "q"%string = Some q /\
  json.field o "generated_at"%string = Some at_.
Proof. repeat split. Qed.

Lemma unmarshal_marshal_PrivateKey (k : option paillier.PrivateKey) :
  pool.unmarshal_PrivateKey (Some (pool.marshal_PrivateKey k)) = Some k.
Proof.
  destruct k as [[n lambdaN phiN p q]|]; [|reflexivity].
  unfold pool.marshal_PrivateKey, pool.unmarshal_PrivateKey.
  cbn [paillier.N paillier.LambdaN paillier.PhiN paillier.P paillier.Q].
  destruct (lookup_PrivateKey_object (json.of_bigInt n) (json.of_bigInt lambdaN)
              (json.of_bigInt phiN) (json.of_bigInt p) (json.of_bigInt q))
    as (-> & -> & -> & -> & ->).
  rewrite !bigInt_of_bigInt. reflexivity.
Qed.

(** Every bundle is read back as it was written. *)
Lemma unmarshal_marshal_PreParamsData (p : pool.PreParamsData) :
  pool.unmarshal_PreParamsData (pool.marshal_PreParamsData p) = Some (Some p).
Proof.
  destruct p as [key nTildei h1i h2i alpha beta p q at_].
  unfold pool.marshal_PreParamsData, pool.unmarshal_PreParamsData.
  cbn [pool.PaillierKey pool.NTildei pool.H1i pool.H2i pool.Alpha pool.Beta
       pool.P pool.Q pool.GeneratedAt].
  destruct (lookup_PreParamsData_object (pool.marshal_PrivateKey key)
              (json.of_bigInt nTildei) (json.of_bigInt h1i) (json.of_bigInt h2i)
              (json.of_bigInt alpha) (json.of_bigInt beta) (json.of_bigInt p)
              (json.of_bigInt q) (json.Timestamp at_))
    as (-> & -> & -> & -> & -> & -> & -> & -> & ->).
  rewrite unmarshal_marshal_PrivateKey, !bigInt_of_bigInt. reflexivity.
Qed.

Lemma mapM_unmarshal_marshal (s : list pool.PreParamsData) :
  mapM pool.unmarshal_PreParamsData (pool.marshal_PreParamsData <$> s)
  = Some (Some <$> s).
Proof.
  induction s as [|p s IH]; [reflexivity|].
  rewrite !fmap_cons. cbn [mapM].
  rewrite unmarshal_marshal_PreParamsData, IH. reflexivity.
Qed.

Lemma lookup_SimpleConfig_object (v1 v2 v3 v4 v5 v6 v7 v8 v9 v10 : json.value) :
  let o : gmap string json.value :=
    list_to_map [ ("min_pool_size"%string, v1); ("max_pool_size"%string, v2);
                  ("refill_threshold"%string, v3); ("prime_bit_size"%string, v4);
                  ("paillier_bit_size"%string, v5); ("max_concurrent"%string, v6);
                  ("pool_dir"%string, v7); ("auto_save"%string, v8);
                  ("background_gen"%string, v9); ("refill_interval"%string, v10) ] in
  json.field o "min_pool_size"%string = Some v1 /\ json.field o "max_pool_size"%string = Some v2 /\
  json.field o "refill_threshold"%string = Some v3 /\ json.field o "prime_bit_size"%string = Some v4 /\
  json.field o "paillier_bit_size"%string = Some v5 /\ json.field o "max_concurrent"%string = Some v6 /\
  json.field o "pool_dir"%string = Some v7 /\ json.field o "auto_save"%string = Some v8 /\
  json.field o "background_gen"%string = Some v9 /\ json.field o "refill_interval"%string = Some v10.
Proof. repeat split. Qed.

Lemma lookup_poolData_object (params savedAt config : json.value) :
  let o : gmap string json.value :=
    list_to_map [ ("pre_params"%string, params); ("saved_at"%string, savedAt);
                  ("config"%string, config) ] in
  json.field o "pre_params"%string = Some params /\ json.field o "saved_at"%string = Some savedAt /\
  json.field o "config"%string = Some config.
Proof. repeat split. Qed.

(** A configuration that was written is accepted when read. *)
Lemma unmarshal_marshal_SimpleConfig (c : pool.SimpleConfig) :
  representable c ->
  pool.unmarshal_SimpleConfig (Some (pool.marshal_SimpleConfig c)) = Some ().
Proof.
  intros (H1 & H2 & H3 & H4 & H5 & H6 & H7).
  unfold pool.marshal_SimpleConfig, pool.unmarshal_SimpleConfig.
  destruct (lookup_SimpleConfig_object
              (json.Int (pool.MinPoolSize c)) (json.Int (pool.MaxPoolSize c))
              (json.Int (pool.RefillThreshold c)) (json.Int (pool.PrimeBitSize c))
              (json.Int (pool.PaillierBitSize c)) (json.Int (pool.MaxConcurrent c))
              (json.Str (pool.PoolDir c)) (json.Bool (pool.AutoSave c))
              (json.Bool (pool.BackgroundGen c)) (json.Int (pool.RefillInterval c)))
    as (-> & -> & -> & -> & -> & -> & -> & -> & -> & ->).
  rewrite !int_of_Int by assumption. reflexivity.
Qed.

(** What [saveToDisk] writes, [json.Unmarshal] reads back. *)
Lemma unmarshal_marshal_poolData (s : list pool.PreParamsData) (savedAt : Time)
    (c : pool.SimpleConfig) :
  representable c ->
  pool.unmarshal_poolData (pool.marshal_poolData s savedAt c)
  = Some {| pool.PreParams := Some <$> s; pool.SavedAt := savedAt |}.
Proof.
  intros Hc. unfold pool.marshal_poolData, pool.unmarshal_poolData.
  destruct (lookup_poolData_object (json.Arr (pool.marshal_PreParamsData <$> s))
              (json.Timestamp savedAt) (pool.marshal_SimpleConfig c))
    as (-> & -> & ->).
  unfold pool.unmarshal_PreParams.
  rewrite mapM_unmarshal_marshal, unmarshal_marshal_SimpleConfig by exact Hc.
  reflexivity.
Qed.

(** The filter of [loadFromDisk] keeps, in order, the entries that are not
    nil and have a Paillier key. *)
Lemma validParams_omap (params : list (option pool.PreParamsData)) :
  pool.validParams params = omap with_key params.
Proof.
  induction params as [|[p|] rest IH]; cbn; [reflexivity| |exact IH].
  unfold with_key at 1. cbn. destruct (pool.PaillierKey p); cbn; by rewrite IH.
Qed.

Lemma validParams_all (s : list pool.PreParamsData) :
  Forall (fun p => is_Some (pool.PaillierKey p)) s ->
  pool.validParams (Some <$> s) = s.
Proof.
  induction 1 as [|p s [k Hk] _ IH]; cbn; [reflexivity|].
  rewrite Hk. cbn in IH. by rewrite IH.
Qed.

Lemma elem_of_validParams (params : list (option pool.PreParamsData))
    (p : pool.PreParamsData) :
  p ∈ pool.validParams params <-> Some p ∈ params /\ is_Some (pool.PaillierKey p).
Proof.
  rewrite validParams_omap, list_elem_of_omap. split.
  - intros ([q|] & Hin & Hq); [|discriminate].
    unfold with_key in Hq. cbn in Hq.
    destruct (pool.PaillierKey q) as [k|] eqn:Hk; [|discriminate].
    cbn in Hq. injection Hq as ->. eauto.
  - intros (Hin & k & Hk). exists (Some p). split; [exact Hin|].
    unfold with_key. cbn. rewrite Hk. reflexivity.
Qed.

(** C8.  Saving a pool and loading the file gives the pool back: the same
    bundles, in the same order, with the same field values (nil fields
    included).  The save must not be skipped (no save in flight) and must
    succeed (the disk accepts the write); the bundles are bundles of the
    pool, which all have a Paillier key; the loading manager [fresh] reads
    the file that [m] wrote. *)
Theorem save_then_load (m fresh : pool.Manager) (disk : fs.Disk) (now : Time) :
  pool.isSaving m = false ->
  fs.read_only disk = false ->
  representable (pool.config m) ->
  Forall (fun p => is_Some (pool.PaillierKey p)) (pool.preParams m) ->
  pool.poolFilePath fresh = pool.poolFilePath m ->
  pool.preParams (pool.loadFromDisk fresh (pool.saveToDisk m disk now).2)
  = pool.preParams m.
Proof.
  intros Hidle Hrw Hcfg Hkeys Hpath.
  unfold pool.saveToDisk, fs.WriteFile. rewrite Hidle.
  unfold fs.read_only in Hrw.
  destruct (fs.on_write disk) eqn:Hw; [|discriminate..]. cbn.
  unfold pool.loadFromDisk. cbn. rewrite Hpath, lookup_insert_eq.
  rewrite unmarshal_marshal_poolData by exact Hcfg. cbn.
  by apply validParams_all.
Qed.

(** C8 at a pool of three bundles, reloaded by a newly constructed
    manager. *)
Lemma save_then_load_witness :
  let m := sample.manager (sample.cfg 2 4 1) (sample.working 10)
             [sample.B 1; sample.B 2; sample.B 3] in
  let fresh := sample.manager (sample.cfg 2 4 1) (sample.working 20) [] in
  pool.preParams
    (pool.loadFromDisk fresh (pool.saveToDisk m sample.emptyDisk 1700000200).2)
  = [sample.B 1; sample.B 2; sample.B 3].
Proof.
  intros m fresh.
  apply (save_then_load m fresh sample.emptyDisk 1700000200).
  - reflexivity.
  - reflexivity.
  - unfold representable, Int64.in_range. vm_compute. intuition discriminate.
  - repeat constructor; eexists; reflexivity.
  - reflexivity.
Defined.

(** A member is found under its exact key, and under a key that differs
    from the name of the field in the case of its letters only. *)
Lemma field_exact (o : gmap string json.value) (name : string) (v : json.value) :
  o !! name = Some v -> json.field o name = Some v.
Proof. unfold json.field. by intros ->. Qed.

Lemma field_up_to_case_example (v : json.value) :
  json.field {[ "Paillier_Key"%string := v ]} "paillier_key"%string = Some v /\
  json.field {[ "paillier-key"%string := v ]} "paillier_key"%string = None.
Proof. split; reflexivity. Qed.

(** An entry without a member for [n_tildei] is not a decoding error: it
    decodes to a bundle whose [NTildei] is nil. *)
Lemma missing_n_tildei_decodes_to_nil (o : gmap string json.value)
    (entry : option pool.PreParamsData) :
  json.field o "n_tildei"%string = None ->
  pool.unmarshal_PreParamsData (json.Obj o) = Some entry ->
  exists p, entry = Some p /\ pool.NTildei p = None.
Proof.
  intros Hmissing Hdec. unfold pool.unmarshal_PreParamsData in Hdec.
  rewrite Hmissing in Hdec. cbn [json.bigInt] in Hdec.
  simplify_option_eq. eauto.
Qed.

(** C4 fails on the code.  A manager constructed over a pool file with
    three entries, the second of which has no [n_tildei], starts with a
    pool of three items, not two: the filter of [loadFromDisk] ('data
    corruption protection') looks at the Paillier key only, and the entry
    stays in the pool with a nil [NTildei].  The request that is served
    this bundle panics in the handler, which dereferences the field. *)
Theorem load_keeps_entry_without_n_tildei :
  let file := sample.poolFile
                [ pool.marshal_PreParamsData (sample.B 1);
                  sample.entryWithoutNTildei 2;
                  pool.marshal_PreParamsData (sample.B 3) ] in
  let m := pool.NewManager (generator.NewGenerator (sample.working 10))
             (sample.cfg 10 20 5) (sample.diskWith file) 0 in
  length (pool.preParams m) = 3%nat /\
  length (pool.preParams m) <> 2%nat /\
  (pool.NTildei <$> pool.preParams m) = [Some 1; None; Some 3] /\
  (server.GetPreParams (server.NewServer m 0) 2 0).1.1 = server.Panicked.
Proof. vm_compute. repeat split. discriminate. Qed.

(** An entry with a field that cannot be decoded makes the whole load
    fail: the manager starts with an empty pool. *)
Lemma load_undecodable_field_example :
  let file := sample.poolFile
                [ pool.marshal_PreParamsData (sample.B 1);
                  sample.entryWithBadNTildei 2;
                  pool.marshal_PreParamsData (sample.B 3) ] in
  pool.preParams
    (pool.NewManager (generator.NewGenerator (sample.working 10))
       (sample.cfg 10 20 5) (sample.diskWith file) 0)
  = [].
Proof. vm_compute. reflexivity. Qed.

(** ** The size of the pool *)

(** C3 fails on the code: constructed with [MaxPoolSize = 2] over a pool
    file that holds three bundles, the manager starts with a pool of three
    bundles. *)
Theorem load_exceeds_MaxPoolSize :
  let file := sample.poolFile
                (pool.marshal_PreParamsData <$> [sample.B 1; sample.B 2; sample.B 3]) in
  let m := pool.NewManager (generator.NewGenerator (sample.working 10))
             (sample.cfg 1 2 1) (sample.diskWith file) 0 in
  pool.preParams m = [sample.B 1; sample.B 2; sample.B 3] /\
  pool.MaxPoolSize (pool.config m) = 2 /\
  ~ (len (pool.preParams m) <= pool.MaxPoolSize (pool.config m)).
Proof. vm_compute. repeat split. intros H. apply H. reflexivity. Qed.

(** What a call leaves in the pool, whether it succeeds or not: the pool
    without the bundles taken from its front. *)
Lemma GetPreParams_pool (m : pool.Manager) (count : N) :
  let k := Nat.min (N.to_nat (normalized count)) (length (pool.preParams m)) in
  let m' := (pool.GetPreParams m count).1.2 in
  pool.config m' = pool.config m /\
  pool.preParams m' = drop k (pool.preParams m).
Proof.
  intros k. unfold pool.GetPreParams. rewrite GetPreParams_take_eq.
  fold k. cbv beta iota zeta.
  destruct (0 <? _); [|split; reflexivity].
  destruct (pool.GetPreParams_generate _ _ _) as [[res|err] m2] eqn:Hloop;
    apply GetPreParams_generate_inv in Hloop as ((Hcfg & Hpool & _) & _);
    cbn in *; split; assumption.
Qed.

(** The take and the deposit keep a pool within its bound. *)
Lemma GetPreParams_within_bound (m : pool.Manager) (count : N) :
  len (pool.preParams m) <= pool.MaxPoolSize (pool.config m) ->
  let m' := (pool.GetPreParams m count).1.2 in
  pool.config m' = pool.config m /\
  len (pool.preParams m') <= len (pool.preParams m).
Proof.
  intros Hbound m'. destruct (GetPreParams_pool m count) as [Hcfg Hpool].
  fold m' in Hcfg, Hpool. split; [exact Hcfg|].
  rewrite Hpool. unfold len. rewrite length_drop. lia.
Qed.

Lemma collect_within_bound (m : pool.Manager) (p : pool.PreParamsData) :
  len (pool.preParams m) <= pool.MaxPoolSize (pool.config m) ->
  let m' := (pool.collect m p).1 in
  pool.config m' = pool.config m /\
  len (pool.preParams m') <= pool.MaxPoolSize (pool.config m').
Proof.
  intros Hbound. unfold pool.collect.
  destruct (Z.ltb_spec (len (pool.preParams m)) (pool.MaxPoolSize (pool.config m)))
    as [Hroom | Hfull]; cbn [fst pool.config pool.preParams pool.with_preParams].
  - split; [reflexivity|]. rewrite len_app.
    change (len [p]) with 1. lia.
  - split; [reflexivity | exact Hbound].
Qed.

(** ** The counters along traces *)

Lemma wrap_wrap (a : Z) : Int64.wrap (Int64.wrap a) = Int64.wrap a.
Proof. pose proof (wrap_wrap_add a 0) as H. by rewrite !Z.add_0_r in H. Qed.

Lemma completed_add (lib : nat -> generator.run) (from i j : nat) :
  completed lib from (i + j) = (completed lib from i + completed lib (from + i) j)%nat.
Proof.
  revert from. induction i as [|i IH]; intros from; cbn.
  - by rewrite Nat.add_0_r.
  - rewrite IH. replace (S from + i)%nat with (from + S i)%nat by lia. lia.
Qed.

Lemma normalized_uint32 (count : N) :
  (count < 2 ^ 32)%N -> (normalized count < 2 ^ 32)%N.
Proof.
  unfold normalized. destruct (N.eqb_spec count 0); [|tauto].
  intros _. change (2 ^ 32)%N with 4294967296%N. lia.
Qed.

(** What one call does to the counters: [totalGenerated] grows by the
    number of completed runs among those the call made; [totalServed] grows
    by the number of bundles returned when the call succeeds, and by the
    number of bundles taken from the pool when it fails. *)
Lemma GetPreParams_counters (m m' : pool.Manager) (count : N)
    (r : option (list pool.PreParamsData) * option error)
    (started : list pool.spawned) :
  (count < 2 ^ 32)%N ->
  pool.GetPreParams m count = (r, m', started) ->
  let lib := generator.library (pool.generator m) in
  let from := generator.runs (pool.generator m) in
  pool.config m' = pool.config m /\
  generator.library (pool.generator m') = lib /\
  (exists j : nat,
     generator.runs (pool.generator m') = (from + j)%nat /\
     Int64.wrap (pool.totalGenerated m')
       = Int64.wrap (pool.totalGenerated m + Z.of_nat (completed lib from j))) /\
  Int64.wrap (pool.totalServed m')
    = Int64.wrap
        (pool.totalServed m
         + accounted {| reply := r;
                        taken := len (pool.preParams m) - len (pool.preParams m') |}).
Proof.
  intros Hc. apply normalized_uint32 in Hc.
  rewrite GetPreParams_eq by exact Hc. cbv zeta.
  set (c := N.to_nat (normalized count)).
  set (items := pool.preParams m).
  set (k := Nat.min c (length items)).
  assert (Hk : (k <= length items)%nat) by lia.
  assert (Htaken : len items - len (drop k items) = Z.of_nat k).
  { unfold len. rewrite length_drop. lia. }
  destruct (Nat.ltb_spec k c) as [Hlt | Hge].
  - match goal with
    | |- context [pool.GetPreParams_generate ?n ?a ?b] =>
        destruct (pool.GetPreParams_generate n a b) as [[res|err] m2] eqn:Hloop
    end;
      apply GetPreParams_generate_inv in Hloop
        as ((Hcfg & Hpool & Hserved & Hlib) & j & Hruns & Hgen & Hr);
      cbn in Hcfg, Hpool, Hserved, Hlib, Hruns, Hgen;
      intros [= <- <- _]; cbn.
    + destruct Hr as (-> & _ & new & -> & Hnew).
      split; [exact Hcfg|]. split; [exact Hlib|].
      split; [exists (c - k)%nat; split; [exact Hruns | exact Hgen]|].
      unfold accounted; cbn. rewrite Hserved. unfold Int64.add.
      rewrite wrap_wrap, wrap_wrap_add. f_equal.
      rewrite len_app. unfold len. rewrite length_take, Hnew. lia.
    + split; [exact Hcfg|]. split; [exact Hlib|].
      split; [exists j; split; [exact Hruns | exact Hgen]|].
      unfold accounted; cbn. rewrite Hserved, Hpool. fold items. rewrite Htaken.
      unfold Int64.add. by rewrite wrap_wrap.
  - intros [= <- <- _]. cbn.
    split; [reflexivity|]. split; [reflexivity|].
    split; [exists 0%nat; cbn; split; [lia | f_equal; lia]|].
    unfold accounted; cbn. unfold Int64.add. rewrite wrap_wrap. f_equal.
    unfold len. rewrite length_take. lia.
Qed.

(** One worker iteration makes at most one run and counts it if it
    completed; it never touches the pool or [totalServed]. *)
Lemma worker_iteration_counters (m m' : pool.Manager) (it : pool.iteration) :
  pool.worker_iteration m = (it, m') ->
  let lib := generator.library (pool.generator m) in
  let from := generator.runs (pool.generator m) in
  only_generates m m' /\
  exists j : nat,
    generator.runs (pool.generator m') = (from + j)%nat /\
    Int64.wrap (pool.totalGenerated m')
      = Int64.wrap (pool.totalGenerated m + Z.of_nat (completed lib from j)).
Proof.
  unfold pool.worker_iteration.
  assert (Hnone : only_generates m m /\
            exists j : nat,
              generator.runs (pool.generator m)
                = (generator.runs (pool.generator m) + j)%nat /\
              Int64.wrap (pool.totalGenerated m)
                = Int64.wrap
                    (pool.totalGenerated m
                     + Z.of_nat (completed (generator.library (pool.generator m))
                                   (generator.runs (pool.generator m)) j))).
  { split; [apply only_generates_refl|]. exists 0%nat. cbn. split; [lia | f_equal; lia]. }
  destruct (pool.stopCh m); [intros [= <- <-]; exact Hnone|].
  destruct (_ <=? _); [intros [= <- <-]; exact Hnone|].
  destruct (pool.generateSinglePreParams m) as [[params|err] m1] eqn:Hone;
    apply generateSinglePreParams_inv in Hone as (Hfr & Hruns & Hc & Htot);
    intros [= <- <-]; (split; [exact Hfr|]);
    exists 1%nat; cbn [completed]; rewrite Hc, Htot; cbn.
  - split; [lia|]. unfold Int64.add. by rewrite wrap_wrap.
  - split; [lia|]. f_equal; lia.
Qed.

(** What one step of a trace does to the counters. *)
Lemma exec_step_counters (st st' : system) (s : step) (answers : list answer) :
  well_typed s ->
  exec_step st s = (st', answers) ->
  let lib := generator.library (pool.generator (manager st)) in
  let from := generator.runs (pool.generator (manager st)) in
  pool.config (manager st') = pool.config (manager st) /\
  generator.library (pool.generator (manager st')) = lib /\
  (exists j : nat,
     generator.runs (pool.generator (manager st')) = (from + j)%nat /\
     Int64.wrap (pool.totalGenerated (manager st'))
       = Int64.wrap (pool.totalGenerated (manager st)
                     + Z.of_nat (completed lib from j))) /\
  Int64.wrap (pool.totalServed (manager st'))
    = Int64.wrap (pool.totalServed (manager st) + total (accounted <$> answers)).
Proof.
  destruct s as [count| |]; cbn [exec_step well_typed].
  - intros Hc.
    destruct (pool.GetPreParams (manager st) count) as [[r m'] started] eqn:Hget.
    intros [= <- <-]. cbn [manager fmap list_fmap total foldr].
    rewrite Z.add_0_r.
    exact (GetPreParams_counters _ _ _ _ _ Hc Hget).
  - intros _.
    destruct (pool.worker_iteration (manager st)) as [it m'] eqn:Hit.
    apply worker_iteration_counters in Hit as ((Hcfg & _ & Hserved & Hlib) & Hgen).
    intros Hexec.
    assert (Hst : manager st' = m' /\ answers = []).
    { destruct it; injection Hexec as <- <-; done. }
    destruct Hst as [-> ->].
    cbn [fmap list_fmap total foldr]. rewrite Z.add_0_r, Hserved.
    split; [exact Hcfg|]. split; [exact Hlib|]. split; [exact Hgen | reflexivity].
  - intros _.
    assert (Hidle : forall m : pool.Manager,
      pool.config m = pool.config m /\
      generator.library (pool.generator m) = generator.library (pool.generator m) /\
      (exists j : nat,
         generator.runs (pool.generator m) = (generator.runs (pool.generator m) + j)%nat /\
         Int64.wrap (pool.totalGenerated m)
           = Int64.wrap (pool.totalGenerated m
                         + Z.of_nat (completed (generator.library (pool.generator m))
                                       (generator.runs (pool.generator m)) j))) /\
      Int64.wrap (pool.totalServed m) = Int64.wrap (pool.totalServed m + total [])).
    { intros m. split; [reflexivity|]. split; [reflexivity|]. split.
      - exists 0%nat. cbn. split; [lia | f_equal; lia].
      - cbn. f_equal. lia. }
    destruct (paramsCh st) as [|params rest].
    + intros [= <- <-]. apply Hidle.
    + intros [= <- <-]. cbn [manager fmap list_fmap].
      unfold pool.collect. destruct (_ <? _); cbn [fst]; exact (Hidle (manager st)).
Qed.

(** Along every trace of requests, worker iterations and deposits, in any
    interleaving, and up to the wrap-around of [int64]:
    [totalGenerated] is its initial value plus the number of completed runs
    of the generator, and [totalServed] is its initial value plus, for each
    request, the bundles returned if the request succeeded and the bundles
    taken from the pool if it failed. *)
Lemma counters_along_traces (steps : list step) :
  forall (st st' : system) (answers : list answer),
  Forall well_typed steps ->
  exec st steps = (st', answers) ->
  let lib := generator.library (pool.generator (manager st)) in
  let from := generator.runs (pool.generator (manager st)) in
  pool.config (manager st') = pool.config (manager st) /\
  generator.library (pool.generator (manager st')) = lib /\
  (exists j : nat,
     generator.runs (pool.generator (manager st')) = (from + j)%nat /\
     Int64.wrap (pool.totalGenerated (manager st'))
       = Int64.wrap (pool.totalGenerated (manager st)
                     + Z.of_nat (completed lib from j))) /\
  Int64.wrap (pool.totalServed (manager st'))
    = Int64.wrap (pool.totalServed (manager st) + total (accounted <$> answers)).
Proof.
  induction steps as [|s steps IH]; intros st st' answers Htyped; cbn [exec].
  - intros [= <- <-]. cbn. rewrite Z.add_0_r.
    split; [reflexivity|]. split; [reflexivity|]. split; [|reflexivity].
    exists 0%nat. cbn. split; [lia | f_equal; lia].
  - inversion Htyped as [|? ? Hs Hsteps]; subst.
    destruct (exec_step st s) as [st1 answers1] eqn:Hstep.
    destruct (exec st1 steps) as [st2 answers2] eqn:Hrest.
    intros [= <- <-].
    apply exec_step_counters in Hstep as (Hcfg1 & Hlib1 & (j1 & Hruns1 & Hgen1) & Hserved1);
      [|exact Hs].
    apply IH in Hrest as (Hcfg2 & Hlib2 & (j2 & Hruns2 & Hgen2) & Hserved2);
      [|exact Hsteps].
    split; [congruence|]. split; [congruence|]. split.
    + exists (j1 + j2)%nat. split; [lia|].
      rewrite Hgen2, Hlib1, Hruns1, completed_add.
      rewrite <- wrap_wrap_add, Hgen1, wrap_wrap_add. f_equal. lia.
    + rewrite Hserved2, <- wrap_wrap_add, Hserved1, wrap_wrap_add. f_equal.
      rewrite fmap_app. unfold total. rewrite foldr_app.
      generalize (accounted <$> answers2) as l2.
      generalize (accounted <$> answers1) as l1.
      intros l1 l2. induction l1 as [|x l1 IHl]; cbn; [lia|]. cbn in IHl. lia.
Qed.

(** Along every such trace a pool that starts within [MaxPoolSize] stays
    within it. *)
Lemma bound_along_traces (steps : list step) :
  forall (st st' : system) (answers : list answer),
  exec st steps = (st', answers) ->
  len (pool.preParams (manager st)) <= pool.MaxPoolSize (pool.config (manager st)) ->
  pool.config (manager st') = pool.config (manager st) /\
  len (pool.preParams (manager st')) <= pool.MaxPoolSize (pool.config (manager st')).
Proof.
  induction steps as [|s steps IH]; intros st st' answers; cbn [exec].
  - intros [= <- <-]. tauto.
  - destruct (exec_step st s) as [st1 answers1] eqn:Hstep.
    destruct (exec st1 steps) as [st2 answers2] eqn:Hrest.
    intros [= <- <-] Hbound.
    assert (Hone : pool.config (manager st1) = pool.config (manager st) /\
                   len (pool.preParams (manager st1))
                     <= pool.MaxPoolSize (pool.config (manager st1))).
    { destruct s as [count| |]; cbn [exec_step] in Hstep.
      - pose proof (GetPreParams_within_bound (manager st) count Hbound) as [Hcfg Hle].
        destruct (pool.GetPreParams (manager st) count) as [[r m'] started].
        injection Hstep as <- _. cbn in *. rewrite Hcfg. split; [reflexivity | lia].
      - destruct (pool.worker_iteration (manager st)) as [it m'] eqn:Hit.
        apply worker_iteration_counters in Hit as ((Hcfg & Hpool & _) & _).
        assert (manager st1 = m') as -> by (destruct it; simplify_eq; done).
        rewrite Hcfg, Hpool. tauto.
      - destruct (paramsCh st) as [|params rest]; simplify_eq; [tauto|].
        cbn. apply collect_within_bound. exact Hbound. }
    destruct Hone as [Hcfg1 Hb1].
    apply IH in Hrest as [Hcfg2 Hb2]; [|exact Hb1].
    split; [congruence | exact Hb2].
Qed.

(** * Further properties of the code *)

(** ** The wire encoding of large integers *)

Lemma Z_of_byte_of_Z (z : Z) : big.Z_of_byte (big.byte_of_Z z) = z mod 256.
Proof.
  unfold big.Z_of_byte, big.byte_of_Z.
  pose proof (Z.mod_pos_bound z 256 ltac:(lia)) as Hm.
  destruct (Byte.of_N (Z.to_N (z mod 256))) as [b|] eqn:Hb.
  - apply Byte.to_of_N in Hb. cbn. rewrite Hb. lia.
  - apply Byte.of_N_None_iff in Hb. lia.
Qed.

Lemma Z_of_byte_range (b : Byte.byte) : 0 <= big.Z_of_byte b < 256.
Proof.
  unfold big.Z_of_byte. pose proof (Byte.to_N_bounded b). lia.
Qed.

(** With enough fuel the digits of [n] denote [n]. *)
Lemma value_le_digits (fuel : nat) :
  forall n : Z, 0 <= n < 256 ^ Z.of_nat fuel -> value_le (big.digits fuel n) = n.
Proof.
  induction fuel as [|fuel IH]; intros n Hn.
  - cbn in *. lia.
  - cbn [big.digits]. destruct (Z.leb_spec n 0) as [Hz | Hpos]; [cbn; lia|].
    cbn [value_le foldr]. fold (value_le (big.digits fuel (n / 256))).
    rewrite IH, Z_of_byte_of_Z.
    + pose proof (Z.div_mod n 256 ltac:(lia)). lia.
    + rewrite Nat2Z.inj_succ, Z.pow_succ_r in Hn by lia.
      split; [apply Z.div_pos; lia|].
      apply Z.div_lt_upper_bound; lia.
Qed.

Lemma SetBytes_rev (ds : list Byte.byte) : big.SetBytes (rev ds) = value_le ds.
Proof.
  unfold big.SetBytes, value_le.
  rewrite <- fold_left_rev_right, rev_involutive.
  induction ds as [|d ds IH]; cbn; [reflexivity|]. rewrite IH. lia.
Qed.

Lemma enough_fuel (n : Z) :
  0 <= n -> n < 256 ^ Z.of_nat (Z.to_nat (Z.log2 n) + 1).
Proof.
  intros Hn.
  replace (Z.of_nat (Z.to_nat (Z.log2 n) + 1)) with (Z.log2 n + 1)
    by (pose proof (Z.log2_nonneg n); lia).
  destruct (Z.eq_dec n 0) as [-> | Hne]; [cbn; lia|].
  pose proof (Z.log2_spec n ltac:(lia)) as [_ Hhi].
  pose proof (Z.log2_nonneg n) as Hlog.
  eapply Z.lt_le_trans; [exact Hhi|].
  rewrite <- Z.add_1_r.
  apply Z.pow_le_mono_l. lia.
Qed.

Lemma SetBytes_Bytes (x : Z) : big.SetBytes (big.Bytes x) = Z.abs x.
Proof.
  unfold big.Bytes. rewrite SetBytes_rev.
  apply value_le_digits. split; [lia|]. apply enough_fuel. lia.
Qed.

Lemma SetBytes_nonneg (buf : list Byte.byte) : 0 <= big.SetBytes buf.
Proof.
  unfold big.SetBytes.
  assert (H : forall acc, 0 <= acc ->
            0 <= fold_left (fun a b => a * 256 + big.Z_of_byte b) buf acc).
  { induction buf as [|b buf IH]; intros acc Hacc; cbn; [exact Hacc|].
    apply IH. pose proof (Z_of_byte_range b). lia. }
  apply H. lia.
Qed.

(** X1.  Decoding the bytes that [Bytes] wrote gives the absolute value of
    the number: a non-negative number survives the wire, a negative one
    comes back as its opposite; and whatever bytes arrive, [SetBytes] never
    yields a negative number. *)
Theorem bytes_round_trip (x : Z) (buf : list Byte.byte) :
  big.SetBytes (big.Bytes x) = Z.abs x /\
  (0 <= x -> big.SetBytes (big.Bytes x) = x) /\
  (x < 0 -> big.SetBytes (big.Bytes x) = - x) /\
  0 <= big.SetBytes buf.
Proof.
  rewrite SetBytes_Bytes.
  split; [reflexivity|]. split; [lia|]. split; [lia|]. apply SetBytes_nonneg.
Qed.

(** X1 at 258, which is written as the two bytes 01 02, and at -258. *)
Lemma bytes_round_trip_witness :
  big.Bytes 258 = [Byte.x01; Byte.x02] /\
  big.SetBytes (big.Bytes 258) = 258 /\
  big.SetBytes (big.Bytes (-258)) = 258.
Proof.
  split; [reflexivity|].
  pose proof (bytes_round_trip 258 []) as (_ & Hpos & _).
  pose proof (bytes_round_trip (-258) []) as (_ & _ & Hneg & _).
  split; [apply Hpos; lia | apply Hneg; lia].
Defined.

Lemma digits_last_nonzero (fuel : nat) :
  forall n : Z, 0 <= n < 256 ^ Z.of_nat fuel ->
  last (big.digits fuel n) <> Some Byte.x00.
Proof.
  induction fuel as [|fuel IH]; intros n Hn; [cbn; discriminate|].
  cbn [big.digits]. destruct (Z.leb_spec n 0) as [Hz | Hpos]; [cbn; discriminate|].
  rewrite Nat2Z.inj_succ, Z.pow_succ_r in Hn by lia.
  assert (Hq : 0 <= n / 256 < 256 ^ Z.of_nat fuel).
  { split; [apply Z.div_pos; lia | apply Z.div_lt_upper_bound; lia]. }
  destruct (big.digits fuel (n / 256)) as [|d ds] eqn:Hds.
  - cbn. intros [= Hzero].
    assert (Hval : value_le (big.digits fuel (n / 256)) = n / 256)
      by (apply value_le_digits; exact Hq).
    rewrite Hds in Hval. cbn in Hval.
    pose proof (Z_of_byte_of_Z n) as Hb. rewrite Hzero in Hb. cbn in Hb.
    pose proof (Z.div_mod n 256 ltac:(lia)). lia.
  - rewrite last_cons_cons. rewrite <- Hds. apply IH. exact Hq.
Qed.

(** X2.  [Bytes] writes the canonical big-endian form: nothing for zero,
    no leading zero byte, and the same bytes for a number and its
    opposite. *)
Theorem Bytes_canonical (x : Z) :
  big.Bytes 0 = [] /\
  big.Bytes (- x) = big.Bytes x /\
  head (big.Bytes x) <> Some Byte.x00.
Proof.
  split; [reflexivity|]. split.
  - unfold big.Bytes. by rewrite Z.abs_opp.
  - unfold big.Bytes.
    set (ds := big.digits _ _).
    pose proof (head_reverse ds) as Hhead. unfold reverse in Hhead.
    rewrite rev_alt, Hhead. subst ds.
    apply digits_last_nonzero. split; [lia|]. apply enough_fuel. lia.
Qed.

(** ** Bundles on the wire *)

(** X3.  A bundle that the server could convert arrives at the client with
    the absolute value of each of its twelve numbers and with its
    generation instant cut down to whole seconds. *)
Theorem wire_round_trip (p : pool.PreParamsData) (w : pb.PreParamsData) :
  server.toWire p = Some w ->
  let c := client.fromWire w in
  (client.PaillierKey c ≫= paillier.N) = Z.abs <$> (pool.PaillierKey p ≫= paillier.N) /\
  (client.PaillierKey c ≫= paillier.LambdaN)
    = Z.abs <$> (pool.PaillierKey p ≫= paillier.LambdaN) /\
  (client.PaillierKey c ≫= paillier.PhiN)
    = Z.abs <$> (pool.PaillierKey p ≫= paillier.PhiN) /\
  (client.PaillierKey c ≫= paillier.P) = Z.abs <$> (pool.PaillierKey p ≫= paillier.P) /\
  (client.PaillierKey c ≫= paillier.Q) = Z.abs <$> (pool.PaillierKey p ≫= paillier.Q) /\
  client.NTildei c = Z.abs <$> pool.NTildei p /\
  client.H1i c = Z.abs <$> pool.H1i p /\
  client.H2i c = Z.abs <$> pool.H2i p /\
  client.Alpha c = Z.abs <$> pool.Alpha p /\
  client.Beta c = Z.abs <$> pool.Beta p /\
  client.P c = Z.abs <$> pool.P p /\
  client.Q c = Z.abs <$> pool.Q p /\
  client.GeneratedAt c
    = pool.GeneratedAt p - pool.GeneratedAt p mod time.Second.
Proof.
  destruct p as [key nTildei h1i h2i alpha beta pp qq at_].
  unfold server.toWire. cbn [pool.PaillierKey pool.NTildei pool.H1i pool.H2i
    pool.Alpha pool.Beta pool.P pool.Q pool.GeneratedAt].
  intros Hw. destruct key as [[n lambdaN phiN kp kq]|]; [|discriminate].
  cbn in Hw.
  destruct kp as [kp|]; [|discriminate]. destruct kq as [kq|]; [|discriminate].
  destruct n as [n|]; [|discriminate]. destruct phiN as [phiN|]; [|discriminate].
  destruct lambdaN as [lambdaN|]; [|discriminate].
  destruct nTildei as [nTildei|]; [|discriminate].
  destruct h1i as [h1i|]; [|discriminate]. destruct h2i as [h2i|]; [|discriminate].
  destruct alpha as [alpha|]; [|discriminate]. destruct beta as [beta|]; [|discriminate].
  destruct pp as [pp|]; [|discriminate]. destruct qq as [qq|]; [|discriminate].
  cbn in Hw. injection Hw as <-.
  cbn -[big.SetBytes big.Bytes time.Unix time.Unix_of time.Second Z.modulo Z.sub].
  rewrite !SetBytes_Bytes.
  repeat (split; [reflexivity|]).
  unfold time.Unix, time.Unix_of.
  pose proof (Z.div_mod at_ time.Second ltac:(unfold time.Second; lia)). lia.
Qed.

(** X3 at the first sample bundle. *)
Lemma wire_round_trip_witness :
  exists w, server.toWire (sample.B 1) = Some w /\
    client.NTildei (client.fromWire w) = Some 1 /\
    client.GeneratedAt (client.fromWire w) = 0.
Proof.
  eexists. split; [reflexivity|].
  edestruct (wire_round_trip (sample.B 1)) as (_ & _ & _ & _ & _ & Hn & Hrest);
    [reflexivity|].
  split; [exact Hn|].
  destruct Hrest as (_ & _ & _ & _ & _ & _ & Hat). exact Hat.
Defined.

(** The conversion succeeds exactly on the bundles without a nil pointer. *)
Lemma toWire_is_Some (p : pool.PreParamsData) :
  is_Some (server.toWire p) <-> complete p.
Proof.
  destruct p as [key nTildei h1i h2i alpha beta pp qq at_].
  unfold server.toWire, complete, complete_key.
  cbn [pool.PaillierKey pool.NTildei pool.H1i pool.H2i
       pool.Alpha pool.Beta pool.P pool.Q pool.GeneratedAt].
  split.
  - intros [w Hw].
    destruct key as [[n lambdaN phiN kp kq]|]; [|discriminate]. cbn in Hw.
    destruct kp; [|discriminate]. destruct kq; [|discriminate].
    destruct n; [|discriminate]. destruct phiN; [|discriminate].
    destruct lambdaN; [|discriminate]. destruct nTildei; [|discriminate].
    destruct h1i; [|discriminate]. destruct h2i; [|discriminate].
    destruct alpha; [|discriminate]. destruct beta; [|discriminate].
    destruct pp; [|discriminate]. destruct qq; [|discriminate].
    cbn. split; [eexists; split; [reflexivity|]|]; repeat split; eauto.
  - intros ((k & -> & [? ?] & [? ?] & [? ?] & [? ?] & [? ?])
            & [? ?] & [? ?] & [? ?] & [? ?] & [? ?] & [? ?] & [? ?]).
    destruct k; cbn in *. subst. cbn. eauto.
Qed.

(** X4.  The handler panics exactly when one of the bundles that the
    manager hands it has a nil pointer (a nil Paillier key field or a nil
    number, as in a bundle loaded from a pool file that lacks the field);
    otherwise it returns a response with one wire bundle per bundle. *)
Theorem handler_panics_on_nil_field (s : server.Server) (n : N)
    (elapsed : Duration) (result : list pool.PreParamsData)
    (m' : pool.Manager) (started : list pool.spawned) :
  (normalized n <= 100)%N ->
  pool.GetPreParams (server.poolManager s) (normalized n)
    = ((Some result, None), m', started) ->
  let s' := {| server.poolManager := m'; server.startTime := server.startTime s |} in
  (Exists (fun p => ~ complete p) result ->
   server.GetPreParams s n elapsed = (server.Panicked, s', started)) /\
  (Forall complete result ->
   exists pbParams,
     mapM server.toWire result = Some pbParams /\
     server.GetPreParams s n elapsed
       = (server.Returned
            (Some {| pb.Params := pbParams;
                     pb.GenerationTimeMs := time.Milliseconds elapsed |})
            None, s', started)).
Proof.
  intros Hacc Hget s'.
  unfold server.GetPreParams. fold (normalized n).
  assert ((100 <? normalized n)%N = false) as -> by (apply N.ltb_ge; lia).
  rewrite Hget. change (default [] (Some result)) with result.
  split.
  - intros Hnil.
    destruct (mapM server.toWire result) as [pbParams|] eqn:Hconv; [|reflexivity].
    exfalso.
    assert (Hall : Forall (fun p => is_Some (server.toWire p)) result).
    { apply mapM_is_Some. eauto. }
    apply Exists_exists in Hnil as (p & Hin & Hp).
    apply Hp, toWire_is_Some. rewrite Forall_forall in Hall. by apply Hall.
  - intros Hall.
    assert (Hsome : is_Some (mapM server.toWire result)).
    { apply mapM_is_Some. eapply Forall_impl; [exact Hall|].
      intros p Hp. by apply toWire_is_Some. }
    destruct Hsome as [pbParams Hconv]. exists pbParams.
    rewrite Hconv. split; reflexivity.
Qed.

(** X4 at a pool whose only bundle was loaded without its [n_tildei]: the
    request for it panics. *)
Lemma handler_panics_on_nil_field_witness :
  let file := sample.poolFile [sample.entryWithoutNTildei 2] in
  let m := pool.NewManager (generator.NewGenerator (sample.working 10))
             (sample.cfg 10 20 5) (sample.diskWith file) 0 in
  exists s' started,
    server.GetPreParams (server.NewServer m 0) 1 0 = (server.Panicked, s', started).
Proof.
  intros file m. do 2 eexists.
  eapply (proj1 (handler_panics_on_nil_field (server.NewServer m 0) 1 0 _ _ _
                   ltac:(vm_compute; discriminate) eq_refl)).
  apply Exists_cons_hd. intros (_ & [x Hx] & _). vm_compute in Hx. discriminate.
Defined.

(** ** What a request returns *)

(** The loop in full: on success the result is extended by the bundles of
    the runs it made, in order; on failure the error is that of the first
    failed run, wrapped twice, and the bundles generated before it are
    dropped. *)
Lemma GetPreParams_generate_result (n : nat) :
  forall (m m' : pool.Manager) (result : list pool.PreParamsData)
         (r : list pool.PreParamsData + error),
  pool.GetPreParams_generate n m result = (r, m') ->
  let lib := generator.library (pool.generator m) in
  let from := generator.runs (pool.generator m) in
  match r with
  | inl result' =>
      result' = result ++ drawn lib from n /\
      generator.runs (pool.generator m') = (from + n)%nat
  | inr err =>
      exists j : nat,
        (j < n)%nat /\
        (forall i, (i < j)%nat -> completes lib (from + i) = true) /\
        completes lib (from + j) = false /\
        generator.runs (pool.generator m') = (from + S j)%nat /\
        err = wrapf "failed to generate params"
                (wrapf "failed to generate parameters" (run_error (lib (from + j)%nat)))
  end.
Proof.
  induction n as [|n IH]; intros m m' result r; cbn [pool.GetPreParams_generate].
  - intros [= <- <-]. cbn. rewrite app_nil_r, Nat.add_0_r. split; reflexivity.
  - unfold pool.generateSinglePreParams, generator.GeneratePreParams.
    destruct (generator.library (pool.generator m) (generator.runs (pool.generator m)))
      as [e|e|params] eqn:Hrun.
    + intros [= <- <-]. exists 0%nat. rewrite !Nat.add_0_r, Hrun. cbn.
      unfold completes. rewrite Hrun.
      repeat split; [lia | intros i Hi; lia | lia].
    + intros [= <- <-]. exists 0%nat. rewrite !Nat.add_0_r, Hrun. cbn.
      unfold completes. rewrite Hrun.
      repeat split; [lia | intros i Hi; lia | lia].
    + intros Hloop. apply IH in Hloop. cbn in Hloop.
      destruct r as [result'|err].
      * destruct Hloop as [-> Hruns]. cbn [drawn]. rewrite Hrun.
        rewrite <- app_assoc. split; [reflexivity | lia].
      * destruct Hloop as (j & Hj & Hbefore & Hfail & Hruns & ->).
        exists (S j).
        replace (generator.runs (pool.generator m) + S j)%nat
          with (S (generator.runs (pool.generator m)) + j)%nat by lia.
        split; [lia|]. split.
        { intros [|i] Hi.
          - rewrite Nat.add_0_r. unfold completes. by rewrite Hrun.
          - replace (generator.runs (pool.generator m) + S i)%nat
              with (S (generator.runs (pool.generator m)) + i)%nat by lia.
            apply Hbefore. lia. }
        split; [exact Hfail|]. split; [lia | reflexivity].
Qed.

(** A successful call in full, run from its entry to its return with no
    other goroutine in between. *)
Lemma GetPreParams_success (m m' : pool.Manager) (count : N)
    (result : list pool.PreParamsData) (started : list pool.spawned) :
  (count < 2 ^ 32)%N ->
  pool.GetPreParams m count = ((Some result, None), m', started) ->
  let c := N.to_nat (normalized count) in
  let k := Nat.min c (length (pool.preParams m)) in
  let lib := generator.library (pool.generator m) in
  let from := generator.runs (pool.generator m) in
  result = take k (pool.preParams m) ++ drawn lib from (c - k) /\
  pool.preParams m' = drop k (pool.preParams m) /\
  generator.runs (pool.generator m') = (from + (c - k))%nat.
Proof.
  intros Hc. apply normalized_uint32 in Hc.
  rewrite GetPreParams_eq by exact Hc. cbv zeta.
  set (c := N.to_nat (normalized count)).
  set (k := Nat.min c (length (pool.preParams m))).
  destruct (Nat.ltb_spec k c) as [Hlt | Hge].
  - destruct (pool.GetPreParams_generate _ _ _) as [[res|err] m2] eqn:Hloop;
      [|discriminate].
    pose proof Hloop as Hinv.
    apply GetPreParams_generate_inv in Hinv as ((_ & Hpool & _) & _).
    apply GetPreParams_generate_result in Hloop as [-> Hruns].
    intros [= <- <- _]. cbn in *. repeat split; assumption.
  - intros [= <- <- _]. cbn.
    replace (c - k)%nat with 0%nat by lia. cbn.
    rewrite app_nil_r, Nat.add_0_r. repeat split.
Qed.


(** X6.  When a request fails, its error is the error of the first failed
    run of the library, wrapped once by each layer it crosses: the status
    message that the client of the server sees spells out the whole chain.
    The generator was run up to and including that run, and the pool has
    lost the bundles taken. *)
Theorem request_failure_reports_first_error (s : server.Server) (n : N)
    (elapsed : Duration) (err : error) (m' : pool.Manager)
    (started : list pool.spawned) :
  (normalized n <= 100)%N ->
  pool.GetPreParams (server.poolManager s) (normalized n)
    = ((None, Some err), m', started) ->
  let m := server.poolManager s in
  let lib := generator.library (pool.generator m) in
  let from := generator.runs (pool.generator m) in
  let c := N.to_nat (normalized n) in
  let k := Nat.min c (length (pool.preParams m)) in
  exists j : nat,
    (j < c - k)%nat /\
    (forall i, (i < j)%nat -> completes lib (from + i) = true) /\
    completes lib (from + j) = false /\
    generator.runs (pool.generator m') = (from + S j)%nat /\
    pool.preParams m' = drop k (pool.preParams m) /\
    server.GetPreParams s n elapsed
      = (server.Returned None
           (Some {| server.Code := server.Internal;
                    server.Message :=
                      ("failed to get pre-params: failed to generate params: "
                       +:+ "failed to generate parameters: "
                       +:+ run_error (lib (from + j)%nat))%string |}),
         {| server.poolManager := m'; server.startTime := server.startTime s |},
         started).
Proof.
  intros Hacc Hget. cbv zeta.
  set (c := N.to_nat (normalized n)).
  set (k := Nat.min c (length (pool.preParams (server.poolManager s)))).
  assert (Hc : (normalized (normalized n) < 2 ^ 32)%N).
  { rewrite normalized_idem. change (2 ^ 32)%N with 4294967296%N. lia. }
  pose proof Hget as Hget'.
  rewrite GetPreParams_eq in Hget' by exact Hc. cbv zeta in Hget'.
  rewrite normalized_idem in Hget'. fold c k in Hget'.
  destruct (Nat.ltb_spec k c) as [Hlt | Hge]; [|discriminate].
  destruct (pool.GetPreParams_generate _ _ _) as [[res|e] m2] eqn:Hloop;
    [discriminate|].
  injection Hget' as <- <- _.
  pose proof Hloop as Hinv.
  apply GetPreParams_generate_inv in Hinv as ((_ & Hpool & _) & _).
  apply GetPreParams_generate_result in Hloop
    as (j & Hj & Hbefore & Hfail & Hruns & ->).
  cbn in Hbefore, Hfail, Hruns, Hpool.
  exists j. repeat (split; [assumption|]).
  unfold server.GetPreParams. fold (normalized n).
  assert ((100 <? normalized n)%N = false) as -> by (apply N.ltb_ge; lia).
  rewrite Hget. reflexivity.
Qed.

(** X6 at an empty pool and a library that times out on its first run. *)
Lemma request_failure_reports_first_error_witness :
  let m := sample.manager (sample.cfg 2 4 1) sample.broken [] in
  exists s' started,
    server.GetPreParams (server.NewServer m 0) 1 0
      = (server.Returned None
           (Some {| server.Code := server.Internal;
                    server.Message :=
                      "failed to get pre-params: failed to generate params: failed to generate parameters: failed to generate Paillier key: timeout" |}),
         s', started).
Proof.
  intros m.
  pose proof (request_failure_reports_first_error (server.NewServer m 0) 1 0 _ _ _
                ltac:(vm_compute; discriminate) eq_refl)
    as (j & Hj & _ & _ & _ & _ & Hreply).
  assert (j = 0%nat) as -> by (vm_compute in Hj; lia).
  do 2 eexists. exact Hreply.
Defined.

(** ** The status of the pool *)

(** X7.  The status that the server reports is read off the manager: the
    depth of the pool and [MinPoolSize] (both converted to [uint32]), one
    generation in progress exactly when a refill round is, and the two
    counters.  The defaults of the type assertions are never used, and the
    single entry is keyed [1024_true] with 1024 bits whatever prime size
    is configured. *)
Theorem status_reports_the_manager (s : server.Server) :
  let m := server.poolManager s in
  server.GetPoolStatus s
  = {| pb.Pools :=
         {[ "1024_true"%string :=
              {| pb.Bits := 1024;
                 pb.SafePrime := true;
                 pb.Available := len (pool.preParams m) mod 2 ^ 32;
                 pb.TargetSize := pool.MinPoolSize (pool.config m) mod 2 ^ 32;
                 pb.Generating := if pool.isGenerating m then 1 else 0;
                 pb.LastRefillTime := 0 |} ]};
       pb.TotalGenerated := pool.totalGenerated m;
       pb.TotalServed := pool.totalServed m |}.
Proof.
  intros m. unfold server.GetPoolStatus, pool.GetPoolStatus. fold m.
  rewrite insert_empty. reflexivity.
Qed.

(** ** Construction, save and restart *)

Lemma validParams_have_keys (params : list (option pool.PreParamsData)) :
  Forall (fun p => is_Some (pool.PaillierKey p)) (pool.validParams params).
Proof.
  induction params as [|[p|] rest IH]; cbn; [constructor| |exact IH].
  destruct (pool.PaillierKey p) as [k|] eqn:Hk; [|exact IH].
  constructor; [rewrite Hk; eauto | exact IH].
Qed.

(** [loadFromDisk] either leaves the manager as it is or replaces its
    pool by the valid entries of a decoded pool file. *)
Lemma loadFromDisk_inv (m : pool.Manager) (disk : fs.Disk) :
  exists s : list pool.PreParamsData,
    pool.loadFromDisk m disk = pool.with_preParams s m /\
    (s = pool.preParams m \/
     exists doc data,
       fs.files disk !! pool.poolFilePath m = Some (fs.Document doc) /\
       pool.unmarshal_poolData doc = Some data /\
       s = pool.validParams (pool.PreParams data)).
Proof.
  assert (Hsame : pool.with_preParams (pool.preParams m) m = m) by (by destruct m).
  unfold pool.loadFromDisk.
  destruct (fs.files disk !! pool.poolFilePath m) as [[| |doc]|] eqn:Hfile;
    try (exists (pool.preParams m); rewrite Hsame; split; [reflexivity | by left]).
  destruct (pool.unmarshal_poolData doc) as [data|] eqn:Hdoc.
  - exists (pool.validParams (pool.PreParams data)). split; [reflexivity|].
    right. eauto.
  - exists (pool.preParams m). rewrite Hsame. split; [reflexivity | by left].
Qed.

(** X8.  Construction never fails and never carries statistics over:
    whatever the disk holds, the new manager has zero counters, no round or
    save in progress, the generator it was given, and a pool in which
    every bundle has a Paillier key; when the pool file is absent,
    unreadable, not JSON or not decodable, the pool is empty. *)
Theorem construction_starts_clean (gen : generator.Generator)
    (config : pool.SimpleConfig) (disk : fs.Disk) (now : Time) :
  let m := pool.NewManager gen config disk now in
  pool.totalGenerated m = 0 /\ pool.totalServed m = 0 /\
  pool.isGenerating m = false /\ pool.isSaving m = false /\
  pool.stopCh m = false /\ pool.startTime m = now /\
  pool.generator m = gen /\
  pool.poolFilePath m
    = fs.Join (pool.PoolDir (pool.withDefaults config)) "prime_pool.json" /\
  Forall (fun p => is_Some (pool.PaillierKey p)) (pool.preParams m) /\
  (unusable (fs.files disk !! pool.poolFilePath m) -> pool.preParams m = []).
Proof.
  unfold pool.NewManager.
  set (pool0 := {| pool.config := pool.withDefaults config;
                   pool.generator := gen; pool.preParams := [] |}).
  destruct (loadFromDisk_inv pool0 disk) as (s & -> & Hs).
  cbn. repeat (split; [reflexivity|]).
  destruct Hs as [-> | (doc & data & Hfile & Hdoc & ->)].
  - split; [constructor | reflexivity].
  - split; [apply validParams_have_keys|].
    cbn in Hfile. rewrite Hfile. cbn. rewrite Hdoc. discriminate.
Qed.

(** X8 at a disk whose pool file is not JSON. *)
Lemma construction_starts_clean_witness :
  let disk := {| fs.files := {[ "./prime_pool/prime_pool.json"%string := fs.Malformed ]};
                 fs.on_write := fs.Completes |} in
  pool.preParams
    (pool.NewManager (generator.NewGenerator (sample.working 1))
       (sample.cfg 2 4 1) disk 0)
  = [].
Proof.
  intros disk.
  apply (construction_starts_clean (generator.NewGenerator (sample.working 1))
           (sample.cfg 2 4 1) disk 0).
  vm_compute. exact I.
Defined.

(** X9.  Stopping a manager and constructing a new one with the same
    configuration over the disk it left gives the pool back, bundle for
    bundle, while the statistics start again from zero.  The save of
    [Stop] must go through: no save in flight, a disk that accepts the
    write. *)
Theorem restart_keeps_the_pool (m : pool.Manager) (gen : generator.Generator)
    (disk : fs.Disk) (now later : Time) :
  pool.isSaving m = false ->
  fs.read_only disk = false ->
  representable (pool.config m) ->
  Forall (fun p => is_Some (pool.PaillierKey p)) (pool.preParams m) ->
  pool.PoolDir (pool.config m) <> ""%string ->
  pool.poolFilePath m = fs.Join (pool.PoolDir (pool.config m)) "prime_pool.json" ->
  let '(stopped, disk') := pool.Stop m disk now in
  let m' := pool.NewManager gen (pool.config m) disk' later in
  pool.stopCh stopped = true /\
  pool.preParams stopped = pool.preParams m /\
  pool.preParams m' = pool.preParams m /\
  pool.totalGenerated m' = 0 /\ pool.totalServed m' = 0.
Proof.
  intros Hidle Hrw Hcfg Hkeys Hdir Hpath.
  unfold pool.Stop, pool.saveToDisk, fs.WriteFile.
  cbn [pool.isSaving pool.with_stopCh]. rewrite Hidle.
  unfold fs.read_only in Hrw.
  destruct (fs.on_write disk) eqn:Hw; [|discriminate..].
  cbn [pool.stopCh pool.with_isSaving pool.with_stopCh pool.preParams
       pool.config pool.poolFilePath].
  split; [reflexivity|]. split; [reflexivity|].
  unfold pool.NewManager, pool.loadFromDisk.
  cbn [pool.poolFilePath pool.config pool.withDefaults pool.PoolDir fs.files].
  assert (String.eqb (pool.PoolDir (pool.config m)) "" = false) as ->
    by (apply String.eqb_neq; exact Hdir).
  rewrite <- Hpath, lookup_insert_eq.
  rewrite unmarshal_marshal_poolData by exact Hcfg.
  cbn [pool.PreParams pool.preParams pool.with_preParams
       pool.totalGenerated pool.totalServed].
  split; [by apply validParams_all|]. split; reflexivity.
Qed.

(** X9 at a pool of two bundles that has served and generated. *)
Lemma restart_keeps_the_pool_witness :
  let m := pool.with_totalServed 7
             (sample.manager (sample.cfg 2 4 1) (sample.working 10)
                [sample.B 1; sample.B 2]) in
  let disk' := (pool.Stop m sample.emptyDisk 5).2 in
  let m' := pool.NewManager (generator.NewGenerator (sample.working 20))
              (pool.config m) disk' 9 in
  pool.preParams m' = [sample.B 1; sample.B 2] /\ pool.totalServed m' = 0.
Proof.
  intros m disk' m'.
  pose proof (restart_keeps_the_pool m (generator.NewGenerator (sample.working 20))
                sample.emptyDisk 5 9) as H.
  destruct (pool.Stop m sample.emptyDisk 5) as [stopped d] eqn:Hstop.
  subst m' disk'. cbn [snd].
  destruct H as (_ & _ & Hpool & _ & Hserved).
  - reflexivity.
  - reflexivity.
  - unfold representable, Int64.in_range. vm_compute. intuition discriminate.
  - repeat constructor; eexists; reflexivity.
  - discriminate.
  - reflexivity.
  - split; [exact Hpool | exact Hserved].
Defined.

(** X10.  [saveToDisk] changes nothing in memory and, on disk, at most the
    pool file: the pool, the counters and the flags come back as they
    were and every other path keeps its content.  A call that is skipped
    (a save is in flight) or whose write fails at the open leaves the disk
    as it was; a write that goes through, or fails only at the close,
    leaves the encoding of the pool; and a write that fails after the file
    was truncated leaves a file that is not a JSON document, so that the
    pool saved before is lost: a manager that loads this file keeps the
    pool it has, which is empty at construction. *)
Theorem save_touches_only_the_pool_file (m fresh : pool.Manager) (disk : fs.Disk)
    (now : Time) :
  let '(m', disk') := pool.saveToDisk m disk now in
  m' = m /\
  fs.on_write disk' = fs.on_write disk /\
  (forall path, path <> pool.poolFilePath m ->
     fs.files disk' !! path = fs.files disk !! path) /\
  (pool.isSaving m = true \/ fs.on_write disk = fs.FailsAtOpen -> disk' = disk) /\
  (pool.isSaving m = false ->
   fs.on_write disk = fs.Completes \/ fs.on_write disk = fs.FailsAfterOpen true ->
   fs.files disk' !! pool.poolFilePath m
     = Some (fs.Document (pool.marshal_poolData (pool.preParams m) now (pool.config m)))) /\
  (pool.isSaving m = false ->
   fs.on_write disk = fs.FailsAfterOpen false ->
   fs.files disk' !! pool.poolFilePath m = Some fs.Malformed /\
   (pool.poolFilePath fresh = pool.poolFilePath m ->
    pool.loadFromDisk fresh disk' = fresh)).
Proof.
  unfold pool.saveToDisk, fs.WriteFile.
  destruct (pool.isSaving m) eqn:Hflag.
  - split; [reflexivity|]. split; [reflexivity|].
    split; [reflexivity|]. split; [reflexivity|].
    split; intros Hno; discriminate.
  - cbn [pool.poolFilePath pool.with_isSaving pool.preParams pool.config].
    assert (Hm : pool.with_isSaving false (pool.with_isSaving true m) = m).
    { destruct m. cbn in *. by rewrite Hflag. }
    destruct (fs.on_write disk) as [| |all_written] eqn:Hw; rewrite Hm;
      cbn [fs.files fs.on_write].
    + split; [reflexivity|]. split; [reflexivity|]. split.
      { intros path Hne. by rewrite lookup_insert_ne. }
      split; [intros [? | ?]; discriminate|].
      split; [intros _ _; apply lookup_insert_eq | intros _ ?; discriminate].
    + split; [reflexivity|]. split; [exact Hw|].
      split; [reflexivity|]. split; [reflexivity|].
      split; [intros _ [?|?]; discriminate | intros _ ?; discriminate].
    + split; [reflexivity|]. split; [reflexivity|]. split.
      { intros path Hne. by rewrite lookup_insert_ne. }
      split; [intros [? | ?]; discriminate|].
      split.
      * intros _ [?|Hall]; [discriminate|]. injection Hall as ->.
        apply lookup_insert_eq.
      * intros _ Hall. injection Hall as ->.
        split; [apply lookup_insert_eq|].
        intros Hpath. unfold pool.loadFromDisk. cbn [fs.files].
        by rewrite Hpath, lookup_insert_eq.
Qed.

(** X10 at a disk that holds a saved pool of one bundle and fails a write
    after the truncation: the save of a pool of two bundles leaves a file
    from which a new manager starts empty. *)
Lemma save_touches_only_the_pool_file_witness :
  let m := sample.manager (sample.cfg 2 4 1) (sample.working 10)
             [sample.B 1; sample.B 2] in
  let disk := {| fs.files :=
                   {[ "./prime_pool/prime_pool.json"%string :=
                        fs.Document (pool.marshal_poolData [sample.B 1] 1
                                       (sample.cfg 2 4 1)) ]};
                 fs.on_write := fs.FailsAfterOpen false |} in
  let gen := generator.NewGenerator (sample.working 20) in
  pool.preParams (pool.NewManager gen (sample.cfg 2 4 1) disk 2) = [sample.B 1] /\
  pool.preParams
    (pool.NewManager gen (sample.cfg 2 4 1) (pool.saveToDisk m disk 3).2 0) = [].
Proof.
  intros m disk gen. split; [vm_compute; reflexivity|].
  set (fresh := sample.manager (sample.cfg 2 4 1) (sample.working 20) []).
  pose proof (save_touches_only_the_pool_file m fresh disk 3) as H.
  destruct (pool.saveToDisk m disk 3) as [m' disk'].
  destruct H as (_ & _ & _ & _ & _ & Htorn). cbn [snd].
  destruct (Htorn eq_refl eq_refl) as [_ Hload].
  change (pool.NewManager gen (sample.cfg 2 4 1) disk' 0)
    with (pool.loadFromDisk fresh disk').
  by rewrite (Hload eq_refl).
Defined.

(** Running a trace in two parts. *)
Lemma exec_app (steps1 steps2 : list step) (st : system) :
  exec st (steps1 ++ steps2)
  = let '(st1, answers1) := exec st steps1 in
    let '(st2, answers2) := exec st1 steps2 in
    (st2, answers1 ++ answers2).
Proof.
  revert st. induction steps1 as [|s steps1 IH]; intros st; cbn [app exec].
  - destruct (exec st steps2). reflexivity.
  - destruct (exec_step st s) as [st1 answers1]. rewrite IH.
    destruct (exec st1 steps1) as [st2 answers2].
    destruct (exec st2 steps2) as [st3 answers3].
    by rewrite app_assoc.
Qed.

(** ** Starting a refill round *)

(** X11.  A refill round starts its workers only after the ten seconds of
    warm-up, only when no round is in progress, and only when the pool is
    below [MinPoolSize]; it then raises [isGenerating] and starts at least
    one worker, at most one per missing bundle, never more than
    [MaxConcurrent] (one when [MaxConcurrent] is not positive), and exactly
    one on a host with at most three cores.  Otherwise it leaves the
    manager as it was. *)
Theorem refill_round_admission (m : pool.Manager) (now : Time) (numCPU : Z) :
  Int64.in_range (now - pool.startTime m) ->
  Int64.in_range (pool.MinPoolSize (pool.config m) - len (pool.preParams m)) ->
  match pool.refillPool_begin m now numCPU with
  | (pool.Skipped, m') =>
      m' = m /\
      (now - pool.startTime m < 10 * time.Second \/
       pool.isGenerating m = true \/
       pool.MinPoolSize (pool.config m) <= len (pool.preParams m))
  | (pool.Started needed workers, m') =>
      10 * time.Second <= now - pool.startTime m /\
      pool.isGenerating m = false /\
      m' = pool.with_isGenerating true m /\
      needed = pool.MinPoolSize (pool.config m) - len (pool.preParams m) /\
      1 <= workers <= needed /\
      workers <= Z.max 1 (pool.MaxConcurrent (pool.config m)) /\
      (numCPU <= 3 -> workers = 1)
  end.
Proof.
  intros Htime Hneeded. unfold pool.refillPool_begin, time.Sub.
  rewrite sub_in_range by exact Htime.
  destruct (Z.ltb_spec (now - pool.startTime m) (10 * time.Second)) as [Hwarm | Hlate].
  { split; [reflexivity | by left]. }
  destruct (pool.isGenerating m) eqn:Hgen.
  { split; [reflexivity | right; by left]. }
  cbn [pool.config pool.preParams pool.with_isGenerating].
  destruct (Z.leb_spec (pool.MinPoolSize (pool.config m)) (len (pool.preParams m)))
    as [Hfull | Hlow].
  { split; [|right; by right]. destruct m. cbn in *. by rewrite Hgen. }
  rewrite sub_in_range by exact Hneeded.
  set (needed := pool.MinPoolSize (pool.config m) - len (pool.preParams m)).
  assert (Hpos : 0 < needed) by (subst needed; lia).
  split; [exact Hlate|]. split; [reflexivity|]. split; [reflexivity|].
  split; [reflexivity|].
  destruct (Z.leb_spec (pool.MaxConcurrent (pool.config m)) 0) as [Hmc | Hmc].
  - cbn [andb Z.ltb Z.compare Pos.compare].
    change (1 <? 1) with false. cbn [andb].
    destruct (Z.ltb_spec needed 1); [lia|]. split; [lia|]. split; lia.
  - destruct (Z.ltb_spec 1 (pool.MaxConcurrent (pool.config m))) as [Hmany | Hone];
      cbn [andb].
    + destruct (Z.leb_spec numCPU 3) as [Hcpu | Hcpu].
      * destruct (Z.ltb_spec needed 1); [lia|]. split; [lia|]. split; lia.
      * destruct (Z.ltb_spec needed (pool.MaxConcurrent (pool.config m)));
          (split; [lia|]); split; lia.
    + destruct (Z.ltb_spec needed (pool.MaxConcurrent (pool.config m)));
        (split; [lia|]); split; lia.
Qed.

(** X11 at a pool of one bundle with [MinPoolSize = 10] and
    [MaxConcurrent = 2], fifteen seconds after the start: two workers on
    four cores. *)
Lemma refill_round_admission_witness :
  let m := sample.manager (sample.cfg 10 20 5) (sample.working 10) [sample.B 1] in
  pool.refillPool_begin m (15 * time.Second) 4
  = (pool.Started 9 2, pool.with_isGenerating true m).
Proof.
  intros m.
  pose proof (refill_round_admission m (15 * time.Second) 4) as H.
  destruct (pool.refillPool_begin m (15 * time.Second) 4) as [[|needed workers] m'] eqn:Hrun;
    [vm_compute in Hrun; discriminate|].
  destruct H as (_ & _ & -> & -> & _).
  - vm_compute. split; discriminate.
  - vm_compute. split; discriminate.
  - vm_compute in Hrun. injection Hrun as <-. reflexivity.
Defined.

(** ** The refill at work *)




(** A worker iteration and a deposit when the pool has reached
    [MaxPoolSize] but not [MinPoolSize]: the generator runs, and whatever
    it produced is discarded. *)
Lemma produce_then_discard (st : system) :
  paramsCh st = [] ->
  pool.stopCh (manager st) = false ->
  pool.MaxPoolSize (pool.config (manager st)) <= len (pool.preParams (manager st)) ->
  len (pool.preParams (manager st)) < pool.MinPoolSize (pool.config (manager st)) ->
  exists st',
    exec st [Produce; Deposit] = (st', []) /\
    paramsCh st' = [] /\
    pool.stopCh (manager st') = false /\
    pool.config (manager st') = pool.config (manager st) /\
    pool.preParams (manager st') = pool.preParams (manager st) /\
    generator.runs (pool.generator (manager st'))
      = S (generator.runs (pool.generator (manager st))).
Proof.
  intros Hch Hstop Hmax Hmin.
  unfold exec, exec_step, pool.worker_iteration.
  rewrite Hstop.
  destruct (Z.leb_spec (pool.MinPoolSize (pool.config (manager st)))
              (len (pool.preParams (manager st)))); [lia|].
  unfold pool.generateSinglePreParams, generator.GeneratePreParams.
  destruct (generator.library (pool.generator (manager st))
              (generator.runs (pool.generator (manager st)))) as [e|e|params];
    rewrite Hch; cbn [manager paramsCh app].
  - eexists. split; [reflexivity|]. cbn. repeat split. exact Hstop.
  - eexists. split; [reflexivity|]. cbn. repeat split. exact Hstop.
  - unfold pool.collect.
    cbn [pool.preParams pool.config pool.with_totalGenerated pool.with_generator].
    destruct (Z.ltb_spec (len (pool.preParams (manager st)))
                (pool.MaxPoolSize (pool.config (manager st)))); [lia|].
    eexists. split; [reflexivity|]. cbn. repeat split. exact Hstop.
Qed.

(** X13.  [MinPoolSize] above [MaxPoolSize] is accepted at construction and
    makes a refill useless: once the pool has reached [MaxPoolSize] while
    still below [MinPoolSize], every round of generate-and-deposit runs the
    generator once more and the collector discards what it produced; the
    pool never changes. *)
Theorem refill_beyond_MaxPoolSize_is_discarded (n : nat) :
  forall st : system,
  paramsCh st = [] ->
  pool.stopCh (manager st) = false ->
  pool.MaxPoolSize (pool.config (manager st)) <= len (pool.preParams (manager st)) ->
  len (pool.preParams (manager st)) < pool.MinPoolSize (pool.config (manager st)) ->
  exists st',
    exec st (produce_and_deposit n) = (st', []) /\
    pool.preParams (manager st') = pool.preParams (manager st) /\
    pool.config (manager st') = pool.config (manager st) /\
    paramsCh st' = [] /\
    generator.runs (pool.generator (manager st'))
      = (generator.runs (pool.generator (manager st)) + n)%nat.
Proof.
  induction n as [|n IH]; intros st Hch Hstop Hmax Hmin.
  - exists st. cbn. rewrite Nat.add_0_r. repeat split. exact Hch.
  - destruct (produce_then_discard st Hch Hstop Hmax Hmin)
      as (st1 & Hpair & Hch1 & Hstop1 & Hcfg1 & Hpool1 & Hruns1).
    destruct (IH st1) as (st' & Hrest & Hpool' & Hcfg' & Hch' & Hruns').
    + exact Hch1.
    + exact Hstop1.
    + by rewrite Hcfg1, Hpool1.
    + by rewrite Hcfg1, Hpool1.
    + exists st'. split.
      * cbn [produce_and_deposit].
        change (Produce :: Deposit :: produce_and_deposit n)
          with ([Produce; Deposit] ++ produce_and_deposit n).
        rewrite exec_app, Hpair, Hrest. reflexivity.
      * split; [congruence|]. split; [congruence|]. split; [exact Hch'|].
        rewrite Hruns', Hruns1. lia.
Qed.

(** X13 at [MinPoolSize = 3], [MaxPoolSize = 1] and a pool of one bundle:
    two rounds run the generator twice and leave the pool as it was. *)
Lemma refill_beyond_MaxPoolSize_is_discarded_witness :
  let st := {| manager := sample.manager (sample.cfg 3 1 1) (sample.working 5)
                            [sample.B 1];
               paramsCh := [] |} in
  exists st',
    exec st [Produce; Deposit; Produce; Deposit] = (st', []) /\
    pool.preParams (manager st') = [sample.B 1] /\
    generator.runs (pool.generator (manager st')) = 2%nat.
Proof.
  intros st.
  destruct (refill_beyond_MaxPoolSize_is_discarded 2 st)
    as (st' & Hrun & Hpool & _ & _ & Hruns).
  - reflexivity.
  - reflexivity.
  - vm_compute. discriminate.
  - vm_compute. reflexivity.
  - exists st'. split; [exact Hrun|]. split; [exact Hpool | exact Hruns].
Defined.

(** ** The collector of a refill round *)

Lemma saveToDisk_manager (m : pool.Manager) (disk : fs.Disk) (now : Time) :
  (pool.saveToDisk m disk now).1 = m.
Proof.
  unfold pool.saveToDisk, fs.WriteFile.
  destruct (pool.isSaving m) eqn:Hflag; [reflexivity|].
  destruct (fs.on_write disk); cbn; destruct m; cbn in *; by rewrite Hflag.
Qed.

Lemma with_preParams_same (m : pool.Manager) :
  pool.with_preParams (pool.preParams m) m = m.
Proof. by destruct m. Qed.

(** The loop with [generated] bundles appended so far: what it appends is
    a selection, in order, of what the channel delivered; the count follows;
    the pool does not pass [MaxPoolSize] unless it was beyond it already. *)
Lemma collector_inv (events : list pool.received) :
  forall (m m' : pool.Manager) (generated : Z) (disk disk' : fs.Disk) (now : Time)
         (e : pool.round_end) (started : list pool.spawned),
  pool.collector events m generated disk now = (e, m', disk', started) ->
  0 <= generated ->
  generated + len events <= Int64.max_int ->
  exists accepted : list pool.PreParamsData,
    m' = pool.with_preParams (pool.preParams m ++ accepted) m /\
    accepted `sublist_of` delivered events /\
    len (pool.preParams m ++ accepted)
      <= Z.max (len (pool.preParams m)) (pool.MaxPoolSize (pool.config m)) /\
    match e with
    | pool.Finished g => g = generated + len accepted /\ 0 < g
    | pool.Running g => g = generated + len accepted
    | pool.DivisionByZero => generated = 0 /\ accepted = []
    | _ => True
    end.
Proof.
  assert (Hnil : forall m : pool.Manager,
            m = pool.with_preParams (pool.preParams m ++ []) m).
  { intros m. by rewrite app_nil_r, with_preParams_same. }
  unfold len.
  induction events as [|ev events IH];
    intros m m' generated disk disk' now e started; cbn [pool.collector];
    unfold len.
  - intros [= <- <- <- <-] Hpos Hroom. exists []. split; [apply Hnil|].
    split; [constructor|]. rewrite app_nil_r. split; [lia|]. cbn. lia.
  - rewrite length_cons, Nat2Z.inj_succ.
    destruct ev as [|[err|]|[params|]].
    + intros [= <- <- <- <-] Hpos Hroom. exists []. split; [apply Hnil|].
      split; [apply sublist_nil_l|]. rewrite app_nil_r. split; [lia | exact I].
    + intros [= <- <- <- <-] Hpos Hroom. exists []. split; [apply Hnil|].
      split; [apply sublist_nil_l|]. rewrite app_nil_r. split; [lia | exact I].
    + intros Hrun Hpos Hroom. apply IH in Hrun as (accepted & Hm' & Hsub & Hlen & He);
        [|lia|lia].
      exists accepted. repeat split; assumption.
    + destruct (Z.ltb_spec (Z.of_nat (length (pool.preParams m)))
                  (pool.MaxPoolSize (pool.config m))) as [Hfree | Hfull].
      * destruct (pool.collector events _ _ disk now) as [[[e2 m2] disk2] started2]
          eqn:Hrun.
        intros [= <- <- <- <-] Hpos Hroom.
        assert (Hadd : Int64.add generated 1 = generated + 1).
        { apply add_in_range. unfold Int64.in_range, Int64.min_int. lia. }
        rewrite Hadd in Hrun.
        apply IH in Hrun as (accepted & Hm' & Hsub & Hlen & He); [|lia|lia].
        cbn [pool.preParams pool.config pool.with_preParams] in Hm', Hlen.
        exists (params :: accepted).
        rewrite <- app_assoc in Hm', Hlen. cbn [app] in Hm', Hlen.
        split; [exact Hm'|]. split; [by apply sublist_skip|].
        rewrite length_app in Hlen. cbn [length] in Hlen.
        rewrite !length_app in *. cbn [length] in *.
        split; [lia|].
        destruct e2; try exact I; cbn [length]; lia.
      * intros Hrun Hpos Hroom.
        apply IH in Hrun as (accepted & Hm' & Hsub & Hlen & He); [|lia|lia].
        exists accepted. split; [exact Hm'|]. split; [by apply sublist_cons|].
        split; assumption.
    + unfold pool.refillPool_done.
      destruct (Z.eqb_spec generated 0) as [-> | Hne].
      * intros [= <- <- <- <-] Hpos Hroom. exists []. split; [apply Hnil|].
        split; [apply sublist_nil_l|]. rewrite app_nil_r. split; [lia|].
        split; reflexivity.
      * assert (Hsave : forall d, (if pool.AutoSave (pool.config m)
                                   then pool.saveToDisk m disk now else (m, disk))
                                  = (m, d) \/ True) by (intros; by right).
        destruct (pool.AutoSave (pool.config m)).
        -- pose proof (saveToDisk_manager m disk now) as Hm.
           destruct (pool.saveToDisk m disk now) as [m1 disk1]. cbn in Hm. subst m1.
           intros [= <- <- <- <-] Hpos Hroom. exists []. split; [apply Hnil|].
           split; [apply sublist_nil_l|]. rewrite app_nil_r. split; [lia|].
           cbn. lia.
        -- intros [= <- <- <- <-] Hpos Hroom. exists []. split; [apply Hnil|].
           split; [apply sublist_nil_l|]. rewrite app_nil_r. split; [lia|].
           cbn. lia.
Qed.

(** X14.  The collector of a refill round appends to the pool a selection,
    in order, of the bundles that the workers deliver, never past
    [MaxPoolSize]; the deferred function lowers [isGenerating] however the
    round ends.  A round that reaches its end after appending at least one
    bundle reports their number; a round that reaches its end without
    having appended any (every bundle discarded, or none delivered) does
    not complete: the division by the number of bundles in its last log
    line panics. *)
Theorem refill_collector (events : list pool.received) (m m' : pool.Manager)
    (disk disk' : fs.Disk) (now : Time) (e : pool.round_end)
    (started : list pool.spawned) :
  pool.refillPool_collect events m disk now = (e, m', disk', started) ->
  len events <= Int64.max_int ->
  exists accepted : list pool.PreParamsData,
    pool.preParams m' = pool.preParams m ++ accepted /\
    accepted `sublist_of` delivered events /\
    len (pool.preParams m')
      <= Z.max (len (pool.preParams m)) (pool.MaxPoolSize (pool.config m)) /\
    match e with
    | pool.Finished g => g = len accepted /\ 0 < g /\ pool.isGenerating m' = false
    | pool.DivisionByZero => accepted = [] /\ pool.isGenerating m' = false
    | pool.Running g => g = len accepted /\ pool.isGenerating m' = pool.isGenerating m
    | pool.Stopped | pool.Failed _ => pool.isGenerating m' = false
    end.
Proof.
  unfold pool.refillPool_collect.
  destruct (pool.collector events m 0 disk now) as [[[e1 m1] disk1] started1] eqn:Hrun.
  intros Hend Hroom.
  apply collector_inv in Hrun as (accepted & -> & Hsub & Hlen & He); [|lia|lia].
  exists accepted.
  destruct e1; injection Hend as <- <- <- <-;
    cbn [pool.preParams pool.with_preParams pool.refillPool_end
         pool.with_isGenerating pool.isGenerating];
    (split; [reflexivity|]); (split; [exact Hsub|]); (split; [exact Hlen|]).
  - reflexivity.
  - reflexivity.
  - destruct He as [-> Hpos]. repeat split; lia.
  - destruct He as [_ ->]. split; reflexivity.
  - split; [lia | reflexivity].
Qed.

(** X14 at a full pool: the bundle that arrives is discarded, the channel
    closes, and the round panics. *)
Lemma refill_collector_witness :
  let m := sample.manager (sample.cfg 3 1 1) (sample.working 5) [sample.B 1] in
  exists m' disk' started,
    pool.refillPool_collect
      [pool.FromParamsCh (Some (sample.B 2)); pool.FromParamsCh None]
      m sample.emptyDisk 0
    = (pool.DivisionByZero, m', disk', started) /\
    pool.preParams m' = [sample.B 1] /\
    pool.isGenerating m' = false.
Proof.
  intros m.
  destruct (pool.refillPool_collect
              [pool.FromParamsCh (Some (sample.B 2)); pool.FromParamsCh None]
              m sample.emptyDisk 0) as [[[e m'] disk'] started] eqn:Hrun.
  pose proof (refill_collector _ _ _ _ _ _ _ _ Hrun ltac:(vm_compute; discriminate))
    as (accepted & Hpool & _ & _ & He).
  assert (He' : e = pool.DivisionByZero).
  { vm_compute in Hrun. by injection Hrun as <- _ _ _. }
  subst e. destruct He as [-> Hflag].
  exists m', disk', started. split; [reflexivity|].
  split; [exact Hpool | exact Hflag].
Defined.

(** ** Deposits and takes *)




(** ** Invariants along traces *)

(** X16.  Along every trace of requests, worker iterations and deposits,
    in any interleaving, the pool never grows beyond [MaxPoolSize]: its
    depth stays at most the larger of its depth at the start and
    [MaxPoolSize], and the configuration never changes. *)
Theorem pool_never_grows_beyond_MaxPoolSize (steps : list step) :
  forall (st st' : system) (answers : list answer),
  exec st steps = (st', answers) ->
  pool.config (manager st') = pool.config (manager st) /\
  len (pool.preParams (manager st'))
    <= Z.max (len (pool.preParams (manager st)))
             (pool.MaxPoolSize (pool.config (manager st))).
Proof.
  induction steps as [|s steps IH]; intros st st' answers; cbn [exec].
  - intros [= <- <-]. split; [reflexivity | lia].
  - destruct (exec_step st s) as [st1 answers1] eqn:Hstep.
    destruct (exec st1 steps) as [st2 answers2] eqn:Hrest.
    intros [= <- <-].
    assert (Hone : pool.config (manager st1) = pool.config (manager st) /\
                   len (pool.preParams (manager st1))
                     <= Z.max (len (pool.preParams (manager st)))
                              (pool.MaxPoolSize (pool.config (manager st)))).
    { destruct s as [count| |]; cbn [exec_step] in Hstep.
      - destruct (GetPreParams_pool (manager st) count) as [Hcfg Hpool].
        destruct (pool.GetPreParams (manager st) count) as [[r m'] started].
        injection Hstep as <- _. cbn in *. split; [exact Hcfg|].
        rewrite Hpool. unfold len. rewrite length_drop. lia.
      - destruct (pool.worker_iteration (manager st)) as [it m'] eqn:Hit.
        apply worker_iteration_counters in Hit as ((Hcfg & Hpool & _) & _).
        assert (manager st1 = m') as -> by (destruct it; simplify_eq; done).
        rewrite Hcfg, Hpool. split; [reflexivity | lia].
      - destruct (paramsCh st) as [|params rest]; simplify_eq;
          [split; [reflexivity | lia]|].
        cbn [manager]. unfold pool.collect.
        destruct (Z.ltb_spec (len (pool.preParams (manager st)))
                    (pool.MaxPoolSize (pool.config (manager st))));
          cbn [fst pool.config pool.preParams pool.with_preParams];
          (split; [reflexivity|]); [|lia].
        rewrite len_app. change (len [params]) with 1. lia. }
    destruct Hone as [Hcfg1 Hb1].
    apply IH in Hrest as [Hcfg2 Hb2].
    split; [congruence|]. rewrite Hcfg1 in Hb2. lia.
Qed.

(** X16 at a pool of three bundles with [MaxPoolSize = 2] (as a load can
    leave it): a worker's bundle is discarded and the pool stays at
    three. *)
Lemma pool_never_grows_beyond_MaxPoolSize_witness :
  let st := {| manager := sample.manager (sample.cfg 5 2 1) (sample.working 10)
                            [sample.B 1; sample.B 2; sample.B 3];
               paramsCh := [] |} in
  len (pool.preParams (manager (exec st [Produce; Deposit]).1)) <= 3.
Proof.
  intros st.
  destruct (exec st [Produce; Deposit]) as [st' answers] eqn:Hrun.
  apply (pool_never_grows_beyond_MaxPoolSize _ _ _ _ Hrun).
Defined.

(** ** The counters of the generator and of the manager *)

Lemma drift_generateSinglePreParams (m m' : pool.Manager)
    (r : pool.PreParamsData + error) :
  pool.generateSinglePreParams m = (r, m') -> drift m' = drift m.
Proof.
  unfold pool.generateSinglePreParams, generator.GeneratePreParams, drift.
  destruct (generator.library _ _); intros [= <- <-]; cbn;
    unfold Int64.add; rewrite Nat2Z.inj_succ;
    replace (Int64.wrap (generator.generationCount (pool.generator m) + 1)
             - Z.succ (Z.of_nat (generator.runs (pool.generator m))))
      with (Int64.wrap (generator.generationCount (pool.generator m) + 1)
            + - Z.succ (Z.of_nat (generator.runs (pool.generator m)))) by lia;
    rewrite wrap_wrap_add; f_equal; lia.
Qed.

Lemma drift_GetPreParams_generate (n : nat) :
  forall (m m' : pool.Manager) (result : list pool.PreParamsData)
         (r : list pool.PreParamsData + error),
  pool.GetPreParams_generate n m result = (r, m') -> drift m' = drift m.
Proof.
  induction n as [|n IH]; intros m m' result r; cbn [pool.GetPreParams_generate].
  - by intros [= <- <-].
  - destruct (pool.generateSinglePreParams m) as [[params|err] m1] eqn:Hone;
      apply drift_generateSinglePreParams in Hone.
    + intros Hloop. apply IH in Hloop. congruence.
    + intros [= <- <-]. exact Hone.
Qed.

Lemma drift_GetPreParams (m : pool.Manager) (count : N) :
  drift (pool.GetPreParams m count).1.2 = drift m.
Proof.
  unfold pool.GetPreParams. rewrite GetPreParams_take_eq. cbv beta iota zeta.
  destruct (0 <? _); [|reflexivity].
  destruct (pool.GetPreParams_generate _ _ _) as [[res|err] m2] eqn:Hloop;
    apply drift_GetPreParams_generate in Hloop; exact Hloop.
Qed.

Lemma drift_exec_step (st : system) (s : step) :
  drift (manager (exec_step st s).1) = drift (manager st).
Proof.
  destruct s as [count| |]; cbn [exec_step].
  - pose proof (drift_GetPreParams (manager st) count) as H.
    destruct (pool.GetPreParams (manager st) count) as [[r m'] started]. exact H.
  - unfold pool.worker_iteration.
    destruct (pool.stopCh (manager st)); [reflexivity|].
    destruct (_ <=? _); [reflexivity|].
    destruct (pool.generateSinglePreParams (manager st)) as [[params|err] m1] eqn:Hone;
      apply drift_generateSinglePreParams in Hone; exact Hone.
  - destruct (paramsCh st) as [|params rest]; [reflexivity|].
    cbn [fst manager]. unfold pool.collect. destruct (_ <? _); reflexivity.
Qed.

Lemma drift_exec (steps : list step) :
  forall st : system, drift (manager (exec st steps).1) = drift (manager st).
Proof.
  induction steps as [|s steps IH]; intros st; cbn [exec]; [reflexivity|].
  pose proof (drift_exec_step st s) as Hstep.
  destruct (exec_step st s) as [st1 answers1].
  pose proof (IH st1) as Hrest.
  destruct (exec st1 steps) as [st2 answers2]. cbn [fst] in *. congruence.
Qed.

(** X17.  Along every trace, in any interleaving and up to the wrap-around
    of [int64], the two counters that the code updates under a lock follow
    the runs of the library: the generator's [generationCount] (under
    [g.mu]) grows by the number of runs made, failed ones included; and
    the manager's [totalServed] (under [m.mu]) grows, for each request, by
    the bundles returned if it succeeded and by the bundles taken from the
    pool if it failed.  ([totalGenerated] is left out: the code increments
    it outside any lock, in the workers and in the requests at once.) *)
Theorem counters_follow_the_runs (steps : list step) (st st' : system)
    (answers : list answer) :
  Forall well_typed steps ->
  exec st steps = (st', answers) ->
  let g := pool.generator (manager st) in
  let g' := pool.generator (manager st') in
  exists j : nat,
    generator.runs g' = (generator.runs g + j)%nat /\
    Int64.wrap (generator.generationCount g')
      = Int64.wrap (generator.generationCount g + Z.of_nat j) /\
    Int64.wrap (pool.totalServed (manager st'))
      = Int64.wrap (pool.totalServed (manager st) + total (accounted <$> answers)).
Proof.
  intros Htyped Hrun g g'.
  pose proof (drift_exec steps st) as Hdrift. rewrite Hrun in Hdrift.
  cbn [fst] in Hdrift. unfold drift in Hdrift. fold g g' in Hdrift.
  apply counters_along_traces in Hrun as (_ & _ & (j & Hruns & _) & Hserved);
    [|exact Htyped].
  fold g g' in Hruns.
  exists j. split; [exact Hruns|]. split; [|exact Hserved].
  rewrite Hruns in Hdrift.
  replace (generator.generationCount g')
    with (generator.generationCount g' - Z.of_nat (generator.runs g + j)
          + Z.of_nat (generator.runs g + j)) by lia.
  rewrite <- wrap_wrap_add, Hdrift, wrap_wrap_add. f_equal. lia.
Qed.

(** X17 at an empty pool and a library whose first run completes and whose
    second fails: a request that succeeds, then one that fails. *)
Lemma counters_follow_the_runs_witness :
  let st := {| manager := sample.manager (sample.cfg 2 4 1)
                            (sample.failing_after 1 10) [];
               paramsCh := [] |} in
  exists st' answers,
    exec st [Request 1; Request 1] = (st', answers) /\
    generator.runs (pool.generator (manager st')) = 2%nat /\
    generator.generationCount (pool.generator (manager st')) = 2 /\
    pool.totalServed (manager st') = 1.
Proof.
  intros st.
  destruct (exec st [Request 1; Request 1]) as [st' answers] eqn:Hrun.
  pose proof (counters_follow_the_runs [Request 1; Request 1] st st' answers) as H.
  destruct H as (j & Hruns & _).
  - repeat constructor.
  - exact Hrun.
  - exists st', answers. split; [reflexivity|].
    vm_compute in Hrun. injection Hrun as <- _. repeat split.
Defined.

(** ** The launcher *)

(** X18.  Whatever the configuration file says, and also without one, the
    launched manager generates Paillier keys of 2048 bits: the launcher has
    no setting for that size.  Settings the file leaves at zero get the
    launcher's defaults (in particular two concurrent generations, not the
    four of [NewManager]), and a refill interval given as a number of
    seconds within the range of a [time.Duration] is used as given. *)
Theorem launcher_settings (decoded : option main.Config)
    (gen : generator.Generator) (disk : fs.Disk) (now : Time) :
  let c := pool.config (main.poolManager decoded gen disk now) in
  pool.PaillierBitSize c = 2048 /\
  (forall file, decoded = Some file ->
     pool.MaxConcurrent c
       = (if main.MaxConcurrent file =? 0 then 2 else main.MaxConcurrent file) /\
     pool.MinPoolSize c
       = (if main.MinPoolSize file =? 0 then 10 else main.MinPoolSize file) /\
     (0 < main.RefillInterval file <= 9223372036 ->
      pool.RefillInterval c = main.RefillInterval file * time.Second)) /\
  (decoded = None -> pool.MaxConcurrent c = 2 /\ pool.AutoSave c = true).
Proof.
  intros c. subst c. unfold main.poolManager. rewrite NewManager_config.
  split; [reflexivity|]. split.
  - intros file ->. cbn.
    split; [destruct (main.MaxConcurrent file =? 0) eqn:H; rewrite ?H; reflexivity|].
    split; [destruct (main.MinPoolSize file =? 0) eqn:H; rewrite ?H; reflexivity|].
    intros [Hpos Hmax].
    destruct (Z.eqb_spec (main.RefillInterval file) 0) as [Hz | _]; [lia|].
    unfold Int64.mul. rewrite wrap_in_range.
    + destruct (Z.eqb_spec (main.RefillInterval file * time.Second) 0) as [Hz | _];
        [unfold time.Second in Hz; lia | reflexivity].
    + unfold Int64.in_range, Int64.min_int, Int64.max_int, time.Second. lia.
  - intros ->. split; reflexivity.
Qed.

(** X18 at a configuration file that asks for a refill every 45 seconds
    and nothing else. *)
Lemma launcher_settings_witness :
  let file := {| main.Address := ""; main.MinPoolSize := 0; main.MaxPoolSize := 0;
                 main.RefillThreshold := 0; main.PrimeBitSize := 0;
                 main.MaxConcurrent := 0; main.PoolDir := "";
                 main.AutoSave := false; main.BackgroundGen := false;
                 main.RefillInterval := 45 |} in
  let c := pool.config (main.poolManager (Some file)
                          (generator.NewGenerator (sample.working 1))
                          sample.emptyDisk 0) in
  pool.MaxConcurrent c = 2 /\ pool.RefillInterval c = 45 * time.Second.
Proof.
  intros file c.
  destruct (launcher_settings (Some file) (generator.NewGenerator (sample.working 1))
              sample.emptyDisk 0) as (_ & Hfile & _).
  destruct (Hfile file eq_refl) as (Hmc & _ & Hint).
  split; [exact Hmc|]. apply Hint. cbn. lia.
Defined.

(** ** Cold start *)

(** X19.  A manager constructed without a pool file starts empty; [Start]
    asks for a refill (the threshold being positive), but a refill round
    that begins within ten seconds of the construction does nothing,
    whoever asked for it; a request made in the meantime is served
    entirely by synchronous generation, one run of the library per bundle,
    and asks for a refill in its turn. *)
Theorem cold_start (gen : generator.Generator) (config : pool.SimpleConfig)
    (disk : fs.Disk) (now later : Time) (numCPU : Z) :
  fs.files disk
    !! fs.Join (pool.PoolDir (pool.withDefaults config)) "prime_pool.json" = None ->
  0 <= later - now < 10 * time.Second ->
  0 < pool.RefillThreshold (pool.withDefaults config) ->
  let m := pool.NewManager gen config disk now in
  pool.preParams m = [] /\
  pool.GoRefillPool ∈ pool.Start m /\
  pool.refillPool_begin m later numCPU = (pool.Skipped, m) /\
  forall (n : N) (result : list pool.PreParamsData) (m' : pool.Manager)
         (started : list pool.spawned),
    (n < 2 ^ 32)%N ->
    pool.GetPreParams m n = ((Some result, None), m', started) ->
    result = drawn (generator.library gen) (generator.runs gen)
               (N.to_nat (normalized n)) /\
    pool.GoRefillPool ∈ started.
Proof.
  intros Hfile Hwarm Hthr m.
  assert (Hm : m = {| pool.config := pool.withDefaults config;
                      pool.generator := gen;
                      pool.preParams := [];
                      pool.stopCh := false;
                      pool.isGenerating := false;
                      pool.isSaving := false;
                      pool.poolFilePath :=
                        fs.Join (pool.PoolDir (pool.withDefaults config))
                          "prime_pool.json";
                      pool.startTime := now;
                      pool.totalGenerated := 0;
                      pool.totalServed := 0 |}).
  { subst m. unfold pool.NewManager, pool.loadFromDisk.
    cbn [pool.poolFilePath]. by rewrite Hfile. }
  clearbody m. subst m.
  split; [reflexivity|]. split.
  { unfold pool.Start. cbn [pool.preParams pool.config].
    change (len []) with 0.
    destruct (Z.ltb_spec 0 (pool.RefillThreshold (pool.withDefaults config))); [|lia].
    apply elem_of_app. right. by apply list_elem_of_singleton. }
  split.
  { unfold pool.refillPool_begin, time.Sub. cbn [pool.startTime].
    rewrite sub_in_range.
    - destruct (Z.ltb_spec (later - now) (10 * time.Second)); [reflexivity | lia].
    - unfold Int64.in_range, Int64.min_int, Int64.max_int, time.Second in *. lia. }
  intros n result m' started Hn Hget.
  pose proof (refill_signal_entry_depth_iff
                {| pool.config := pool.withDefaults config;
                   pool.generator := gen;
                   pool.preParams := [];
                   pool.stopCh := false;
                   pool.isGenerating := false;
                   pool.isSaving := false;
                   pool.poolFilePath :=
                     fs.Join (pool.PoolDir (pool.withDefaults config))
                       "prime_pool.json";
                   pool.startTime := now;
                   pool.totalGenerated := 0;
                   pool.totalServed := 0 |} n) as Hsignal.
  rewrite Hget in Hsignal. cbn [snd pool.preParams pool.config] in Hsignal.
  apply GetPreParams_success in Hget as (-> & _ & _); [|exact Hn].
  cbn [pool.preParams pool.generator length].
  rewrite Nat.min_0_r, take_0, Nat.sub_0_r. cbn [app].
  split; [reflexivity|]. apply Hsignal. change (len []) with 0. lia.
Qed.

(** X19 at the default configuration, five seconds after the start, and a
    request for two bundles. *)
Lemma cold_start_witness :
  let m := pool.NewManager (generator.NewGenerator (sample.working 1))
             sample.zeroConfig sample.emptyDisk 0 in
  pool.refillPool_begin m (5 * time.Second) 4 = (pool.Skipped, m) /\
  exists m' started,
    pool.GetPreParams m 2 = ((Some [sample.B 1; sample.B 2], None), m', started).
Proof.
  intros m.
  destruct (cold_start (generator.NewGenerator (sample.working 1)) sample.zeroConfig
              sample.emptyDisk 0 (5 * time.Second) 4) as (_ & _ & Hskip & Hserve).
  - reflexivity.
  - vm_compute. split; [discriminate | reflexivity].
  - reflexivity.
  - split; [exact Hskip|].
    destruct (pool.GetPreParams m 2) as [[[res err] m'] started] eqn:Hget.
    assert (Hshape : exists result, res = Some result /\ err = None).
    { vm_compute in Hget. injection Hget as <- <- _ _. eauto. }
    destruct Hshape as (result & -> & ->).
    destruct (Hserve 2%N result m' started ltac:(vm_compute; reflexivity) Hget)
      as [-> _].
    exists m', started. reflexivity.
Defined.

(** ** The pool as a slice *)

Lemma contents_ext (h h' : slices.heap) (s : slices.slice) :
  h' !! slices.arr s = h !! slices.arr s -> slices.contents h' s = slices.contents h s.
Proof. unfold slices.contents. by intros ->. Qed.

Lemma contents_length (h : slices.heap) (s : slices.slice) :
  slices.within h s -> length (slices.contents h s) = slices.slen s.
Proof.
  intros (a & Ha & Hcap & Hlen). unfold slices.contents. rewrite Ha. cbn.
  rewrite length_take, length_drop. lia.
Qed.

(** The window of [k + 1] cells from [o], once its last cell is written. *)
Lemma take_drop_insert_end (a : list slices.cell) (o k : nat) (x : slices.cell) :
  (o + k < length a)%nat ->
  take (S k) (drop o (<[(o + k)%nat := x]> a)) = take k (drop o a) ++ [x].
Proof.
  intros Hin. rewrite drop_insert_ge by lia.
  replace (o + k - o)%nat with k by lia.
  rewrite (take_S_r _ _ x).
  - by rewrite take_insert_ge by lia.
  - apply list_lookup_insert_eq. rewrite length_drop. lia.
Qed.

(** The window of one cell at [o], once that cell is written. *)
Lemma take_drop_insert_start (a : list slices.cell) (o : nat) (x : slices.cell) :
  (o < length a)%nat -> take 1 (drop o (<[o := x]> a)) = [x].
Proof.
  intros Hin. pose proof (take_drop_insert_end a o 0 x) as H.
  rewrite Nat.add_0_r in H. rewrite H by lia. by rewrite take_0.
Qed.

(** [append] with room left: the array is written in place. *)
Lemma append_in_place (grow : nat -> nat) (h : slices.heap) (s : slices.slice)
    (x : slices.cell) (a : list slices.cell) :
  h !! slices.arr s = Some a ->
  (slices.slen s < slices.scap s)%nat ->
  exists h',
    slices.append grow h s x
      = (h', {| slices.arr := slices.arr s; slices.off := slices.off s;
                slices.slen := S (slices.slen s); slices.scap := slices.scap s |}) /\
    h' !! slices.arr s = Some (<[(slices.off s + slices.slen s)%nat := x]> a) /\
    (forall j, j <> slices.arr s -> h' !! j = h !! j) /\
    length h' = length h.
Proof.
  intros Ha Hroom. unfold slices.append.
  assert ((slices.slen s <? slices.scap s)%nat = true) as ->
    by (apply Nat.ltb_lt; exact Hroom).
  eexists. split; [reflexivity|]. split.
  - by rewrite list_lookup_alter_eq, Ha.
  - split; [intros j Hj; by apply list_lookup_alter_ne | apply length_alter].
Qed.

(** [append] without room: a new array is allocated and the old one is
    left alone. *)
Lemma append_reallocates (grow : nat -> nat) (h : slices.heap) (s : slices.slice)
    (x : slices.cell) :
  slices.within h s ->
  (slices.scap s <= slices.slen s)%nat ->
  exists h' s',
    slices.append grow h s x = (h', s') /\
    slices.arr s' = length h /\
    slices.contents h' s' = slices.contents h s ++ [x] /\
    (forall j, (j < length h)%nat -> h' !! j = h !! j) /\
    length h' = S (length h).
Proof.
  intros Hin Hfull. unfold slices.append.
  assert ((slices.slen s <? slices.scap s)%nat = false) as ->
    by (apply Nat.ltb_ge; exact Hfull).
  do 2 eexists. split; [reflexivity|]. cbn [slices.arr]. split; [reflexivity|].
  split; [|split].
  - unfold slices.contents at 1. cbn [slices.arr slices.off slices.slen].
    rewrite lookup_app_r, Nat.sub_diag by lia.
    cbn [lookup list_lookup default from_option id]. rewrite drop_0.
    pose proof (contents_length h s Hin) as Hlen.
    rewrite take_app_ge by lia. rewrite Hlen.
    replace (S (slices.slen s) - slices.slen s)%nat with 1%nat by lia.
    reflexivity.
  - intros j Hj. by rewrite lookup_app_l.
  - rewrite length_app. cbn. lia.
Qed.

(** [append] shows the old elements and the new one, in a slice that lies
    within its array, whichever way it takes. *)
Lemma append_contents (grow : nat -> nat) (h : slices.heap) (s : slices.slice)
    (x : slices.cell) :
  slices.within h s ->
  slices.contents (slices.append grow h s x).1 (slices.append grow h s x).2
    = slices.contents h s ++ [x] /\
  slices.within (slices.append grow h s x).1 (slices.append grow h s x).2 /\
  slices.slen (slices.append grow h s x).2 = S (slices.slen s).
Proof.
  intros Hin. destruct (decide (slices.slen s < slices.scap s)%nat) as [Hroom|Hfull].
  - destruct Hin as (a & Ha & Hcap & Hlen).
    destruct (append_in_place grow h s x a Ha Hroom) as (h' & -> & Hh' & _ & _).
    cbn [fst snd]. split; [|split; [|reflexivity]].
    + unfold slices.contents. cbn [slices.arr slices.off slices.slen].
      rewrite Hh', Ha. cbn [default from_option id].
      apply take_drop_insert_end. lia.
    + exists (<[(slices.off s + slices.slen s)%nat := x]> a).
      cbn [slices.arr slices.off slices.slen slices.scap].
      rewrite length_insert. split; [exact Hh'|lia].
  - destruct (append_reallocates grow h s x Hin ltac:(lia))
      as (h' & s' & Heq & Harr & Hc & _ & _).
    rewrite Heq. cbn [fst snd]. split; [exact Hc|].
    revert Heq. unfold slices.append.
    assert ((slices.slen s <? slices.scap s)%nat = false) as ->
      by (apply Nat.ltb_ge; lia).
    intros [= <- <-]. split; [|reflexivity].
    eexists. cbn [slices.arr slices.off slices.slen slices.scap]. split; [by rewrite lookup_app_r, Nat.sub_diag by lia|].
    pose proof (contents_length h s Hin) as Hl.
    rewrite length_app, Hl. cbn [length]. rewrite length_replicate. lia.
Qed.

(** [append] leaves alone every other slice, unless it writes in place
    into the array of that slice. *)
Lemma append_frame (grow : nat -> nat) (h : slices.heap) (s t : slices.slice)
    (x : slices.cell) :
  slices.within h s -> slices.within h t ->
  ((slices.slen s < slices.scap s)%nat -> slices.arr t <> slices.arr s) ->
  slices.contents (slices.append grow h s x).1 t = slices.contents h t /\
  slices.within (slices.append grow h s x).1 t.
Proof.
  intros Hs Ht Hne.
  assert ((slices.append grow h s x).1 !! slices.arr t = h !! slices.arr t) as Hsame.
  { destruct (decide (slices.slen s < slices.scap s)%nat) as [Hroom|Hfull].
    - destruct Hs as (a & Ha & _).
      destruct (append_in_place grow h s x a Ha Hroom) as (h' & -> & _ & Hother & _).
      cbn [fst]. apply Hother. by apply Hne.
    - destruct (append_reallocates grow h s x Hs ltac:(lia))
        as (h' & s' & -> & _ & _ & Hold & _).
      cbn [fst]. apply Hold. destruct Ht as (a & Ha & _).
      by apply lookup_lt_Some in Ha. }
  split; [by apply contents_ext|].
  destruct Ht as (a & Ha & Hcap). exists a. by rewrite Hsame.
Qed.

(** The loop of the filter of [loadFromDisk], from any of its states:
    with room for the entries that are left, every [append] writes in
    place. *)
Lemma validParams_loop (grow : nat -> nat) (params : list slices.cell) :
  forall (h : slices.heap) (v : slices.slice),
    slices.within h v ->
    (slices.slen v + length params <= slices.scap v)%nat ->
    slices.within (foldl (slices.keep grow) (h, v) params).1
                  (foldl (slices.keep grow) (h, v) params).2 /\
    slices.scap (foldl (slices.keep grow) (h, v) params).2 = slices.scap v /\
    slices.contents (foldl (slices.keep grow) (h, v) params).1
                    (foldl (slices.keep grow) (h, v) params).2
      = slices.contents h v ++ (Some <$> pool.validParams params).
Proof.
  induction params as [|param rest IH]; intros h v Hin Hroom.
  - cbn. by rewrite app_nil_r.
  - cbn [foldl length] in *.
    assert (slices.keep grow (h, v) param = (h, v)
            -> pool.validParams (param :: rest) = pool.validParams rest
            -> slices.within (foldl (slices.keep grow) (slices.keep grow (h, v) param) rest).1
                 (foldl (slices.keep grow) (slices.keep grow (h, v) param) rest).2 /\
               slices.scap (foldl (slices.keep grow) (slices.keep grow (h, v) param) rest).2
                 = slices.scap v /\
               slices.contents (foldl (slices.keep grow) (slices.keep grow (h, v) param) rest).1
                 (foldl (slices.keep grow) (slices.keep grow (h, v) param) rest).2
                 = slices.contents h v ++ (Some <$> pool.validParams (param :: rest)))
      as Hskip.
    { intros -> ->. apply IH; [exact Hin|lia]. }
    destruct param as [p|]; [|by apply Hskip].
    destruct (pool.PaillierKey p) as [k|] eqn:Hk;
      [|apply Hskip; [by cbn; rewrite Hk | by cbn [pool.validParams]; rewrite Hk]].
    clear Hskip. cbn [slices.keep pool.validParams fst snd]. rewrite Hk.
    destruct (append_contents grow h v (Some p) Hin) as (Hc & Hin' & Hlen').
    pose proof Hin as (a & Ha & _).
    destruct (append_in_place grow h v (Some p) a Ha ltac:(lia))
      as (h' & Heq & _).
    rewrite Heq in Hc, Hin', Hlen' |- *. cbn [fst snd] in Hc, Hin', Hlen'.
    destruct (IH _ _ Hin') as (IH1 & IH2 & IH3);
      [cbn [slices.slen slices.scap]; lia|].
    split; [exact IH1|]. split; [exact IH2|].
    rewrite IH3, Hc, fmap_cons. by rewrite <- app_assoc.
Qed.

(** The first critical section of [GetPreParams] on a pool that holds
    some bundles but fewer than are asked for. *)
Lemma take_shortfall (m : slices.manager) (count : N) :
  (0 < slices.slen (slices.preParams m))%nat ->
  Z.of_nat (slices.slen (slices.preParams m)) < Z.of_N count ->
  exists started,
    slices.GetPreParams_take m count
      = (started, Z.of_N count,
         slices.upto (slices.preParams m) (slices.slen (slices.preParams m)),
         {| slices.store := slices.store m ++ [replicate (N.to_nat count) None];
            slices.preParams :=
              slices.from (slices.preParams m) (slices.slen (slices.preParams m));
            slices.config := slices.config m;
            slices.totalServed :=
              Int64.add (slices.totalServed m)
                        (Z.of_nat (slices.slen (slices.preParams m))) |}).
Proof.
  intros Hpos Hshort. unfold slices.GetPreParams_take, slices.make.
  assert ((count =? 0)%N = false) as -> by (apply N.eqb_neq; lia).
  cbv beta iota zeta.
  assert ((0 <? Z.of_nat (slices.slen (slices.preParams m))) = true) as ->
    by (apply Z.ltb_lt; lia).
  assert ((Z.of_nat (slices.slen (slices.preParams m)) <? Z.of_N count) = true) as ->
    by (apply Z.ltb_lt; lia).
  rewrite Nat2Z.id. cbn [slices.upto slices.slen]. eexists. reflexivity.
Qed.

(** The first critical section of [GetPreParams] on an empty pool. *)
Lemma take_empty (m : slices.manager) (count : N) :
  slices.slen (slices.preParams m) = 0%nat ->
  count <> 0%N ->
  exists started served,
    slices.GetPreParams_take m count
      = (started, Z.of_N count,
         {| slices.arr := length (slices.store m); slices.off := 0%nat;
            slices.slen := 0%nat; slices.scap := N.to_nat count |},
         {| slices.store := slices.store m ++ [replicate (N.to_nat count) None];
            slices.preParams := slices.preParams m;
            slices.config := slices.config m;
            slices.totalServed := served |}).
Proof.
  intros Hzero Hcount. unfold slices.GetPreParams_take, slices.make.
  assert ((count =? 0)%N = false) as -> by (by apply N.eqb_neq).
  cbv beta iota zeta. rewrite Hzero. cbn [Z.of_nat Z.ltb Z.compare].
  do 2 eexists. reflexivity.
Qed.

(** A window within an array of [h] stays one when [h] gets a new
    array. *)
Lemma within_alloc (h : slices.heap) (s : slices.slice) (a : list slices.cell) :
  slices.within h s ->
  slices.within (h ++ [a]) s /\
  slices.contents (h ++ [a]) s = slices.contents h s.
Proof.
  intros (b & Hb & Hcap).
  assert ((h ++ [a]) !! slices.arr s = h !! slices.arr s) as Hsame
    by (apply lookup_app_l; by apply lookup_lt_Some in Hb).
  split; [exists b; by rewrite Hsame | by apply contents_ext].
Qed.

(** [s[:k]] and [s[k:]] show the first [k] elements of [s] and the
    others, and lie within the array of [s]. *)
Lemma upto_from (h : slices.heap) (s : slices.slice) (k : nat) :
  slices.within h s -> (k <= slices.slen s)%nat ->
  slices.contents h (slices.upto s k) = take k (slices.contents h s) /\
  slices.contents h (slices.from s k) = drop k (slices.contents h s) /\
  slices.within h (slices.upto s k) /\
  slices.within h (slices.from s k).
Proof.
  intros (a & Ha & Hcap & Hlen) Hk. unfold slices.contents, slices.upto, slices.from.
  cbn [slices.arr slices.off slices.slen slices.scap]. rewrite Ha.
  cbn [default from_option id].
  split; [by rewrite take_take, Nat.min_l by lia|].
  split.
  - rewrite <- drop_drop, take_drop_commute.
    by replace (k + (slices.slen s - k))%nat with (slices.slen s) by lia.
  - split; exists a; cbn [slices.arr slices.off slices.slen slices.scap];
      (split; [exact Ha|lia]).
Qed.

(** ** The slice operations against the lists *)

(** X20.  Each on its own, the re-slicing of the pool in
    [GetPreParams] ([m.preParams[:take]], [m.preParams[take:]]) and the
    collector's [append] behave on the arrays as they do on plain lists:
    from a manager whose pool slice shows the list-level pool, the request
    starts the same goroutines, hands out a window that shows the bundles
    the list-level take returns, and leaves a pool slice that shows the
    list-level rest, with the same counter; and the collector's critical
    section leaves a pool slice that shows the list-level pool. *)
Theorem slice_operations_refine_the_lists (grow : nat -> nat)
    (m : slices.manager) (lm : pool.Manager) (count : N) (R : pool.PreParamsData) :
  represents m lm ->
  (let '(started, n, result, m') := slices.GetPreParams_take m count in
   let '(lstarted, ln, lresult, lm') := pool.GetPreParams_take lm count in
   started = lstarted /\ n = ln /\
   slices.contents (slices.store m') result = Some <$> lresult /\
   represents m' lm') /\
  represents (slices.collect grow m R) (pool.collect lm R).1.
Proof.
  intros (Hin & Hc & Hcfg & Hts).
  pose proof (contents_length _ _ Hin) as Hlen.
  rewrite Hc, length_fmap in Hlen.
  split.
  - unfold slices.GetPreParams_take, pool.GetPreParams_take, slices.make, len.
    rewrite !Hlen, <- Hcfg. cbv beta iota zeta.
    set (c := if (count =? 0)%N then 1%N else count).
    set (fresh := replicate (N.to_nat c) None).
    destruct (within_alloc _ _ fresh Hin) as (Hin1 & Hc1).
    destruct (0 <? Z.of_nat (slices.slen (slices.preParams m))) eqn:Hav.
    + set (k := Z.to_nat (if Z.of_nat (slices.slen (slices.preParams m)) <? Z.of_N c
                          then Z.of_nat (slices.slen (slices.preParams m))
                          else Z.of_N c)).
      assert (k <= slices.slen (slices.preParams m))%nat as Hk.
      { subst k. destruct (Z.ltb_spec (Z.of_nat (slices.slen (slices.preParams m)))
                                      (Z.of_N c)); lia. }
      destruct (upto_from _ _ k Hin1 Hk) as (Hup & Hfrom & _ & Hwin).
      unfold represents.
      cbn -[Int64.add slices.contents slices.upto slices.from slices.within].
      change (slices.slen (slices.upto (slices.preParams m) k)) with k.
      rewrite Hup, Hfrom, Hc1, Hc, <- fmap_take, <- fmap_drop, length_take.
      repeat split; try done.
      rewrite <- Hts. f_equal. lia.
    + unfold represents.
      cbn -[Int64.add slices.contents slices.within].
      rewrite Hc1. repeat split; try done.
      by rewrite <- Hts.
  - unfold slices.collect, pool.collect, len. rewrite Hlen, <- Hcfg.
    destruct (Z.of_nat (slices.slen (slices.preParams m))
              <? pool.MaxPoolSize (slices.config m)); [|by cbn].
    destruct (append_contents grow (slices.store m) (slices.preParams m) (Some R) Hin)
      as (Hc' & Hin' & _).
    destruct (slices.append grow (slices.store m) (slices.preParams m) (Some R))
      as [h s]. cbn [fst snd] in *.
    repeat split; try done.
    cbn. by rewrite Hc', Hc, fmap_app.
Qed.

(** A pool of two bundles in an array of two cells, asked for one
    bundle, and the deposit of a third. *)
Lemma slice_operations_refine_the_lists_witness :
  let m := {| slices.store := [[Some (sample.B 1); Some (sample.B 2)]];
              slices.preParams := {| slices.arr := 0%nat; slices.off := 0%nat;
                                    slices.slen := 2%nat; slices.scap := 2%nat |};
              slices.config := sample.cfg 10 20 5;
              slices.totalServed := 0 |} in
  let lm := sample.manager (sample.cfg 10 20 5) (sample.working 3)
              [sample.B 1; sample.B 2] in
  represents m lm /\
  (let '(started, n, result, m') := slices.GetPreParams_take m 1 in
   let '(lstarted, ln, lresult, lm') := pool.GetPreParams_take lm 1 in
   started = lstarted /\ n = ln /\
   slices.contents (slices.store m') result = Some <$> lresult /\
   represents m' lm') /\
  represents (slices.collect (fun c => (2 * c)%nat) m (sample.B 7))
             (pool.collect lm (sample.B 7)).1.
Proof.
  intros m lm.
  assert (represents m lm) as H.
  { split; [|by repeat split].
    exists [Some (sample.B 1); Some (sample.B 2)]. cbn. split; [reflexivity|lia]. }
  split; [exact H|].
  exact (slice_operations_refine_the_lists (fun c => (2 * c)%nat) m lm 1 (sample.B 7) H).
Defined.

(** ** The capacity that a load leaves *)

(** X21.  The filter of [loadFromDisk] builds the pool in one array with
    room for every decoded entry and never reallocates: the pool slice
    shows the entries that are kept, in their order, and its capacity is
    the number of decoded entries, so every entry that is dropped leaves
    one cell of spare capacity behind the pool. *)
Theorem load_filter_keeps_the_decoded_capacity (grow : nat -> nat)
    (h : slices.heap) (params : list slices.cell) :
  slices.contents (slices.validParams grow h params).1
                  (slices.validParams grow h params).2
    = Some <$> pool.validParams params /\
  slices.slen (slices.validParams grow h params).2
    = length (pool.validParams params) /\
  slices.scap (slices.validParams grow h params).2 = length params /\
  slices.within (slices.validParams grow h params).1
                (slices.validParams grow h params).2.
Proof.
  unfold slices.validParams, slices.make.
  set (v := {| slices.arr := length h; slices.off := 0%nat; slices.slen := 0%nat;
               slices.scap := length params |}).
  assert (slices.within (h ++ [replicate (length params) None]) v) as Hin.
  { exists (replicate (length params) None). subst v.
    cbn [slices.arr slices.off slices.slen slices.scap].
    rewrite lookup_app_r, Nat.sub_diag, length_replicate by lia.
    split; [reflexivity|lia]. }
  destruct (validParams_loop grow params _ v Hin ltac:(subst v; cbn; lia))
    as (Hin' & Hcap & Hc).
  assert (slices.contents (h ++ [replicate (length params) None]) v = []) as Hnil
    by (unfold slices.contents; subst v; by cbn [slices.slen take]).
  rewrite Hnil in Hc. cbn [app] in Hc.
  split; [exact Hc|]. split; [|split; [exact Hcap | exact Hin']].
  rewrite <- (contents_length _ _ Hin'), Hc. by rewrite length_fmap.
Qed.

(** ** A request and a deposit on one array *)

(** X22.  The result of a request that empties the pool is
    [m.preParams[:take]]: a window on the array of the pool that keeps the
    capacity of the pool.  When the pool slice had spare capacity (as
    [loadFromDisk] leaves it after it drops an entry) and the pool did not
    hold enough, the request's [append(result, G)] and the collector's
    [append(m.preParams, R)] of a refill round write the same cell of that
    array.  Whichever comes second wins: one of the two bundles is lost,
    and the other is both the last element of the result of the request
    and the content of the pool. *)
Theorem shortfall_result_shares_a_cell_with_the_pool (grow : nat -> nat)
    (m : slices.manager) (count : N) (R G : pool.PreParamsData) :
  slices.within (slices.store m) (slices.preParams m) ->
  (0 < slices.slen (slices.preParams m) < slices.scap (slices.preParams m))%nat ->
  Z.of_nat (slices.slen (slices.preParams m)) < Z.of_N count ->
  0 < pool.MaxPoolSize (slices.config m) ->
  (let '(result, m') := deposit_then_append grow m count R G in
   slices.contents (slices.store m') result
     = slices.contents (slices.store m) (slices.preParams m) ++ [Some G] /\
   slices.contents (slices.store m') (slices.preParams m') = [Some G]) /\
  (let '(result, m') := append_then_deposit grow m count R G in
   slices.contents (slices.store m') result
     = slices.contents (slices.store m) (slices.preParams m) ++ [Some R] /\
   slices.contents (slices.store m') (slices.preParams m') = [Some R]).
Proof.
  intros (a & Ha & Hcap & Hle) [Hpos Hspare] Hshort Hmax.
  destruct (take_shortfall m count Hpos Hshort) as (started & Htake).
  set (p := slices.preParams m) in *. set (n := slices.slen p) in *.
  assert ((slices.store m ++ [replicate (N.to_nat count) None]) !! slices.arr p
          = Some a) as Ha1
    by (rewrite lookup_app_l; [exact Ha | by apply lookup_lt_Some in Ha]).
  assert ((n - n <? slices.scap p - n)%nat = true) as Hroom1
    by (apply Nat.ltb_lt; lia).
  assert ((n <? slices.scap p)%nat = true) as Hroom2 by (apply Nat.ltb_lt; lia).
  assert ((Z.of_nat (n - n) <? pool.MaxPoolSize (slices.config m)) = true) as Hdep
    by (apply Z.ltb_lt; lia).
  assert (slices.contents (slices.store m) p = take n (drop (slices.off p) a)) as Hold
    by (unfold slices.contents; by rewrite Ha).
  rewrite Hold.
  unfold deposit_then_append, append_then_deposit. rewrite Htake.
  unfold slices.collect, slices.GetPreParams_append, slices.append, slices.upto,
    slices.from.
  cbn [slices.store slices.preParams slices.config slices.totalServed
       slices.arr slices.off slices.slen slices.scap].
  fold p. fold n. rewrite ?Hdep, ?Hroom1, ?Hroom2.
  cbn [slices.store slices.preParams slices.config slices.totalServed
       slices.arr slices.off slices.slen slices.scap].
  rewrite ?Hdep, ?Hroom1, ?Hroom2.
  cbn [slices.store slices.preParams slices.config slices.totalServed
       slices.arr slices.off slices.slen slices.scap].
  unfold slices.contents.
  cbn [slices.arr slices.off slices.slen slices.scap].
  rewrite !list_lookup_alter_eq, Ha1. cbn [fmap option_fmap option_map default from_option id].
  replace (slices.off p + n + (n - n))%nat with (slices.off p + n)%nat by lia.
  rewrite !list_insert_insert_eq.
  replace (S (n - n)) with 1%nat by lia.
  rewrite !take_drop_insert_end, !take_drop_insert_start by lia.
  done.
Qed.

(** The request of the witnesses: a pool loaded from a file of two entries
    of which one was dropped, asked for two bundles. *)
Lemma shortfall_result_shares_a_cell_with_the_pool_witness :
  let m := {| slices.store := [[Some (sample.B 1); None]];
              slices.preParams := {| slices.arr := 0%nat; slices.off := 0%nat;
                                    slices.slen := 1%nat; slices.scap := 2%nat |};
              slices.config := sample.cfg 10 20 5;
              slices.totalServed := 0 |} in
  (let '(result, m') := deposit_then_append (fun c => (2 * c)%nat) m 2 (sample.B 7) (sample.B 8) in
   slices.contents (slices.store m') result
     = slices.contents (slices.store m) (slices.preParams m) ++ [Some (sample.B 8)] /\
   slices.contents (slices.store m') (slices.preParams m') = [Some (sample.B 8)]) /\
  (let '(result, m') := append_then_deposit (fun c => (2 * c)%nat) m 2 (sample.B 7) (sample.B 8) in
   slices.contents (slices.store m') result
     = slices.contents (slices.store m) (slices.preParams m) ++ [Some (sample.B 7)] /\
   slices.contents (slices.store m') (slices.preParams m') = [Some (sample.B 7)]).
Proof.
  intros m.
  apply (shortfall_result_shares_a_cell_with_the_pool (fun c => (2 * c)%nat) m 2
           (sample.B 7) (sample.B 8)).
  - exists [Some (sample.B 1); None]. cbn. split; [reflexivity|lia].
  - cbn. lia.
  - cbn. lia.
  - cbn. lia.
Defined.

(** X23.  When the pool slice has no spare capacity (as the pool that
    [NewManager] makes, and the pool that [loadFromDisk] builds from a
    file of which it drops nothing), a request that the pool cannot fill
    and the collector do not interfere: in either order the result shows
    the bundles taken and then the one generated, and the pool shows the
    collector's bundle. *)
Theorem full_pool_slice_is_not_shared (grow : nat -> nat)
    (m : slices.manager) (count : N) (R G : pool.PreParamsData) :
  slices.within (slices.store m) (slices.preParams m) ->
  slices.slen (slices.preParams m) = slices.scap (slices.preParams m) ->
  Z.of_nat (slices.slen (slices.preParams m)) < Z.of_N count ->
  0 < pool.MaxPoolSize (slices.config m) ->
  (let '(result, m') := deposit_then_append grow m count R G in
   slices.contents (slices.store m') result
     = slices.contents (slices.store m) (slices.preParams m) ++ [Some G] /\
   slices.contents (slices.store m') (slices.preParams m') = [Some R]) /\
  (let '(result, m') := append_then_deposit grow m count R G in
   slices.contents (slices.store m') result
     = slices.contents (slices.store m) (slices.preParams m) ++ [Some G] /\
   slices.contents (slices.store m') (slices.preParams m') = [Some R]).
Proof.
  intros Hin Hfull Hshort Hmax.
  set (h1 := slices.store m ++ [replicate (N.to_nat count) None]).
  destruct (within_alloc _ _ (replicate (N.to_nat count) None) Hin) as (Hin1 & Hc1).
  fold h1 in Hin1, Hc1.
  (* the result and the rest of the pool, after the take *)
  assert (exists started served result rest,
            slices.GetPreParams_take m count
              = (started, Z.of_N count, result,
                 {| slices.store := h1; slices.preParams := rest;
                    slices.config := slices.config m;
                    slices.totalServed := served |}) /\
            slices.within h1 result /\ slices.within h1 rest /\
            slices.contents h1 result
              = slices.contents (slices.store m) (slices.preParams m) /\
            slices.contents h1 rest = [] /\
            slices.slen rest = 0%nat /\ slices.scap rest = 0%nat /\
            ((slices.slen result < slices.scap result)%nat ->
             slices.arr result = length (slices.store m) /\
             (slices.arr rest < length (slices.store m))%nat))
    as (started & served & result & rest & Htake & Hres & Hrest & Hcres & Hcrest
        & Hlrest & Hcaprest & Hfresh).
  { destruct (decide (slices.slen (slices.preParams m) = 0%nat)) as [Hzero|Hpos].
    - destruct (take_empty m count Hzero ltac:(lia)) as (started & served & Htake).
      do 4 eexists. split; [exact Htake|].
      pose proof (contents_length _ _ Hin) as Hl. rewrite Hzero in Hl.
      apply nil_length_inv in Hl.
      split; [|split; [exact Hin1|split; [by rewrite Hl|]]].
      + exists (replicate (N.to_nat count) None). subst h1.
        cbn [slices.arr slices.off slices.slen slices.scap].
        rewrite lookup_app_r, Nat.sub_diag, length_replicate by lia.
        split; [reflexivity|lia].
      + split; [by rewrite Hc1|]. split; [exact Hzero|]. split; [lia|].
        intros _. split; [reflexivity|].
        destruct Hin as (a & Ha & _). by apply lookup_lt_Some in Ha.
    - destruct (take_shortfall m count ltac:(lia) Hshort) as (started & Htake).
      destruct (upto_from _ _ (slices.slen (slices.preParams m)) Hin1 ltac:(lia))
        as (Hup & Hfrom & Hwup & Hwfrom).
      do 4 eexists. split; [exact Htake|].
      split; [exact Hwup|]. split; [exact Hwfrom|].
      pose proof (contents_length _ _ Hin) as Hl.
      split; [by rewrite Hup, Hc1, take_ge by lia|].
      split; [by rewrite Hfrom, Hc1, drop_ge by lia|].
      cbn [slices.from slices.upto slices.slen slices.scap].
      split; [lia|]. split; [lia|]. lia. }
  assert (slices.arr result <> length h1 /\ slices.arr rest <> length h1) as [Hres1 Hrest1].
  { destruct Hres as (a & Ha & _), Hrest as (b & Hb & _).
    apply lookup_lt_Some in Ha, Hb. lia. }
  assert ((Z.of_nat (slices.slen rest) <? pool.MaxPoolSize (slices.config m)) = true)
    as Hdep by (apply Z.ltb_lt; lia).
  unfold deposit_then_append, append_then_deposit. rewrite Htake.
  unfold slices.collect, slices.GetPreParams_append.
  cbn [slices.store slices.preParams slices.config slices.totalServed].
  rewrite Hdep. split.
  - (* the collector first: its append allocates *)
    destruct (append_reallocates grow h1 rest (Some R) Hrest ltac:(lia))
      as (h2 & q & Hq & Harrq & Hcq & Hold2 & Hlen2).
    rewrite Hq. cbn [slices.store slices.preParams slices.config slices.totalServed].
    destruct (append_frame grow h1 rest result (Some R) Hrest Hres ltac:(lia))
      as (Hcres2 & Hres2).
    rewrite Hq in Hcres2, Hres2. cbn [fst] in Hcres2, Hres2.
    destruct (append_contents grow h2 result (Some G) Hres2) as (Hc3 & _ & _).
    assert (slices.within h2 q) as Hq2.
    { pose proof (append_contents grow h1 rest (Some R) Hrest) as (_ & Hw & _).
      by rewrite Hq in Hw. }
    destruct (append_frame grow h2 result q (Some G) Hres2 Hq2) as (Hcq3 & _).
    { intros Hroom. destruct (Hfresh Hroom) as [-> _]. rewrite Harrq. subst h1.
      rewrite length_app. cbn. lia. }
    destruct (slices.append grow h2 result (Some G)) as [h3 r'].
    cbn [fst snd slices.store slices.preParams] in *.
    split; [by rewrite Hc3, Hcres2, Hcres | by rewrite Hcq3, Hcq, Hcrest].
  - (* the request first *)
    destruct (append_contents grow h1 result (Some G) Hres) as (Hc2 & Hr2 & _).
    destruct (append_frame grow h1 result rest (Some G) Hres Hrest) as (Hcrest2 & Hrest2).
    { intros Hroom. destruct (Hfresh Hroom) as [-> Hlt]. lia. }
    destruct (slices.append grow h1 result (Some G)) as [h2 r'].
    cbn [fst snd slices.store slices.preParams slices.config slices.totalServed] in *.
    rewrite Hdep.
    destruct (append_reallocates grow h2 rest (Some R) Hrest2 ltac:(lia))
      as (h3 & q & Hq & Harrq & Hcq & Hold3 & Hlen3).
    destruct (append_frame grow h2 rest r' (Some R) Hrest2 Hr2 ltac:(lia))
      as (Hcr3 & _).
    rewrite Hq in Hcr3 |- *. cbn [fst snd slices.store slices.preParams] in *.
    split; [by rewrite Hcr3, Hc2, Hcres | by rewrite Hcq, Hcrest2, Hcrest].
Qed.

(** The request of the witness: a pool of one bundle in an array of one
    cell, asked for two bundles. *)
Lemma full_pool_slice_is_not_shared_witness :
  let m := {| slices.store := [[Some (sample.B 1)]];
              slices.preParams := {| slices.arr := 0%nat; slices.off := 0%nat;
                                    slices.slen := 1%nat; slices.scap := 1%nat |};
              slices.config := sample.cfg 10 20 5;
              slices.totalServed := 0 |} in
  (let '(result, m') := deposit_then_append (fun c => (2 * c)%nat) m 2 (sample.B 7) (sample.B 8) in
   slices.contents (slices.store m') result
     = slices.contents (slices.store m) (slices.preParams m) ++ [Some (sample.B 8)] /\
   slices.contents (slices.store m') (slices.preParams m') = [Some (sample.B 7)]) /\
  (let '(result, m') := append_then_deposit (fun c => (2 * c)%nat) m 2 (sample.B 7) (sample.B 8) in
   slices.contents (slices.store m') result
     = slices.contents (slices.store m) (slices.preParams m) ++ [Some (sample.B 8)] /\
   slices.contents (slices.store m') (slices.preParams m') = [Some (sample.B 7)]).
Proof.
  intros m.
  apply (full_pool_slice_is_not_shared (fun c => (2 * c)%nat) m 2
           (sample.B 7) (sample.B 8)).
  - exists [Some (sample.B 1)]. cbn. split; [reflexivity|lia].
  - reflexivity.
  - cbn. lia.
  - cbn. lia.
Defined.

(** ** A request among the deposits of a refill round *)


(** Where [append] puts its result: in the array of the slice when it has
    room, in a new array otherwise. *)
Lemma append_arr (grow : nat -> nat) (h : slices.heap) (s : slices.slice)
    (x : slices.cell) :
  slices.arr (slices.append grow h s x).2
    = if (slices.slen s <? slices.scap s)%nat then slices.arr s else length h.
Proof. unfold slices.append. by destruct (_ <? _)%nat. Qed.

Lemma append_room (grow : nat -> nat) (h : slices.heap) (s : slices.slice)
    (x : slices.cell) :
  (slices.slen (slices.append grow h s x).2 < slices.scap (slices.append grow h s x).2)%nat ->
  (slices.slen s < slices.scap s)%nat \/
  slices.arr (slices.append grow h s x).2 = length h.
Proof.
  rewrite append_arr. destruct (Nat.ltb_spec (slices.slen s) (slices.scap s)); auto.
Qed.








(** ** The count of generations among goroutines *)

Lemma race_step_inv (start : Z) (left : nat) (s : race.state) (a : race.access) :
  Int64.min_int <= start ->
  start + Z.of_nat (race.increments s) + Z.of_nat (S left) <= Int64.max_int ->
  start <= race.totalGenerated s <= start + Z.of_nat (race.increments s) ->
  ((0 < race.increments s)%nat -> start + 1 <= race.totalGenerated s) ->
  map_Forall (fun _ v => start <= v <= start + Z.of_nat (race.increments s))
             (race.loaded s) ->
  let s' := race.step s a in
  start + Z.of_nat (race.increments s') + Z.of_nat left <= Int64.max_int /\
  start <= race.totalGenerated s' <= start + Z.of_nat (race.increments s') /\
  ((0 < race.increments s')%nat -> start + 1 <= race.totalGenerated s') /\
  map_Forall (fun _ v => start <= v <= start + Z.of_nat (race.increments s'))
             (race.loaded s').
Proof.
  intros Hmin Hmax Hval Hpos Hloaded. destruct a as [g|g]; cbn [race.step].
  - cbn [race.totalGenerated race.loaded race.increments].
    split; [lia|]. split; [exact Hval|]. split; [exact Hpos|].
    by apply map_Forall_insert_2.
  - destruct (race.loaded s !! g) as [v|] eqn:Hg.
    + cbn [race.totalGenerated race.loaded race.increments].
      pose proof (Hloaded g v Hg) as Hv. cbn beta in Hv.
      assert (Int64.add v 1 = v + 1) as ->.
      { unfold Int64.add. apply wrap_in_range. unfold Int64.in_range. lia. }
      split; [lia|]. split; [lia|]. split; [lia|].
      apply map_Forall_delete.
      eapply map_Forall_impl; [exact Hloaded|]. cbn beta. intros ? ? ?. lia.
    + split; [lia|]. split; [exact Hval|]. split; [exact Hpos | exact Hloaded].
Qed.

Lemma race_exec_inv (start : Z) (schedule : list race.access) :
  forall s : race.state,
  Int64.min_int <= start ->
  start + Z.of_nat (race.increments s) + Z.of_nat (length schedule) <= Int64.max_int ->
  start <= race.totalGenerated s <= start + Z.of_nat (race.increments s) ->
  ((0 < race.increments s)%nat -> start + 1 <= race.totalGenerated s) ->
  map_Forall (fun _ v => start <= v <= start + Z.of_nat (race.increments s))
             (race.loaded s) ->
  let s' := race.exec s schedule in
  start <= race.totalGenerated s' <= start + Z.of_nat (race.increments s') /\
  ((0 < race.increments s')%nat -> start + 1 <= race.totalGenerated s').
Proof.
  induction schedule as [|a schedule IH]; intros s Hmin Hmax Hval Hpos Hloaded;
    cbn [race.exec foldl length] in *.
  - by split.
  - destruct (race_step_inv start (length schedule) s a Hmin Hmax Hval Hpos Hloaded)
      as (Hmax' & Hval' & Hpos' & Hloaded').
    by apply IH.
Qed.

(** X24.  However the loads and the stores of the increments of
    [totalGenerated] interleave, the field never counts more generations
    than were made, and it counts at least one when one was made: after
    [k >= 1] increments it has grown by at least 1 and at most [k]
    (without wrap-around). *)
Theorem totalGenerated_never_overcounts (start : Z) (schedule : list race.access) :
  Int64.min_int <= start ->
  start + Z.of_nat (length schedule) <= Int64.max_int ->
  let s := race.exec (race.init start) schedule in
  start <= race.totalGenerated s <= start + Z.of_nat (race.increments s) /\
  ((0 < race.increments s)%nat -> start + 1 <= race.totalGenerated s).
Proof.
  intros Hmin Hmax.
  apply race_exec_inv; cbn [race.init race.totalGenerated race.increments race.loaded].
  - exact Hmin.
  - lia.
  - lia.
  - lia.
  - apply map_Forall_empty.
Qed.

(** X24 at three increments of which the first two overlap. *)
Lemma totalGenerated_never_overcounts_witness :
  let s := race.exec (race.init 5)
             [race.Loads 0; race.Loads 1; race.Stores 0; race.Stores 1;
              race.Loads 0; race.Stores 0] in
  race.increments s = 3%nat /\ race.totalGenerated s = 7 /\
  5 <= race.totalGenerated s <= 5 + 3.
Proof.
  intros s.
  pose proof (totalGenerated_never_overcounts 5
                [race.Loads 0; race.Loads 1; race.Stores 0; race.Stores 1;
                 race.Loads 0; race.Stores 0]
                ltac:(vm_compute; discriminate) ltac:(vm_compute; discriminate))
    as [H _].
  fold s in H. assert (race.increments s = 3%nat) as Hk by reflexivity.
  rewrite Hk in H. split; [exact Hk|]. split; [reflexivity | exact H].
Defined.

(** X25.  Two increments of [totalGenerated] that overlap count as one:
    when two goroutines both load the field before either stores, the
    field grows by one although two generations were made. *)
Theorem overlapping_increments_count_once (s : race.state) (g1 g2 : nat) :
  g1 <> g2 ->
  let s' := race.exec s [race.Loads g1; race.Loads g2; race.Stores g1; race.Stores g2] in
  race.increments s' = S (S (race.increments s)) /\
  race.totalGenerated s' = Int64.add (race.totalGenerated s) 1.
Proof.
  intros Hne. cbn [race.exec foldl race.step race.loaded race.totalGenerated].
  rewrite lookup_insert_ne by done. rewrite lookup_insert_eq.
  cbn [race.loaded race.totalGenerated race.increments].
  rewrite lookup_delete_ne by done. rewrite lookup_insert_eq.
  cbn [race.loaded race.totalGenerated race.increments]. by split.
Qed.

(** X25 at a worker and a request that generate at once. *)
Lemma overlapping_increments_count_once_witness :
  let s := race.exec (race.init 0)
             [race.Loads 0; race.Loads 1; race.Stores 0; race.Stores 1] in
  race.increments s = 2%nat /\ race.totalGenerated s = 1.
Proof.
  intros s.
  destruct (overlapping_increments_count_once (race.init 0) 0 1 ltac:(discriminate))
    as [Hk Hv].
  split; [exact Hk | exact Hv].
Defined.
